(** * Sampler commands ([index.js]): a shallow embedding and its properties

    The extension scans the settings panel of the host page for sampler
    controls ([enumerateSamplerParameters]) and registers two slash
    commands, [sampler-get] and [sampler-set], that look a control up by
    name or id and read or write it.

    Layout of the development:
    - [JsString], [JsNumber], [JsValue]: the ECMAScript primitives the
      source calls ([trim], [replace], [parseFloat], [Math.round],
      [Math.min], [Math.max], [String], truthiness). Numbers are IEEE 754
      binary64 values, taken from the standard library's [SpecFloat].
      Strings are held in UTF-8, and [trim] and [parseFloat] strip the
      white space of Unicode.
    - [Engine]: what is the browser's and is taken as it comes,
      [toLowerCase] and the setter of a control's value.
    - [Dom]: the part of the DOM the source reads and writes: a tree of
      elements and text nodes, element references, the selectors that occur
      in the source, [closest], [querySelector], [querySelectorAll],
      [getElementById], [textContent], the computed style.
    - the source functions, in the order of the file, in an exception
      monad ([throw] is [Throw]; dereferencing [null] or [undefined] is a
      [TypeError]); the two command callbacks also thread the page.
      [enumProvider], which sorts a copy of the enumeration for the
      suggestion list, and the registration of the commands with the host's
      parser are not on the path of either callback and are left out.
    - sample panels, the vocabulary of the properties, the properties
      C1 to C10, and further properties of the same functions, X1 to
      X18. *)

From Stdlib Require Import ZArith List String Ascii Bool Lia.
From Stdlib Require Import SpecFloat DecimalString.
Import ListNotations.
Local Open Scope string_scope.
Set Warnings "-register-all".

(** ** Strings *)

Module JsString.

(** A string is held in UTF-8: a code point below U+0080 is one
    character of the [string], any other code point is the two to four
    characters of its encoding. Equality, concatenation and the search for
    an ASCII token are the same on the encoding as on the string. *)
Definition fromCodePoint (n : N) : string :=
  let byte (k : N) := ascii_of_N k in
  let cont (k : N) := byte (128 + k mod 64)%N in
  if (n <? 128)%N then String (byte n) EmptyString
  else if (n <? 2048)%N then
    String (byte (192 + n / 64)%N) (String (cont n) EmptyString)
  else if (n <? 65536)%N then
    String (byte (224 + n / 4096)%N)
      (String (cont (n / 64)%N) (String (cont n) EmptyString))
  else
    String (byte (240 + n / 262144)%N)
      (String (cont (n / 4096)%N)
         (String (cont (n / 64)%N) (String (cont n) EmptyString))).

(** The code points [trim] and [parseFloat] strip: WhiteSpace (TAB, VT,
    FF, U+FEFF and the space separators of Unicode) and LineTerminator
    (LF, CR, U+2028, U+2029). *)
Definition whiteSpaceCodePoints : list N :=
  [ 0x09; 0x0A; 0x0B; 0x0C; 0x0D; 0x20; 0xA0; 0x1680;
    0x2000; 0x2001; 0x2002; 0x2003; 0x2004; 0x2005; 0x2006; 0x2007;
    0x2008; 0x2009; 0x200A; 0x2028; 0x2029; 0x202F; 0x205F; 0x3000;
    0xFEFF ]%N.

Definition whiteSpace : list string :=
  Eval vm_compute in map fromCodePoint whiteSpaceCodePoints.

(** [s] is one white space character. *)
Definition isWhiteSpace (s : string) : bool := existsb (String.eqb s) whiteSpace.

(** The white space character [s] starts with, if it starts with one. *)
Definition leadingWhiteSpace (s : string) : option string :=
  find (fun space => prefix space s) whiteSpace.

(** [trimStart]: [pending] counts the characters of the [string] that
    are still to go of the white space character being skipped. *)
Fixpoint skipWhiteSpace (pending : nat) (s : string) : string :=
  match s with
  | EmptyString => EmptyString
  | String _ r =>
      match pending with
      | S k => skipWhiteSpace k r
      | O =>
          match leadingWhiteSpace s with
          | Some space => skipWhiteSpace (Nat.pred (String.length space)) r
          | None => s
          end
      end
  end.

Definition trimStart (s : string) : string := skipWhiteSpace 0 s.

(** [trimEnd]: what is left of [String c r] is [c] before what is left
    of [r], unless that is one white space character, the last one
    standing. *)
Fixpoint trimEnd (s : string) : string :=
  match s with
  | EmptyString => EmptyString
  | String c r =>
      let kept := String c (trimEnd r) in
      if isWhiteSpace kept then EmptyString else kept
  end.

(** [String.prototype.trim] *)
Definition trim (s : string) : string := trimEnd (trimStart s).

Definition lowerChar (c : ascii) : ascii :=
  let n := nat_of_ascii c in
  if Nat.leb 65 n && Nat.leb n 90 then ascii_of_nat (n + 32) else c.

(** Lower case of the ASCII letters only: what HTML calls ASCII
    lowercase, by which it compares the keywords of [type]. *)
Fixpoint asciiLowerCase (s : string) : string :=
  match s with
  | EmptyString => EmptyString
  | String c r => String (lowerChar c) (asciiLowerCase r)
  end.

Fixpoint drop (n : nat) (s : string) : string :=
  match n, s with
  | S n', String _ r => drop n' r
  | _, _ => s
  end.

(** [String.prototype.replace] with a string pattern: only the first
    occurrence of [pat] is replaced, wherever it is. The replacement is
    inserted as it is, which is what happens when it holds no [$]; the
    source only ever inserts the empty string. *)
Fixpoint replace (pat rep s : string) : string :=
  if prefix pat s then rep ++ drop (String.length pat) s
  else match s with
       | EmptyString => EmptyString
       | String c r => String c (replace pat rep r)
       end.

(** [pat] occurs in [s] with [a] before it and [b] after it. *)
Definition occurs_at (pat a b s : string) : Prop := s = a ++ pat ++ b.

Definition occurs (pat s : string) : Prop := exists a b, occurs_at pat a b s.

End JsString.

(** ** Numbers *)

Module JsNumber.
Local Open Scope Z_scope.

Definition prec : Z := 53.
Definition emax : Z := 1024.

(** A Number is a binary64 value. *)
Definition number : Type := spec_float.

Definition NaN : number := S754_nan.
Definition zero : number := S754_zero false.

(** [Number.EPSILON], 2^-52 *)
Definition EPSILON : number := S754_finite false (2 ^ 52) (-104).

(** The Number nearest to [± digits * 10 ^ exp10], ties to even. *)
Definition ofDecimal (neg : bool) (digits exp10 : Z) : number :=
  match digits with
  | Zpos m =>
      if 0 <=? exp10
      then binary_round prec emax neg (m * Z.to_pos (10 ^ exp10)) 0
      else
        let '(q, e, l) :=
          SFdiv_core_binary prec emax (Zpos m) 0 (10 ^ (- exp10)) 0 in
        binary_round_aux prec emax neg q e l
  | _ => S754_zero neg
  end.

Definition ofZ (z : Z) : number := binary_normalize prec emax z 0 false.

Definition isNaN (x : number) : bool :=
  match x with S754_nan => true | _ => false end.

Definition isFinite (x : number) : bool :=
  match x with S754_nan | S754_infinity _ => false | _ => true end.

(** ToBoolean on a Number: [NaN], [+0] and [-0] are falsy. *)
Definition truthy (x : number) : bool :=
  match x with S754_nan | S754_zero _ => false | _ => true end.

Definition add : number -> number -> number := SFadd prec emax.
Definition mul : number -> number -> number := SFmul prec emax.
Definition div : number -> number -> number := SFdiv prec emax.

(** [Math.max] and [Math.min] of two arguments: [NaN] if either is,
    and [-0] is smaller than [+0]. *)
Definition max (a b : number) : number :=
  match SFcompare a b with
  | None => NaN
  | Some Gt => a
  | Some Lt => b
  | Some Eq => match a, b with S754_zero true, S754_zero _ => b | _, _ => a end
  end.

Definition min (a b : number) : number :=
  match SFcompare a b with
  | None => NaN
  | Some Lt => a
  | Some Gt => b
  | Some Eq => match a, b with S754_zero false, S754_zero _ => b | _, _ => a end
  end.

(** [Math.round]: the integer nearest to [x], ties towards +infinity;
    [-0] for [x] in [[-0.5, 0)]. *)
Definition round (x : number) : number :=
  match x with
  | S754_finite s m e =>
      if 0 <=? e then x
      else binary_normalize prec emax
             ((2 * cond_Zopp s (Zpos m) + 2 ^ (- e)) / 2 ^ (1 - e)) 0 s
  | _ => x
  end.

(** *** [parseFloat] *)

Definition isDigit (c : ascii) : bool :=
  let n := nat_of_ascii c in Nat.leb 48 n && Nat.leb n 57.

Definition digitVal (c : ascii) : Z := Z.of_nat (nat_of_ascii c) - 48.

(** The longest run of decimal digits at the head of [s]: the value
    accumulated onto [acc], the number of digits read, and the rest. *)
Fixpoint readDigits (acc len : Z) (s : string) : Z * Z * string :=
  match s with
  | String c r =>
      if isDigit c then readDigits (10 * acc + digitVal c) (len + 1) r
      else (acc, len, s)
  | EmptyString => (acc, len, s)
  end.

Definition readSign (s : string) : bool * string :=
  match s with
  | String "-"%char r => (true, r)
  | String "+"%char r => (false, r)
  | _ => (false, s)
  end.

(** An exponent part counts only when it is complete. *)
Definition readExponent (s : string) : Z :=
  match s with
  | String c r =>
      if (Ascii.eqb c "e" || Ascii.eqb c "E")%char then
        let '(neg, r1) := readSign r in
        let '(v, len, _) := readDigits 0 0 r1 in
        if len =? 0 then 0 else if neg then - v else v
      else 0
  | EmptyString => 0
  end.

(** [parseFloat]: leading white space is skipped, the longest prefix that
    is a decimal literal is converted, anything after it is ignored, and
    the result is [NaN] when there is no such prefix. *)
Definition parseFloat (input : string) : number :=
  let '(neg, s1) := readSign (JsString.trimStart input) in
  if prefix "Infinity" s1 then S754_infinity neg
  else
    let '(ip, ilen, s2) := readDigits 0 0 s1 in
    let '(fp, flen, s3) :=
      match s2 with
      | String "."%char r => readDigits ip 0 r
      | _ => (ip, 0, s2)
      end in
    if ilen + flen =? 0 then NaN
    else ofDecimal neg fp (readExponent s3 - flen).

(** *** [Number::toString] (radix 10) *)

Definition digitsOf (z : Z) : string :=
  NilEmpty.string_of_uint (Pos.to_uint (Z.to_pos z)).

Definition numDigits (z : Z) : Z := Z.of_nat (String.length (digitsOf z)).

(** For [num / den > 0], the [n] with
    [10 ^ (n - 1) <= num / den < 10 ^ n]. *)
Definition decimalExponent (num den : Z) : Z :=
  if den <=? num then numDigits (num / den)
  else
    let d := numDigits (den / num) in
    if den <=? num * 10 ^ (d - 1) then 2 - d else 1 - d.

(** A [k]-digit integer [s] and an [n] with [s * 10 ^ (n - k)] converting
    back to [x], if there is one: the two [k]-digit decimals around
    [num / den] are tried, and the nearer one wins when both convert to
    [x] (the even one on a tie). *)
Definition candidate (x : number) (num den n0 k : Z) : option (Z * Z) :=
  let sh := k - n0 in
  let N := if 0 <=? sh then num * 10 ^ sh else num in
  let D := if 0 <=? sh then den else den * 10 ^ (- sh) in
  let lo := N / D in
  let hi := lo + 1 in
  let okLo := SFeqb (ofDecimal false lo (n0 - k)) x in
  let okHi := SFeqb (ofDecimal false hi (n0 - k)) x in
  let pick :=
    match okLo, okHi with
    | true, true =>
        match 2 * (N mod D) ?= D with
        | Lt => Some lo
        | Gt => Some hi
        | Eq => Some (if Z.even lo then lo else hi)
        end
    | true, false => Some lo
    | false, true => Some hi
    | false, false => None
    end in
  match pick with
  | Some s => if s =? 10 ^ k then Some (10 ^ (k - 1), n0 + 1) else Some (s, n0)
  | None => None
  end.

(** The shortest digit string: the least [k] that has a candidate.
    Seventeen digits always identify a binary64 value. *)
Fixpoint shortest (fuel : nat) (x : number) (num den n0 k : Z) : Z * Z * Z :=
  match fuel with
  | O => (num * 10 ^ (k - n0) / den, k, n0)
  | S fuel' =>
      match candidate x num den n0 k with
      | Some (s, n) => (s, k, n)
      | None => shortest fuel' x num den n0 (k + 1)
      end
  end.

Definition zeros (n : Z) : string := string_of_list_ascii (repeat "0"%char (Z.to_nat n)).

Definition takeStr (n : Z) (s : string) : string := substring 0 (Z.to_nat n) s.

Definition format (s k n : Z) : string :=
  let ds := digitsOf s in
  if (k <=? n) && (n <=? 21) then ds ++ zeros (n - k)
  else if (0 <? n) && (n <=? 21)
  then takeStr n ds ++ "." ++ JsString.drop (Z.to_nat n) ds
  else if (-6 <? n) && (n <=? 0) then "0." ++ zeros (- n) ++ ds
  else
    let e := n - 1 in
    let es := (if e <? 0 then "-" else "+") ++ digitsOf (Z.abs e) in
    if k =? 1 then ds ++ "e" ++ es
    else takeStr 1 ds ++ "." ++ JsString.drop 1 ds ++ "e" ++ es.

Definition toStringPos (m : positive) (e : Z) : string :=
  let num := if 0 <=? e then Zpos m * 2 ^ e else Zpos m in
  let den := if 0 <=? e then 1 else 2 ^ (- e) in
  let '(s, k, n) :=
    shortest 17 (S754_finite false m e) num den (decimalExponent num den) 1 in
  format s k n.

Definition toString (x : number) : string :=
  match x with
  | S754_nan => "NaN"
  | S754_zero _ => "0"
  | S754_infinity s => if s then "-Infinity" else "Infinity"
  | S754_finite s m e => (if s then "-" else EmptyString) ++ toStringPos m e
  end.

End JsNumber.

(** ** Values *)

Module JsValue.

(** The primitive values that can reach the code: arguments handed over
    by the command parser and the numbers the code computes. *)
Inductive value : Type :=
| Undefined
| Null
| Bool (b : bool)
| Number (n : JsNumber.number)
| Str (s : string).

Definition nonEmpty (s : string) : bool :=
  match s with EmptyString => false | String _ _ => true end.

(** ToBoolean: what [!v] and [v || w] test. *)
Definition toBoolean (v : value) : bool :=
  match v with
  | Undefined | Null => false
  | Bool b => b
  | Number n => JsNumber.truthy n
  | Str s => nonEmpty s
  end.

Definition boolToString (b : bool) : string := if b then "true" else "false".

(** ToString: what [String(v)] and [v + ''] produce. *)
Definition toString (v : value) : string :=
  match v with
  | Undefined => "undefined"
  | Null => "null"
  | Bool b => boolToString b
  | Number n => JsNumber.toString n
  | Str s => s
  end.

(** [typeof v === 'string'] *)
Definition isString (v : value) : bool :=
  match v with Str _ => true | _ => false end.

End JsValue.

(** ** What the browser provides

    Two things the source relies on are the browser's and are taken as
    they come:
    - [String.prototype.toLowerCase], the lower case of Unicode, which
      maps every character to at least one character;
    - the setter of [control.value], which runs HTML's value sanitization
      for the control's [type] before it stores the string: a range
      control moves the number into its own [min] and [max] and onto its
      [step], a number control empties what is not a number.
      [sanitize attrs v] is what a control with the content attributes
      [attrs] holds once [v] has been assigned.
    Every property below holds whatever the two are. *)
Class Engine : Type := {
  toLowerCase : string -> string;
  toLowerCase_nonEmpty :
    forall s, JsValue.nonEmpty (toLowerCase s) = JsValue.nonEmpty s;
  sanitize : list (string * string) -> string -> string }.

(** ** The page *)

Module Dom.

(** What the code can observe of an element. [isHTML] tells an
    [HTMLElement] from other elements (SVG, MathML); [value] and [checked]
    are the live state of an input control; [display], [visibility] and
    [opacity] are the element's computed style. *)
Record element : Type := {
  isHTML : bool;
  tagName : string;
  id : string;
  classList : list string;
  attributes : list (string * string);
  value : string;
  checked : bool;
  display : string;
  visibility : string;
  opacity : string
}.

Inductive node : Type :=
| Text (data : string)
| Elem (e : element) (children : list node).

(** The children of the Document node. *)
Definition document : Type := list node.

(** An element reference is the path to the element, innermost index
    first, so that the tail of a reference is the parent's reference. The
    empty path is the Document itself, which is not an element. *)
Definition ref : Type := list nat.

(** A variable holding an element or [null]. *)
Definition handle : Type := option ref.

Fixpoint nodeAt (path : list nat) (ns : list node) : option node :=
  match path with
  | [] => None
  | i :: rest =>
      match nth_error ns i with
      | None => None
      | Some n =>
          match rest, n with
          | [], _ => Some n
          | _ :: _, Elem _ kids => nodeAt rest kids
          | _ :: _, Text _ => None
          end
      end
  end.

Definition lookup (d : document) (r : ref) : option node := nodeAt (rev r) d.

Definition elementAt (d : document) (r : ref) : option element :=
  match lookup d r with
  | Some (Elem e _) => Some e
  | _ => None
  end.

(** [h instanceof HTMLElement] *)
Definition isHTMLElement (d : document) (h : handle) : bool :=
  match h with
  | Some r => match elementAt d r with Some e => isHTML e | None => false end
  | None => false
  end.

(** [h instanceof HTMLInputElement] *)
Definition isHTMLInputElement (d : document) (h : handle) : bool :=
  match h with
  | Some r =>
      match elementAt d r with
      | Some e => isHTML e && String.eqb (tagName e) "input"
      | None => false
      end
  | None => false
  end.

Fixpoint getAttribute (attrs : list (string * string)) (a : string) : option string :=
  match attrs with
  | [] => None
  | (k, v) :: rest => if String.eqb k a then Some v else getAttribute rest a
  end.

(** A reflected content attribute such as [control.min]: the empty
    string when the attribute is absent. *)
Definition reflected (e : element) (a : string) : string :=
  match getAttribute (attributes e) a with Some v => v | None => EmptyString end.

Definition inputTypes : list string :=
  ["hidden"; "text"; "search"; "tel"; "url"; "email"; "password"; "date";
   "month"; "week"; "time"; "datetime-local"; "number"; "range"; "color";
   "checkbox"; "radio"; "file"; "submit"; "image"; "reset"; "button"].

(** [control.type]: the keyword of the [type] attribute in lower case,
    and ["text"] when the attribute is missing or not a known keyword. *)
Definition inputType (e : element) : string :=
  let t := JsString.asciiLowerCase (reflected e "type") in
  if existsb (String.eqb t) inputTypes then t else "text".

(** *** Selectors

    Only compound selectors and lists of them occur in the source. *)
Inductive simple : Type :=
| STag (t : string)
| SId (i : string)
| SClass (c : string)
| STypeIs (v : string)
| SLacks (a : string).

Definition compound : Type := list simple.
Definition selector : Type := list compound.

(** [[type="v"]] compares the attribute without regard to ASCII case, as
    HTML prescribes for [type]; [SLacks a] is [:not([a])]. *)
Definition matchesSimple (e : element) (s : simple) : bool :=
  match s with
  | STag t => String.eqb (tagName e) t
  | SId i => String.eqb (id e) i
  | SClass c => existsb (String.eqb c) (classList e)
  | STypeIs v =>
      match getAttribute (attributes e) "type" with
      | Some x => String.eqb (JsString.asciiLowerCase x) v
      | None => false
      end
  | SLacks a =>
      match getAttribute (attributes e) a with Some _ => false | None => true end
  end.

Definition matchesElement (sel : selector) (e : element) : bool :=
  existsb (forallb (matchesSimple e)) sel.

(** [e.matches(sel)] for an element reference. *)
Definition matchesAt (d : document) (sel : selector) (r : ref) : bool :=
  match elementAt d r with Some e => matchesElement sel e | None => false end.

(** [e.closest(sel)]: the element itself or its nearest ancestor that
    matches. *)
Fixpoint closestFrom (d : document) (sel : selector) (r : ref) : handle :=
  if matchesAt d sel r then Some r
  else match r with
       | [] => None
       | _ :: p => closestFrom d sel p
       end.

(** The elements of a subtree in document order, each with its
    reference; [elementsOf r n] lists the node [n] at [r] first. *)
Fixpoint elementsOf (r : ref) (n : node) : list (ref * element) :=
  match n with
  | Text _ => []
  | Elem e kids =>
      (r, e) ::
      (fix forest (i : nat) (ks : list node) : list (ref * element) :=
         match ks with
         | [] => []
         | k :: ks' => (elementsOf (i :: r) k ++ forest (S i) ks')%list
         end) 0 kids
  end.

Fixpoint forest (r : ref) (i : nat) (ks : list node) : list (ref * element) :=
  match ks with
  | [] => []
  | k :: ks' => (elementsOf (i :: r) k ++ forest r (S i) ks')%list
  end.

(** The descendants of the node at [r], itself excluded. *)
Definition descendants (d : document) (r : ref) : list (ref * element) :=
  match lookup d r with
  | Some (Elem _ kids) => forest r 0 kids
  | _ => []
  end.

Definition selectAll (d : document) (sel : selector) (r : ref) : list ref :=
  map fst (filter (fun re => matchesElement sel (snd re)) (descendants d r)).

(** [document.getElementById]: the first element in document order. *)
Definition getElementById (d : document) (i : string) : handle :=
  match filter (fun re => String.eqb (id (snd re)) i) (forest [] 0 d) with
  | re :: _ => Some (fst re)
  | [] => None
  end.

(** [node.textContent]: the text of the descendants, in order. *)
Fixpoint textOf (n : node) : string :=
  match n with
  | Text s => s
  | Elem _ kids =>
      (fix texts (ks : list node) : string :=
         match ks with
         | [] => EmptyString
         | k :: ks' => textOf k ++ texts ks'
         end) kids
  end.

(** *** Writing to an element *)

Fixpoint updateNth {A : Type} (i : nat) (f : A -> A) (l : list A) : list A :=
  match l, i with
  | [], _ => []
  | x :: l', O => f x :: l'
  | x :: l', S i' => x :: updateNth i' f l'
  end.

Fixpoint updateAt (path : list nat) (f : element -> element) (ns : list node)
  : list node :=
  match path with
  | [] => ns
  | i :: rest =>
      updateNth i
        (fun n =>
           match n with
           | Text _ => n
           | Elem e kids =>
               match rest with
               | [] => Elem (f e) kids
               | _ :: _ => Elem e (updateAt rest f kids)
               end
           end) ns
  end.

Definition update (d : document) (r : ref) (f : element -> element) : document :=
  updateAt (rev r) f d.

(** [control.value = v]: the control holds what the browser's setter
    makes of [v] for this control. *)
Definition setValue {engine : Engine} (v : string) (e : element) : element :=
  {| isHTML := isHTML e; tagName := tagName e; id := id e;
     classList := classList e; attributes := attributes e;
     value := sanitize (attributes e) v; checked := checked e;
     display := display e; visibility := visibility e; opacity := opacity e |}.

Definition setChecked (b : bool) (e : element) : element :=
  {| isHTML := isHTML e; tagName := tagName e; id := id e;
     classList := classList e; attributes := attributes e;
     value := value e; checked := b;
     display := display e; visibility := visibility e; opacity := opacity e |}.

(** [new Event(type, { bubbles })] delivered to [target]. *)
Record event : Type := { target : ref; type : string; bubbles : bool }.

(** The page: the document and the events dispatched so far, oldest
    first. The listeners belong to the host. *)
Record page : Type := { doc : document; dispatched : list event }.

End Dom.

(** ** Exceptions *)

Inductive exn : Type :=
| Error (message : string)
| TypeError (message : string).

Inductive result (A : Type) : Type :=
| Ok (a : A)
| Throw (e : exn).

Arguments Ok {A} a.
Arguments Throw {A} e.

Definition bind {A B : Type} (c : result A) (k : A -> result B) : result B :=
  match c with
  | Ok a => k a
  | Throw e => Throw e
  end.

Notation "x <- c ;; k" := (bind c (fun x => k))
  (at level 61, c at next level, right associativity).

Definition returns {A : Type} (c : result A) : Prop := exists a, c = Ok a.

(** A command runs on the page; what it has written before it throws
    stays written. *)
Definition command (A : Type) : Type := Dom.page -> result A * Dom.page.

Definition unit_ {A : Type} (a : A) : command A := fun w => (Ok a, w).

Definition raise {A : Type} (e : exn) : command A := fun w => (Throw e, w).

Definition andThen {A B : Type} (c : command A) (k : A -> command B) : command B :=
  fun w =>
    match c w with
    | (Ok a, w') => k a w'
    | (Throw e, w') => (Throw e, w')
    end.

Notation "x <~ c ;; k" := (andThen c (fun x => k))
  (at level 61, c at next level, right associativity).

(** A computation that only reads the document. *)
Definition reading {A : Type} (c : Dom.document -> result A) : command A :=
  fun w => (c (Dom.doc w), w).

(** ** Element handles in the code

    A property read or a method call on a handle that holds no element is
    a [TypeError]. *)

Section Handles.
Import Dom.
Variable d : document.

Definition receiver (h : handle) : result (ref * element * list node) :=
  match h with
  | None => Throw (TypeError "null has no properties")
  | Some r =>
      match lookup d r with
      | Some (Elem e kids) => Ok (r, e, kids)
      | _ => Throw (TypeError "not an element")
      end
  end.

Definition closest (h : handle) (sel : selector) : result handle :=
  x <- receiver h ;; Ok (closestFrom d sel (fst (fst x))).

Definition matches (h : handle) (sel : selector) : result bool :=
  x <- receiver h ;; Ok (matchesElement sel (snd (fst x))).

Definition querySelectorAll (h : handle) (sel : selector) : result (list ref) :=
  x <- receiver h ;; Ok (selectAll d sel (fst (fst x))).

Definition querySelector (h : handle) (sel : selector) : result handle :=
  x <- receiver h ;; Ok (hd_error (selectAll d sel (fst (fst x)))).

Definition textContent (h : handle) : result string :=
  x <- receiver h ;; Ok (textOf (Elem (snd (fst x)) (snd x))).

(** [window.getComputedStyle(h)] and the properties of the control read
    by the enumerator both come from the element's record. *)
Definition properties (h : handle) : result element :=
  x <- receiver h ;; Ok (snd (fst x)).

End Handles.

(** Assignment to a property of the element behind [r]. *)
Definition assign (r : Dom.ref) (f : Dom.element -> Dom.element) : command unit :=
  fun w =>
    match Dom.elementAt (Dom.doc w) r with
    | Some _ =>
        (Ok tt, {| Dom.doc := Dom.update (Dom.doc w) r f;
                   Dom.dispatched := Dom.dispatched w |})
    | None => (Throw (TypeError "not an element"), w)
    end.

(** [r.dispatchEvent(new Event(type, { bubbles }))] *)
Definition dispatchEvent (r : Dom.ref) (type : string) (bubbles : bool) : command unit :=
  fun w =>
    match Dom.elementAt (Dom.doc w) r with
    | Some _ =>
        (Ok tt, {| Dom.doc := Dom.doc w;
                   Dom.dispatched :=
                     Dom.dispatched w ++
                     [{| Dom.target := r; Dom.type := type; Dom.bubbles := bubbles |}] |})
    | None => (Throw (TypeError "not an element"), w)
    end.

(** ** [index.js] *)

Module SamplerParameter.

(** The typedef of the source. [name] is [None] while it is
    [undefined]. *)
Record t : Type := {
  id : string;
  name : option string;
  max : JsNumber.number;
  min : JsNumber.number;
  value : JsNumber.number;
  checked : bool;
  type : string;
  control : Dom.ref
}.

End SamplerParameter.

Section Source.
Import Dom.

(** [a || b] on handles: an element is truthy, [null] is not. *)
Definition orElse (a : handle) (b : result handle) : result handle :=
  match a with
  | Some _ => Ok a
  | None => b
  end.

(** [h instanceof HTMLElement && h.textContent.trim()] *)
Definition hasText (d : document) (h : handle) : result bool :=
  if isHTMLElement d h
  then t <- textContent d h ;; Ok (JsValue.nonEmpty (JsString.trim t))
  else Ok false.

Definition getTitleParent (d : document) (element : handle) : result handle :=
  a <- closest d element [[SClass "range-block"]] ;;
  b <- orElse a (closest d element [[STag "label"]]) ;;
  c <- orElse b (closest d element [[STag "h4"]]) ;;
  parent <- orElse c (closest d element [[STag "div"]]) ;;
  if negb (isHTMLElement d parent) then Ok None
  else
    rangeBlockTitle <- querySelector d parent [[SClass "range-block-title"]] ;;
    t1 <- hasText d rangeBlockTitle ;;
    if t1 then Ok rangeBlockTitle
    else
      smallTextNode <- querySelector d parent [[STag "small"]] ;;
      t2 <- hasText d smallTextNode ;;
      if t2 then Ok smallTextNode
      else
        checkboxLabel <- querySelector d parent [[SClass "checkbox_label"]] ;;
        t3 <- hasText d checkboxLabel ;;
        if t3 then Ok checkboxLabel
        else Ok parent.

Definition isHidden (style : element) : bool :=
  String.eqb (display style) "none"
  || String.eqb (visibility style) "hidden"
  || String.eqb (opacity style) "0".

(** The [while] loop of [hasVisibleAncestor]. Each turn moves to
    [element.parentElement], the tail of the reference; the empty
    reference stands for the [null] found above the outermost element. *)
Fixpoint hasVisibleAncestorFrom (d : document) (element : ref)
         (stopAtSelector : selector) : result bool :=
  match element with
  | [] => Ok true
  | _ :: parent =>
      if isHTMLElement d (Some element) then
        stop <- matches d (Some element) stopAtSelector ;;
        if stop then Ok true
        else
          style <- properties d (Some element) ;;
          if isHidden style then Ok false
          else hasVisibleAncestorFrom d parent stopAtSelector
      else Ok true
  end.

Definition hasVisibleAncestor (d : document) (element : handle)
           (stopAtSelector : selector) : result bool :=
  match element with
  | Some r => hasVisibleAncestorFrom d r stopAtSelector
  | None => Ok true
  end.

Definition sanitizeId (id : string) : string :=
  JsString.replace "oai_" EmptyString
    (JsString.replace "openai_" EmptyString
       (JsString.replace "_novel" EmptyString
          (JsString.replace "_openai" EmptyString
             (JsString.replace "_textgenerationwebui" EmptyString
                (JsString.replace "_counter" EmptyString id))))).

Definition isVisible (d : document) (e : ref) : result bool :=
  if isHTMLElement d (Some e)
  then hasVisibleAncestor d (Some e) [[SId "ai_response_configuration"]]
  else Ok false.

(** [Array.prototype.filter] with a callback that may throw. *)
Fixpoint filterArray {A : Type} (f : A -> result bool) (l : list A) : result (list A) :=
  match l with
  | [] => Ok []
  | x :: l' =>
      keep <- f x ;;
      rest <- filterArray f l' ;;
      Ok (if keep then x :: rest else rest)
  end.

(** [x || 0] on Numbers *)
Definition orZero (x : JsNumber.number) : JsNumber.number :=
  if JsNumber.truthy x then x else JsNumber.zero.

(** The default of the second parameter, [1e4]; no call passes another. *)
Definition precision : JsNumber.number := JsNumber.ofZ 10000.

Definition roundToPrecision (num : JsValue.value) : JsNumber.number :=
  let num := orZero (JsNumber.parseFloat (JsValue.toString num ++ EmptyString)) in
  JsNumber.div
    (JsNumber.round (JsNumber.mul (JsNumber.add num JsNumber.EPSILON) precision))
    precision.

Definition controlSelector : selector :=
  [ [STag "input"; STypeIs "range"];
    [STag "input"; STypeIs "checkbox"];
    [STag "input"; STypeIs "number"; SLacks "data-for"] ].

(** [getTitleParent(control)?.textContent?.trim()] *)
Definition titleOf (d : document) (control : ref) : result (option string) :=
  title <- getTitleParent d (Some control) ;;
  match title with
  | None => Ok None
  | Some _ => t <- textContent d title ;; Ok (Some (JsString.trim t))
  end.

(** [!name] for a name that may be [undefined] *)
Definition noName (name : option string) : bool :=
  match name with
  | Some s => negb (JsValue.nonEmpty s)
  | None => true
  end.

(** The [for] loop over [rangeSliders]; [samplerParameters] is the array
    being filled. *)
Fixpoint collect (d : document) (rangeSliders : list ref)
         (samplerParameters : list SamplerParameter.t)
  : result (list SamplerParameter.t) :=
  match rangeSliders with
  | [] => Ok samplerParameters
  | control :: rest =>
      if negb (isHTMLInputElement d (Some control))
      then collect d rest samplerParameters
      else
        excluded <- closest d (Some control) [[SId "openai_settings"]] ;;
        match excluded with
        | Some _ => collect d rest samplerParameters
        | None =>
            name <- titleOf d control ;;
            c <- properties d (Some control) ;;
            let sampler :=
              {| SamplerParameter.id := sanitizeId (id c);
                 SamplerParameter.name := name;
                 SamplerParameter.max :=
                   roundToPrecision
                     (JsValue.Number (JsNumber.parseFloat (reflected c "max")));
                 SamplerParameter.min :=
                   roundToPrecision
                     (JsValue.Number (JsNumber.parseFloat (reflected c "min")));
                 SamplerParameter.value :=
                   roundToPrecision
                     (JsValue.Number (JsNumber.parseFloat (value c)));
                 SamplerParameter.checked := checked c;
                 SamplerParameter.type := inputType c;
                 SamplerParameter.control := control |} in
            if negb (JsValue.nonEmpty (SamplerParameter.id sampler))
               || noName (SamplerParameter.name sampler)
            then collect d rest samplerParameters
            else collect d rest (samplerParameters ++ [sampler])
        end
  end.

Definition enumerateSamplerParameters (d : document)
  : result (list SamplerParameter.t) :=
  let leftPanel := getElementById d "left-nav-panel" in
  if negb (isHTMLElement d leftPanel) then Ok []
  else
    found <- querySelectorAll d leftPanel controlSelector ;;
    rangeSliders <- filterArray (isVisible d) found ;;
    collect d rangeSliders [].

Context {engine : Engine}.

(** The callback of [find] in both commands:
    [p.name.toLowerCase() === name || p.id.toLowerCase() === name]. *)
Definition named (name : string) (p : SamplerParameter.t) : result bool :=
  match SamplerParameter.name p with
  | None => Throw (TypeError "undefined has no properties")
  | Some n =>
      Ok (String.eqb (toLowerCase n) name
          || String.eqb (toLowerCase (SamplerParameter.id p)) name)
  end.

(** [Array.prototype.find] with a callback that may throw. *)
Fixpoint findArray {A : Type} (f : A -> result bool) (l : list A) : result (option A) :=
  match l with
  | [] => Ok None
  | x :: l' =>
      hit <- f x ;;
      if hit then Ok (Some x) else findArray f l'
  end.

Definition quote : string := String (ascii_of_nat 34) EmptyString.

Definition notFound (name : string) : exn :=
  Error ("Parameter " ++ quote ++ name ++ quote ++ " not found.").

(** The [sampler-get] callback. *)
Definition samplerGet (name : JsValue.value) (d : document) : result string :=
  if negb (JsValue.toBoolean name) then Throw (Error "Parameter name is required.")
  else
    match name with
    | JsValue.Str s =>
        let name := toLowerCase (JsString.trim s) in
        all <- enumerateSamplerParameters d ;;
        parameter <- findArray (named name) all ;;
        match parameter with
        | None => Throw (notFound name)
        | Some parameter =>
            if String.eqb (SamplerParameter.type parameter) "checkbox"
            then Ok (JsValue.toString (JsValue.Bool (SamplerParameter.checked parameter)))
            else Ok (JsValue.toString (JsValue.Number (SamplerParameter.value parameter)))
        end
    | _ => Throw (Error "Parameter name must be a string.")
    end.

(** [isTrueBoolean] is imported from the host's [utils.js]. *)
Variable isTrueBoolean : string -> bool.

(** The named arguments the parser hands to a callback; the source reads
    [name], which is [undefined] when it was not given. *)
Record namedArguments : Type := { argName : JsValue.value }.

(** The [sampler-set] callback. *)
Definition samplerSet (args : namedArguments) (value : JsValue.value)
  : command string :=
  let name := argName args in
  if negb (JsValue.toBoolean name) then raise (Error "Parameter name is required.")
  else
    match name with
    | JsValue.Str s =>
        let name := toLowerCase (JsString.trim s) in
        parameter <~ reading (fun d =>
                       all <- enumerateSamplerParameters d ;;
                       findArray (named name) all) ;;
        match parameter with
        | None => raise (notFound name)
        | Some parameter =>
            if negb (JsValue.toBoolean value) then raise (Error "Value is required.")
            else
              match value with
              | JsValue.Str v =>
                  _ <~ (if String.eqb (SamplerParameter.type parameter) "checkbox"
                        then
                          let isTrue := isTrueBoolean (JsValue.toString value) in
                          assign (SamplerParameter.control parameter) (setChecked isTrue)
                        else
                          let number := JsNumber.parseFloat (JsValue.toString value) in
                          if JsNumber.isNaN number || negb (JsNumber.isFinite number)
                          then raise (Error "Value must be convertible to a finite number.")
                          else
                            let clamped :=
                              JsNumber.min
                                (JsNumber.max number (SamplerParameter.min parameter))
                                (SamplerParameter.max parameter) in
                            assign (SamplerParameter.control parameter)
                              (setValue (JsValue.toString (JsValue.Number clamped)))) ;;
                  _ <~ dispatchEvent (SamplerParameter.control parameter) "input" true ;;
                  unit_ EmptyString
              | _ => raise (Error "Value must be a string.")
              end
        end
    | _ => raise (Error "Parameter name must be a string.")
    end.

End Source.

(** ** A sample panel *)

Module Sample.
Import Dom.

Definition el (tag i : string) (classes : list string)
           (attrs : list (string * string)) (kids : list node) : node :=
  Elem {| isHTML := true; tagName := tag; id := i; classList := classes;
          attributes := attrs; value := EmptyString; checked := false;
          display := "block"; visibility := "visible"; opacity := "1" |} kids.

Definition input (i : string) (attrs : list (string * string))
           (v : string) (c : bool) : node :=
  Elem {| isHTML := true; tagName := "input"; id := i; classList := [];
          attributes := attrs; value := v; checked := c;
          display := "inline-block"; visibility := "visible"; opacity := "1" |} [].

Definition temperature : node :=
  el "div" EmptyString ["range-block"] []
    [ el "div" EmptyString ["range-block-title"] [] [Text " Temperature "];
      input "temp_textgenerationwebui"
        [("type", "range"); ("min", "0"); ("max", "2"); ("step", "0.01")] "1" false;
      input "temp_counter_textgenerationwebui"
        [("type", "number"); ("data-for", "temp_textgenerationwebui")] "1" false ].

Definition streaming : node :=
  el "label" EmptyString ["checkbox_label"] []
    [ input "streaming_textgenerationwebui" [("type", "checkbox")] "on" true;
      el "small" EmptyString [] [] [Text "Stream"] ].

(** A control without [min] and [max]. *)
Definition seed : node :=
  el "div" EmptyString ["range-block"] []
    [ el "div" EmptyString ["range-block-title"] [] [Text "Seed"];
      input "seed_textgenerationwebui" [("type", "number")] "7" false ].

(** A later control whose label is the id of the first one. *)
Definition shortcut : node :=
  el "div" EmptyString ["range-block"] []
    [ el "div" EmptyString ["range-block-title"] [] [Text "Temp"];
      input "temp_last_textgenerationwebui" [("type", "number")] "42" false ].

(** A checkbox without an id and without a label. *)
Definition anonymous : node :=
  el "div" EmptyString [] [] [ input EmptyString [("type", "checkbox")] "on" false ].

(** The other provider's block, with the same markup. *)
Definition openai : node :=
  el "div" "openai_settings" [] []
    [ el "div" EmptyString ["range-block"] []
        [ el "div" EmptyString ["range-block-title"] [] [Text "Top P"];
          input "top_p_openai" [("type", "range"); ("min", "0"); ("max", "1")]
            "0.9" false ] ].

Definition panel : document :=
  [ el "html" EmptyString [] []
      [ el "head" EmptyString [] [] [];
        el "body" EmptyString [] []
          [ el "div" "left-nav-panel" [] []
              [ el "div" "ai_response_configuration" [] []
                  [ temperature; streaming; seed; shortcut; anonymous; openai ] ] ] ] ].

Definition page0 : page := {| doc := panel; dispatched := [] |}.

(** The references of the controls, innermost index first. *)
Definition temperatureControl : ref := [1; 0; 0; 0; 1; 0].
Definition anonymousControl : ref := [0; 4; 0; 0; 1; 0].
Definition openaiControl : ref := [1; 0; 5; 0; 0; 1; 0].

(** What the enumerator returns on [panel]. *)
Definition enumeration : list SamplerParameter.t :=
  Eval vm_compute in
    match enumerateSamplerParameters panel with
    | Ok l => l
    | Throw _ => []
    end.

Definition temperatureParameter : SamplerParameter.t :=
  Eval vm_compute in
    nth 0 enumeration
      {| SamplerParameter.id := EmptyString; SamplerParameter.name := None;
         SamplerParameter.max := JsNumber.zero; SamplerParameter.min := JsNumber.zero;
         SamplerParameter.value := JsNumber.zero; SamplerParameter.checked := false;
         SamplerParameter.type := EmptyString; SamplerParameter.control := [] |}.

Definition seedParameter : SamplerParameter.t :=
  Eval vm_compute in nth 2 enumeration temperatureParameter.

(** The sample panel with the temperature block folded away inside two
    wrappers, the outer one not displayed. *)
Definition folded : document :=
  [ el "html" EmptyString [] []
      [ el "head" EmptyString [] [] [];
        el "body" EmptyString [] []
          [ el "div" "left-nav-panel" [] []
              [ el "div" "ai_response_configuration" [] []
                  [ Elem {| isHTML := true; tagName := "div"; id := EmptyString;
                            classList := ["drawer"]; attributes := [];
                            value := EmptyString; checked := false;
                            display := "none"; visibility := "visible";
                            opacity := "1" |}
                      [ el "div" EmptyString ["inline-drawer-content"] []
                          [ temperature ] ];
                    seed ] ] ] ] ].

(** The sample panel with the whole configuration block not displayed:
    the block is where the walk upwards stops. *)
Definition closed : document :=
  [ el "html" EmptyString [] []
      [ el "head" EmptyString [] [] [];
        el "body" EmptyString [] []
          [ el "div" "left-nav-panel" [] []
              [ Elem {| isHTML := true; tagName := "div";
                        id := "ai_response_configuration";
                        classList := []; attributes := [];
                        value := EmptyString; checked := false;
                        display := "none"; visibility := "visible";
                        opacity := "1" |}
                  [ temperature; seed ] ] ] ] ].

(** A document without the panel. *)
Definition bare : document :=
  [ el "html" EmptyString [] [] [ el "body" EmptyString [] [] [] ] ].

(** Lower case for the letters of Basic Latin and of Latin-1 Supplement
    (U+00C0 to U+00DE but U+00D7, whose second character follows the lead
    character 195); [lead] tells that the character before was that
    lead. *)
Fixpoint lowerLatin (lead : bool) (s : string) : string :=
  match s with
  | EmptyString => EmptyString
  | String c r =>
      let n := nat_of_ascii c in
      if lead then
        String (if Nat.leb 128 n && Nat.leb n 158 && negb (Nat.eqb n 151)
                then ascii_of_nat (n + 32) else c)
          (lowerLatin false r)
      else String (JsString.lowerChar c) (lowerLatin (Nat.eqb n 195) r)
  end.

(** The browser of the examples: lower case as far as Latin-1 goes, and
    a setter that is handed nothing it has to change. *)
#[global] Instance engine : Engine | 100 :=
  {| toLowerCase := lowerLatin false;
     toLowerCase_nonEmpty :=
       fun s => match s with EmptyString => eq_refl | String _ _ => eq_refl end;
     sanitize := fun _ v => v |}.

(** A range control that keeps its value between its own bounds, whatever
    it is handed: the one thing the examples need of a setter that does
    change what it is given. *)
Definition bounded (lo hi : string) : Engine :=
  {| toLowerCase := lowerLatin false;
     toLowerCase_nonEmpty :=
       fun s => match s with EmptyString => eq_refl | String _ _ => eq_refl end;
     sanitize := fun attrs v =>
       JsNumber.toString
         (JsNumber.min (JsNumber.max (JsNumber.parseFloat v) (JsNumber.parseFloat lo))
            (JsNumber.parseFloat hi)) |}.

(** A slider with a lower bound of 1 and no upper bound of its own: the
    enumerator reads its [max] as 0, a range control takes 100. *)
Definition lowerBound : document :=
  [ el "html" EmptyString [] []
      [ el "body" EmptyString [] []
          [ el "div" "left-nav-panel" [] []
              [ el "div" EmptyString ["range-block"] []
                  [ el "div" EmptyString ["range-block-title"] [] [Text "Min P"];
                    input "min_p" [("type", "range"); ("min", "1")] "1" false ] ] ] ] ].

(** A panel in another language: a title padded with no-break spaces, a
    title with a capital outside ASCII, and a title that is a no-break
    space and nothing else. *)
Definition nbsp : string := JsString.fromCodePoint 160.

Definition localised : document :=
  [ el "html" EmptyString [] []
      [ el "body" EmptyString [] []
          [ el "div" "left-nav-panel" [] []
              [ el "div" EmptyString ["range-block"] []
                  [ el "div" EmptyString ["range-block-title"] []
                      [Text (nbsp ++ "Top K" ++ nbsp)];
                    input "top_k" [("type", "number")] "40" false ];
                el "div" EmptyString ["range-block"] []
                  [ el "div" EmptyString ["range-block-title"] []
                      [Text (JsString.fromCodePoint 201 ++ "chantillonnage")];
                    input "sampling" [("type", "checkbox")] "on" true ];
                el "div" EmptyString ["range-block"] []
                  [ el "div" EmptyString ["range-block-title"] [] [Text nbsp];
                    el "small" EmptyString [] [] [Text "Seed"];
                    input "seed" [("type", "number")] "7" false ];
                el "div" EmptyString [] []
                  [ Text nbsp; input "blank" [("type", "number")] "1" false ] ] ] ] ].

Definition localisedEnumeration : list SamplerParameter.t :=
  Eval vm_compute in
    match enumerateSamplerParameters localised with
    | Ok l => l
    | Throw _ => []
    end.

(** The controls of [localised]: the one under the title padded with
    no-break spaces, the one under the blank title, and the one whose only
    label is a no-break space. *)
Definition topKControl : ref := [1; 0; 0; 0; 0].
Definition seedControl : ref := [2; 2; 0; 0; 0].
Definition blankControl : ref := [1; 3; 0; 0; 0].

End Sample.

(** ** Vocabulary of the properties *)

Section Vocabulary.
Import Dom JsString.
Context {engine : Engine}.

(** What one [replace(pat, '')] does to [s], in words: nothing when
    [pat] does not occur in [s]; otherwise the leftmost occurrence of
    [pat] is cut out, whatever stands before and after it. *)
Definition strips (pat s s' : string) : Prop :=
  (~ occurs pat s /\ s' = s)
  \/ (exists a b,
         occurs_at pat a b s
         /\ (forall a' b', occurs_at pat a' b' s -> String.length a <= String.length a')
         /\ s' = a ++ b).

(** Induction on a node with the property available for its children. *)
Fixpoint node_induction (P : node -> Prop)
         (HText : forall s, P (Text s))
         (HElem : forall e kids, Forall P kids -> P (Elem e kids))
         (n : node) : P n :=
  match n with
  | Text s => HText s
  | Elem e kids =>
      HElem e kids
        ((fix all (ks : list node) : Forall P ks :=
            match ks with
            | [] => Forall_nil P
            | k :: ks' => Forall_cons k (node_induction P HText HElem k) (all ks')
            end) kids)
  end.

(** The node reached from [n] along [path], outermost index first. *)
Fixpoint descend (n : node) (path : list nat) : option node :=
  match path with
  | [] => Some n
  | i :: rest =>
      match n with
      | Elem _ kids =>
          match nth_error kids i with
          | Some k => descend k rest
          | None => None
          end
      | Text _ => None
      end
  end.

(** Every pair listed by the traversal is an element with the reference
    that leads to it. *)
Definition listedRight (n : node) : Prop :=
  forall r x e,
    In (x, e) (elementsOf r n) ->
    exists q kids, x = (q ++ r)%list /\ descend n (rev q) = Some (Elem e kids).

(** The parameter the loop builds from the control at [r], whose
    element is [c] and whose resolved name is [s]. *)
Definition samplerOf (r : ref) (c : element) (s : string) : SamplerParameter.t :=
  {| SamplerParameter.id := sanitizeId (id c);
     SamplerParameter.name := Some s;
     SamplerParameter.max :=
       roundToPrecision (JsValue.Number (JsNumber.parseFloat (reflected c "max")));
     SamplerParameter.min :=
       roundToPrecision (JsValue.Number (JsNumber.parseFloat (reflected c "min")));
     SamplerParameter.value :=
       roundToPrecision (JsValue.Number (JsNumber.parseFloat (value c)));
     SamplerParameter.checked := checked c;
     SamplerParameter.type := inputType c;
     SamplerParameter.control := r |}.

(** What holds of every parameter the enumerator lets through. *)
Definition enumerated (d : document) (p : SamplerParameter.t) : Prop :=
  exists c s,
    elementAt d (SamplerParameter.control p) = Some c
    /\ isHTML c = true
    /\ tagName c = "input"
    /\ matchesElement controlSelector c = true
    /\ isVisible d (SamplerParameter.control p) = Ok true
    /\ closestFrom d [[SId "openai_settings"]] (SamplerParameter.control p) = None
    /\ titleOf d (SamplerParameter.control p) = Ok (Some s)
    /\ JsValue.nonEmpty (sanitizeId (id c)) = true
    /\ JsValue.nonEmpty s = true
    /\ p = samplerOf (SamplerParameter.control p) c s.

(** What the filtered selection guarantees of a control handed to the
    loop. *)
Definition selected (d : document) (r : ref) : Prop :=
  (exists c, elementAt d r = Some c /\ matchesElement controlSelector c = true)
  /\ isVisible d r = Ok true.

(** The argument as the commands compare it: trimmed, in lower case. *)
Definition keyOf (s : string) : string := toLowerCase (JsString.trim s).

(** [p]'s name or id is [key] up to case. *)
Definition matchesKey (key : string) (p : SamplerParameter.t) : Prop :=
  (exists n, SamplerParameter.name p = Some n /\ toLowerCase n = key)
  \/ toLowerCase (SamplerParameter.id p) = key.

(** [p] is the first parameter of [l], in the order of [l], that
    matches [key]. *)
Definition firstMatch (key : string) (l : list SamplerParameter.t)
           (p : SamplerParameter.t) : Prop :=
  exists before after,
    l = (before ++ p :: after)%list
    /\ matchesKey key p
    /\ forall q, In q before -> ~ matchesKey key q.

(** The same search as a function, to run on a given list. *)
Definition matchesKeyb (key : string) (p : SamplerParameter.t) : bool :=
  match SamplerParameter.name p with
  | Some n => String.eqb (toLowerCase n) key
  | None => false
  end
  || String.eqb (toLowerCase (SamplerParameter.id p)) key.

Fixpoint findMatch (key : string) (l : list SamplerParameter.t)
  : option SamplerParameter.t :=
  match l with
  | [] => None
  | q :: l' => if matchesKeyb key q then Some q else findMatch key l'
  end.

Definition noMatch (key : string) (l : list SamplerParameter.t) : Prop :=
  forall q, In q l -> ~ matchesKey key q.

(** The two kinds, as the source tells them apart ([enumProvider] and
    the [type === 'checkbox'] test of the callbacks). *)
Definition isBoolean (p : SamplerParameter.t) : Prop :=
  SamplerParameter.type p = "checkbox".

Definition isNumeric (p : SamplerParameter.t) : Prop :=
  SamplerParameter.type p = "number" \/ SamplerParameter.type p = "range".

(** [v] counts as missing: the guards [!name] and [!value] fire on
    [undefined], [null] and the other falsy values, the empty string
    among them. *)
Definition missing (v : JsValue.value) : Prop := JsValue.toBoolean v = false.

Definition inputEvent (r : ref) : event :=
  {| target := r; type := "input"; bubbles := true |}.

Definition finiteNumberError : exn :=
  Error "Value must be convertible to a finite number.".

(** What [sampler-set] does once [p] has been found. *)
Definition written (w : page) (p : SamplerParameter.t)
           (f : element -> element) : page :=
  {| doc := update (doc w) (SamplerParameter.control p) f;
     dispatched := (dispatched w ++ [inputEvent (SamplerParameter.control p)])%list |}.

Definition clamp (p : SamplerParameter.t) (n : JsNumber.number) : JsNumber.number :=
  JsNumber.min (JsNumber.max n (SamplerParameter.min p)) (SamplerParameter.max p).

Definition outcome (isTrueBoolean : string -> bool) (w : page)
           (p : SamplerParameter.t) (value : JsValue.value)
  : result string * page :=
  if negb (JsValue.toBoolean value) then (Throw (Error "Value is required."), w)
  else
    match value with
    | JsValue.Str v =>
        if String.eqb (SamplerParameter.type p) "checkbox"
        then (Ok EmptyString, written w p (setChecked (isTrueBoolean v)))
        else
          if JsNumber.isFinite (JsNumber.parseFloat v)
          then (Ok EmptyString,
                written w p
                  (setValue (JsNumber.toString (clamp p (JsNumber.parseFloat v)))))
          else (Throw finiteNumberError, w)
    | _ => (Throw (Error "Value must be a string."), w)
    end.




(** [r] lies in the subtree of an element whose id is [i]. *)
Definition inside (d : document) (i : string) (r : ref) : Prop :=
  exists below a e,
    r = (below ++ a)%list /\ elementAt d a = Some e /\ id e = i.

(** The element of a node, if it is one. *)
Definition elementOf (o : option node) : option element :=
  match o with
  | Some (Elem e _) => Some e
  | _ => None
  end.

(** On the way up from [r], before an element that matches [stop] or that
    is not an HTML element is met, there is a hidden element: [a], reached
    after the steps [below]. Every element from [r] up to [a], both
    included, is an HTML element that does not match [stop]. *)
Definition hiddenWithin (d : document) (stop : selector) (r : ref) : Prop :=
  exists below a e,
    r = (below ++ a)%list
    /\ elementAt d a = Some e
    /\ isHidden e = true
    /\ forall pre post,
         below = (pre ++ post)%list ->
         isHTMLElement d (Some (post ++ a)%list) = true
         /\ matchesAt d stop (post ++ a)%list = false.

(** [f] writes only the live state of a control: every other field of the
    element is kept. *)
Definition writesState (f : element -> element) : Prop :=
  forall e,
    isHTML (f e) = isHTML e
    /\ tagName (f e) = tagName e
    /\ id (f e) = id e
    /\ classList (f e) = classList e
    /\ attributes (f e) = attributes e
    /\ display (f e) = display e
    /\ visibility (f e) = visibility e
    /\ opacity (f e) = opacity e.

(** The controls the enumerator is after: [x] lies under the panel, is an
    HTML element selected by [controlSelector], is not hidden on the way up
    to [#ai_response_configuration], is not inside [#openai_settings], and
    has a non-empty sanitized id and a non-empty resolved name [s]. *)
Definition eligible (d : document) (x : ref) (c : element) (s : string) : Prop :=
  (exists panel below,
      getElementById d "left-nav-panel" = Some panel
      /\ isHTMLElement d (Some panel) = true
      /\ x = (below ++ panel)%list
      /\ below <> [])
  /\ elementAt d x = Some c
  /\ isHTML c = true
  /\ matchesElement controlSelector c = true
  /\ ~ hiddenWithin d [[SId "ai_response_configuration"]] x
  /\ ~ inside d "openai_settings" x
  /\ titleOf d x = Ok (Some s)
  /\ JsValue.nonEmpty (sanitizeId (id c)) = true
  /\ JsValue.nonEmpty s = true.

(** The loop pushes a parameter for the control at [x], whose element is
    [c] and whose resolved name is [s]. *)
Definition pushes (d : document) (x : ref) (c : element) (s : string) : Prop :=
  elementAt d x = Some c
  /\ isHTML c = true
  /\ tagName c = "input"
  /\ closestFrom d [[SId "openai_settings"]] x = None
  /\ titleOf d x = Ok (Some s)
  /\ JsValue.nonEmpty (sanitizeId (id c)) = true
  /\ JsValue.nonEmpty s = true.

(** Document order on element references: [x] comes before [y] when [x]
    is an ancestor of [y], or when the two paths part below a common
    ancestor [r] and [x] goes through the earlier child. *)
Definition precedes (x y : ref) : Prop :=
  (exists below, below <> [] /\ y = (below ++ x)%list)
  \/ (exists r i j q q',
         i < j /\ x = (q ++ i :: r)%list /\ y = (q' ++ j :: r)%list).

(** Every element of the list stands before all the later ones. *)
Fixpoint ascending (l : list ref) : Prop :=
  match l with
  | [] => True
  | x :: l' => (forall y, In y l' -> precedes x y) /\ ascending l'
  end.

(** Two elements that differ at most in the live state of the control,
    [value] and [checked]. *)
Definition alike (e e' : element) : Prop :=
  isHTML e' = isHTML e
  /\ tagName e' = tagName e
  /\ id e' = id e
  /\ classList e' = classList e
  /\ attributes e' = attributes e
  /\ display e' = display e
  /\ visibility e' = visibility e
  /\ opacity e' = opacity e.

(** Two trees of the same shape and text whose elements are alike. *)
Inductive similar : node -> node -> Prop :=
| similar_text (s : string) : similar (Text s) (Text s)
| similar_elem (e e' : element) (kids kids' : list node) :
    alike e e' -> Forall2 similar kids kids' -> similar (Elem e kids) (Elem e' kids').

(** The same page up to the state of its controls. *)
Definition samePage (d d' : document) : Prop := Forall2 similar d d'.

Definition bothOrNeither {A : Type} (R : A -> A -> Prop) (o o' : option A) : Prop :=
  match o, o' with
  | Some a, Some a' => R a a'
  | None, None => True
  | _, _ => False
  end.

(** The same parameter read from two pages that differ in the state of
    their controls: same control, id, name, bounds and type. *)
Definition sameParameter (d d' : document) (p p' : SamplerParameter.t) : Prop :=
  exists x c c' s,
    pushes d x c s /\ pushes d' x c' s /\ alike c c'
    /\ p = samplerOf x c s /\ p' = samplerOf x c' s.

(** The traversal lists no reference twice, and lists them in document
    order. *)
Definition listedOnce (n : node) : Prop :=
  forall r, NoDup (map fst (elementsOf r n)).

Definition listedInOrder (n : node) : Prop :=
  forall r, ascending (map fst (elementsOf r n)).

(** Two listings of the same references with alike elements. *)
Definition sameListing (l l' : list (ref * element)) : Prop :=
  Forall2 (fun a b => fst b = fst a /\ alike (snd a) (snd b)) l l'.

(** What two enumerations have in common when the pages differ in the
    state of their controls only. *)
Definition sameButState (p p' : SamplerParameter.t) : Prop :=
  SamplerParameter.control p' = SamplerParameter.control p
  /\ SamplerParameter.id p' = SamplerParameter.id p
  /\ SamplerParameter.name p' = SamplerParameter.name p
  /\ SamplerParameter.min p' = SamplerParameter.min p
  /\ SamplerParameter.max p' = SamplerParameter.max p
  /\ SamplerParameter.type p' = SamplerParameter.type p.

(** What [sampler-get] returns for the parameter [q]. *)
Definition shown (q : SamplerParameter.t) : string :=
  if String.eqb (SamplerParameter.type q) "checkbox"
  then JsValue.boolToString (SamplerParameter.checked q)
  else JsNumber.toString (SamplerParameter.value q).

(** The selectors [getTitleParent] tries for the container of a control,
    in the order of the [||] chain, and those it tries for the title
    inside the container. *)
Definition containerSelectors : list selector :=
  [ [[SClass "range-block"]]; [[STag "label"]]; [[STag "h4"]]; [[STag "div"]] ].

Definition titleSelectors : list selector :=
  [ [[SClass "range-block-title"]]; [[STag "small"]]; [[SClass "checkbox_label"]] ].

(** [a] is the container of [r]: for the first of [containerSelectors]
    that [r] or an ancestor of [r] matches, [a] is the nearest such
    element. *)
Definition containerAt (d : document) (r a : ref) : Prop :=
  exists pre sel post,
    containerSelectors = (pre ++ sel :: post)%list
    /\ closestFrom d sel r = Some a
    /\ forall sel', In sel' pre -> closestFrom d sel' r = None.

(** The tokens [sanitizeId] removes, in the order of the source. *)
Definition tokens : list string :=
  [ "_counter"; "_textgenerationwebui"; "_openai"; "_novel"; "openai_"; "oai_" ].

End Vocabulary.

(** ** Strings: [replace] *)

Section StringFacts.
Import JsString.


Lemma prefix_split (p s : string) :
  prefix p s = true <-> exists b, s = p ++ b.
Proof.
  revert s; induction p as [|c p IH]; intros s.
  - split; [intros _; now exists s | intros _; now destruct s].
  - destruct s as [|c' s]; simpl.
    + split; [discriminate | intros [b Hb]; discriminate].
    + destruct (ascii_dec c c') as [->|Hne].
      * rewrite IH. split; intros [b Hb]; exists b; congruence.
      * split; [discriminate | intros [b Hb]; congruence].
Qed.

Lemma drop_append (p b : string) : drop (String.length p) (p ++ b) = b.
Proof.
  induction p as [|c p IH]; simpl; [now destruct b | exact IH].
Qed.

Lemma replace_strips (pat s : string) : strips pat s (replace pat EmptyString s).
Proof.
  induction s as [|c s IH].
  - destruct pat as [|p0 pat]; simpl.
    + right. exists EmptyString, EmptyString. repeat split.
      intros a' b' _. apply Nat.le_0_l.
    + left. split; [|reflexivity].
      intros (a & b & H). unfold occurs_at in H.
      destruct a; simpl in H; discriminate.
  - change (replace pat EmptyString (String c s))
      with (if prefix pat (String c s)
            then EmptyString ++ drop (String.length pat) (String c s)
            else String c (replace pat EmptyString s)).
    destruct (prefix pat (String c s)) eqn:Hp.
    + right. apply prefix_split in Hp. destruct Hp as [b Hb].
      exists EmptyString, b. unfold occurs_at. simpl.
      repeat split.
      * exact Hb.
      * intros a' b' _. apply Nat.le_0_l.
      * rewrite Hb at 1. apply drop_append.
    + assert (Hhead : forall a b, occurs_at pat a b (String c s) ->
                 exists a', a = String c a' /\ occurs_at pat a' b s).
      { intros a b H. unfold occurs_at in *. destruct a as [|c' a]; simpl in H.
        - assert (prefix pat (String c s) = true) by (apply prefix_split; now exists b).
          congruence.
        - injection H as -> ->. now exists a. }
      destruct IH as [[Hno ->] | (a & b & Hocc & Hfirst & ->)].
      * left. split; [|reflexivity].
        intros (a & b & H). destruct (Hhead _ _ H) as (a' & _ & H').
        apply Hno. now exists a', b.
      * right. exists (String c a), b. repeat split.
        -- unfold occurs_at in *. simpl. now rewrite Hocc.
        -- intros a' b' H. destruct (Hhead _ _ H) as (a'' & -> & H').
           simpl. apply le_n_S. eapply Hfirst; eassumption.
Qed.

Lemma trim_nonEmpty (s : string) :
  JsValue.nonEmpty (trim s) = true -> JsValue.nonEmpty s = true.
Proof. now destruct s. Qed.

(** *** White space *)

Lemma append_assoc (a b c : string) : (a ++ b) ++ c = a ++ (b ++ c).
Proof. induction a as [|x a IH]; simpl; [reflexivity | now rewrite IH]. Qed.

Lemma trimEnd_idempotent (u : string) : trimEnd (trimEnd u) = trimEnd u.
Proof.
  induction u as [|c u IH]; [reflexivity|]. cbn [trimEnd].
  destruct (isWhiteSpace (String c (trimEnd u))) eqn:Hc; [reflexivity|].
  cbn [trimEnd]. now rewrite IH, Hc.
Qed.

(** [trimEnd] cuts a tail off. *)
Lemma trimEnd_prefix (u : string) : exists tail, u = trimEnd u ++ tail.
Proof.
  induction u as [|c u [tail IH]]; [now exists EmptyString|]. cbn [trimEnd].
  destruct (isWhiteSpace (String c (trimEnd u))).
  - now exists (String c u).
  - exists tail. simpl. now rewrite <- IH.
Qed.

Lemma leadingWhiteSpace_none (s : string) :
  leadingWhiteSpace s = None <->
  forall space, In space whiteSpace -> prefix space s = false.
Proof.
  unfold leadingWhiteSpace. split.
  - intros H space Hin. exact (find_none _ _ H space Hin).
  - intros H. destruct (find (fun space => prefix space s) whiteSpace) as [x|] eqn:Hf;
      [|reflexivity].
    apply find_some in Hf. destruct Hf as [Hin Hx]. now rewrite (H x Hin) in Hx.
Qed.

(** A string that starts with no white space is left alone, and so is
    every string it starts with. *)
Lemma leadingWhiteSpace_prefix (v tail : string) :
  leadingWhiteSpace (v ++ tail) = None -> leadingWhiteSpace v = None.
Proof.
  rewrite !leadingWhiteSpace_none. intros H space Hin.
  destruct (prefix space v) eqn:Hp; [|reflexivity].
  apply prefix_split in Hp. destruct Hp as [b ->].
  rewrite <- (H space Hin). symmetry. apply prefix_split.
  exists (b ++ tail). apply append_assoc.
Qed.

Lemma skipWhiteSpace_leading (s : string) (pending : nat) :
  leadingWhiteSpace (skipWhiteSpace pending s) = None.
Proof.
  revert pending. induction s as [|c s IH]; intros pending; [reflexivity|].
  cbn [skipWhiteSpace]. destruct pending as [|k]; [|apply IH].
  destruct (leadingWhiteSpace (String c s)) eqn:Hs; [apply IH | exact Hs].
Qed.

Lemma trimStart_fixed (s : string) :
  leadingWhiteSpace s = None -> trimStart s = s.
Proof.
  unfold trimStart. destruct s as [|c s]; [reflexivity|].
  cbn [skipWhiteSpace]. now intros ->.
Qed.

Lemma trim_idempotent (t : string) : trim (trim t) = trim t.
Proof.
  unfold trim. set (u := trimStart t).
  assert (Hu : leadingWhiteSpace u = None) by apply skipWhiteSpace_leading.
  destruct (trimEnd_prefix u) as [tail Htail]. rewrite Htail in Hu.
  rewrite (trimStart_fixed _ (leadingWhiteSpace_prefix _ _ Hu)).
  apply trimEnd_idempotent.
Qed.

End StringFacts.

(** ** The page: references and traversal *)

Section DomFacts.
Import Dom.

Lemma nodeAt_descend (rest : list nat) (i : nat) (ns : list node) :
  nodeAt (i :: rest) ns =
  match nth_error ns i with Some n => descend n rest | None => None end.
Proof.
  revert i ns. induction rest as [|j rest IH]; intros i ns.
  - simpl. now destruct (nth_error ns i).
  - change (nodeAt (i :: j :: rest) ns)
      with (match nth_error ns i with
            | None => None
            | Some (Elem _ kids) => nodeAt (j :: rest) kids
            | Some (Text _) => None
            end).
    destruct (nth_error ns i) as [[s|e kids]|]; try reflexivity.
    rewrite IH. reflexivity.
Qed.

Lemma nodeAt_below (p : list nat) :
  forall ns e0 kids j t,
    nodeAt p ns = Some (Elem e0 kids) ->
    nodeAt (p ++ j :: t) ns =
    match nth_error kids j with Some k => descend k t | None => None end.
Proof.
  induction p as [|i p IH]; intros ns e0 kids j t H.
  - discriminate.
  - destruct p as [|i' p].
    + simpl in H. simpl app.
      change (nodeAt (i :: j :: t) ns)
        with (match nth_error ns i with
              | None => None
              | Some (Elem _ ks) => nodeAt (j :: t) ks
              | Some (Text _) => None
              end).
      destruct (nth_error ns i) as [n|]; [|discriminate].
      injection H as ->. apply nodeAt_descend.
    + change (nodeAt (i :: i' :: p) ns)
        with (match nth_error ns i with
              | None => None
              | Some (Elem _ ks) => nodeAt (i' :: p) ks
              | Some (Text _) => None
              end) in H.
      change (nodeAt ((i :: i' :: p) ++ j :: t) ns)
        with (match nth_error ns i with
              | None => None
              | Some (Elem _ ks) => nodeAt ((i' :: p) ++ j :: t) ks
              | Some (Text _) => None
              end).
      destruct (nth_error ns i) as [[s|e ks]|]; try discriminate.
      now apply IH with (e0 := e0).
Qed.

Lemma elementsOf_forest (r : ref) (e : element) (kids : list node) :
  elementsOf r (Elem e kids) = (r, e) :: forest r 0 kids.
Proof.
  simpl. f_equal. generalize 0. induction kids as [|k kids IH]; intros i.
  - reflexivity.
  - simpl. now rewrite IH.
Qed.

Lemma forest_listed (r : ref) (kids : list node) :
  Forall listedRight kids ->
  forall i x e,
    In (x, e) (forest r i kids) ->
    exists j k q ks,
      nth_error kids j = Some k
      /\ x = (q ++ (i + j) :: r)%list
      /\ descend k (rev q) = Some (Elem e ks).
Proof.
  induction 1 as [|k kids Hk _ IH]; intros i x e Hin.
  - contradiction.
  - simpl in Hin. apply in_app_or in Hin. destruct Hin as [Hin|Hin].
    + destruct (Hk _ _ _ Hin) as (q & ks & -> & Hq).
      exists 0, k, q, ks. rewrite Nat.add_0_r. now repeat split.
    + destruct (IH _ _ _ Hin) as (j & k' & q & ks & Hj & -> & Hq).
      exists (S j), k', q, ks. rewrite Nat.add_succ_r. now repeat split.
Qed.

Lemma elementsOf_listed (n : node) : listedRight n.
Proof.
  induction n as [s|e0 kids IH] using node_induction; intros r x e Hin.
  - contradiction.
  - rewrite elementsOf_forest in Hin. destruct Hin as [Heq|Hin].
    + injection Heq as <- <-. now exists [], kids.
    + destruct (forest_listed r kids IH 0 x e Hin)
        as (j & k & q & ks & Hj & -> & Hq).
      exists (q ++ [j])%list, ks. split.
      * now rewrite <- app_assoc.
      * rewrite rev_app_distr. simpl. now rewrite Hj.
Qed.

Lemma forest_all_listed (kids : list node) : Forall listedRight kids.
Proof. apply Forall_forall. intros k _. apply elementsOf_listed. Qed.

Lemma descendants_sound (d : document) (r x : ref) (e : element) :
  In (x, e) (descendants d r) -> elementAt d x = Some e.
Proof.
  unfold descendants, elementAt, lookup.
  destruct (nodeAt (rev r) d) as [[s|e0 kids]|] eqn:Hr; try contradiction.
  intros Hin.
  destruct (forest_listed r kids (forest_all_listed kids) 0 x e Hin)
    as (j & k & q & ks & Hj & -> & Hq).
  rewrite rev_app_distr. simpl rev. rewrite <- app_assoc. simpl app.
  rewrite (nodeAt_below _ _ _ _ _ _ Hr), Hj, Hq. reflexivity.
Qed.

Lemma getElementById_sound (d : document) (i : string) (x : ref) :
  getElementById d i = Some x ->
  exists e, elementAt d x = Some e /\ id e = i.
Proof.
  unfold getElementById.
  destruct (filter _ _) as [|[x' e] l] eqn:Hf; [discriminate|].
  intros H. injection H as <-.
  assert (Hin : In (x', e) (filter (fun re => String.eqb (id (snd re)) i)
                              (forest [] 0 d))) by (rewrite Hf; now left).
  apply filter_In in Hin. destruct Hin as [Hin Hid]. simpl in *.
  apply String.eqb_eq in Hid. exists e. split; [|exact Hid].
  destruct (forest_listed [] d (forest_all_listed d) 0 x' e Hin)
    as (j & k & q & ks & Hj & -> & Hq).
  unfold elementAt, lookup. rewrite rev_app_distr.
  cbn [rev app Nat.add]. rewrite nodeAt_descend, Hj, Hq. reflexivity.
Qed.

Lemma selectAll_sound (d : document) (sel : selector) (r x : ref) :
  In x (selectAll d sel r) ->
  exists e, elementAt d x = Some e /\ matchesElement sel e = true.
Proof.
  unfold selectAll. intros Hin. apply in_map_iff in Hin.
  destruct Hin as ([x' e] & <- & Hin). apply filter_In in Hin.
  destruct Hin as [Hin Hm]. exists e. split; [|exact Hm].
  eapply descendants_sound; eassumption.
Qed.

(** *** Writing *)

Lemma nth_error_updateNth {A : Type} (g : A -> A) (l : list A) (i : nat) :
  nth_error (updateNth i g l) i = option_map g (nth_error l i).
Proof.
  revert i; induction l as [|a l IH]; intros [|i]; simpl; auto.
Qed.

Lemma nodeAt_updateAt (f : element -> element) (path : list nat) :
  forall ns e kids,
    nodeAt path ns = Some (Elem e kids) ->
    nodeAt path (updateAt path f ns) = Some (Elem (f e) kids).
Proof.
  induction path as [|i rest IH]; intros ns e kids H.
  - discriminate.
  - simpl in H |- *. rewrite nth_error_updateNth.
    destruct (nth_error ns i) as [n|]; [|discriminate]. simpl.
    destruct rest as [|j rest].
    + injection H as ->. reflexivity.
    + destruct n as [s|e0 ks]; [discriminate|].
      now apply IH.
Qed.

Lemma elementAt_update (d : document) (r : ref) (f : element -> element)
      (e : element) :
  elementAt d r = Some e -> elementAt (update d r f) r = Some (f e).
Proof.
  unfold elementAt, update, lookup.
  destruct (nodeAt (rev r) d) as [[s|e0 kids]|] eqn:H; try discriminate.
  intros Heq. injection Heq as ->.
  now rewrite (nodeAt_updateAt f _ _ _ _ H).
Qed.

(** *** Ancestors *)

Lemma closestFrom_none (d : document) (sel : selector) (pre a : ref) :
  closestFrom d sel (pre ++ a)%list = None -> matchesAt d sel a = false.
Proof.
  induction pre as [|i pre IH]; cbn [closestFrom app].
  - destruct a as [|j a]; cbn [closestFrom];
      destruct (matchesAt d sel _); congruence.
  - destruct (matchesAt d sel (i :: pre ++ a)%list); [discriminate|exact IH].
Qed.

End DomFacts.

(** ** The enumerator *)

Section EnumeratorFacts.
Import Dom.
Variable d : document.

Lemma receiver_element (r : ref) (e : element) :
  elementAt d r = Some e -> exists kids, receiver d (Some r) = Ok (r, e, kids).
Proof.
  unfold elementAt, receiver.
  destruct (lookup d r) as [[s|e0 kids]|]; try discriminate.
  intros H; injection H as ->. now exists kids.
Qed.

Lemma isHTMLElement_element (h : handle) :
  isHTMLElement d h = true ->
  exists r e, h = Some r /\ elementAt d r = Some e /\ isHTML e = true.
Proof.
  destruct h as [r|]; [|discriminate]. simpl.
  destruct (elementAt d r) as [e|] eqn:He; [|discriminate].
  intros H. exists r, e. repeat split; assumption.
Qed.

Lemma isHTMLInputElement_element (r : ref) :
  isHTMLInputElement d (Some r) = true ->
  exists e, elementAt d r = Some e /\ isHTML e = true /\ tagName e = "input".
Proof.
  simpl. destruct (elementAt d r) as [e|] eqn:He; [|discriminate].
  intros H. apply andb_prop in H. destruct H as [H1 H2].
  apply String.eqb_eq in H2. exists e. repeat split; assumption.
Qed.

Lemma hasText_returns (h : handle) : returns (hasText d h).
Proof.
  unfold hasText. destruct (isHTMLElement d h) eqn:Hh.
  - destruct (isHTMLElement_element _ Hh) as (r & e & -> & He & _).
    destruct (receiver_element _ _ He) as [kids Hr].
    unfold textContent. rewrite Hr. cbn [bind]. eexists; reflexivity.
  - eexists; reflexivity.
Qed.

Lemma hasText_true (h : handle) :
  hasText d h = Ok true -> isHTMLElement d h = true.
Proof.
  unfold hasText. destruct (isHTMLElement d h); [reflexivity|discriminate].
Qed.

(** [getTitleParent] on an element returns [null] or an HTML element. *)
Lemma getTitleParent_returns (r : ref) (e : element) :
  elementAt d r = Some e ->
  exists h, getTitleParent d (Some r) = Ok h
            /\ (h = None \/ isHTMLElement d h = true).
Proof.
  intros He. destruct (receiver_element _ _ He) as [kids Hr].
  unfold getTitleParent, closest. rewrite Hr. cbn [bind fst snd].
  set (a := closestFrom d [[SClass "range-block"]] r).
  set (b := closestFrom d [[STag "label"]] r).
  set (c := closestFrom d [[STag "h4"]] r).
  set (g := closestFrom d [[STag "div"]] r).
  assert (Hp : exists parent,
             (x <- orElse a (Ok b) ;; y <- orElse x (Ok c) ;; orElse y (Ok g))
             = Ok parent).
  { destruct a, b, c; cbn; eexists; reflexivity. }
  destruct Hp as [parent Hp].
  destruct a as [ra|]; cbn [orElse bind] in Hp |- *;
    [|destruct b as [rb|]; cbn [orElse bind] in Hp |- *;
      [|destruct c as [rc|]; cbn [orElse bind] in Hp |- *]].
  all: match goal with
       | |- exists h, (if negb (isHTMLElement d ?p) then _ else _) = _ /\ _ =>
           destruct (isHTMLElement d p) eqn:Hh; cbn [negb];
           [|exists None; split; [reflexivity|now left]];
           destruct (isHTMLElement_element _ Hh) as (rp & ep & Hrp & Hep & _);
           destruct (receiver_element _ _ Hep) as [kp Hrec];
           unfold querySelector; rewrite Hrp in *; rewrite Hrec; cbn [bind fst snd]
       end.
  all: repeat match goal with
         | |- context [hasText d ?h] =>
             let b := fresh "t" in
             let Hb := fresh "Ht" in
             destruct (hasText_returns h) as [b Hb]; rewrite Hb; cbn [bind];
             destruct b;
             [eexists; split; [reflexivity|right; now apply hasText_true]|]
         end.
  all: eexists; split; [reflexivity|right; exact Hh].
Qed.

Lemma titleOf_returns (r : ref) (e : element) :
  elementAt d r = Some e -> returns (titleOf d r).
Proof.
  intros He. unfold titleOf.
  destruct (getTitleParent_returns _ _ He) as (h & -> & [->|Hh]); cbn [bind].
  - eexists; reflexivity.
  - destruct (isHTMLElement_element _ Hh) as (rp & ep & -> & Hep & _).
    destruct (receiver_element _ _ Hep) as [kp Hrec].
    unfold textContent. rewrite Hrec. cbn [bind]. eexists; reflexivity.
Qed.

Lemma hasVisibleAncestorFrom_returns (sel : selector) (r : ref) :
  returns (hasVisibleAncestorFrom d r sel).
Proof.
  induction r as [|i p IH]; cbn [hasVisibleAncestorFrom].
  - eexists; reflexivity.
  - match goal with
    | |- context [isHTMLElement d ?h] => destruct (isHTMLElement d h) eqn:Hh
    end; [|eexists; reflexivity].
    destruct (isHTMLElement_element _ Hh) as (r & e & Hr & He & _).
    injection Hr as <-.
    destruct (receiver_element _ _ He) as [kids Hrec].
    unfold matches, properties. rewrite Hrec. cbn [bind fst snd].
    destruct (matchesElement sel e); [eexists; reflexivity|].
    destruct (isHidden e); [eexists; reflexivity|exact IH].
Qed.

Lemma isVisible_returns (r : ref) : returns (isVisible d r).
Proof.
  unfold isVisible, hasVisibleAncestor.
  destruct (isHTMLElement d (Some r)); [|eexists; reflexivity].
  apply hasVisibleAncestorFrom_returns.
Qed.

Lemma filterArray_returns {A : Type} (f : A -> result bool) (l : list A) :
  (forall x, returns (f x)) -> returns (filterArray f l).
Proof.
  intros Hf. induction l as [|x l [rest IH]]; cbn [filterArray].
  - eexists; reflexivity.
  - destruct (Hf x) as [keep ->]. rewrite IH. cbn [bind]. eexists; reflexivity.
Qed.

Lemma filterArray_In {A : Type} (f : A -> result bool) (l l' : list A) (x : A) :
  filterArray f l = Ok l' -> In x l' -> In x l /\ f x = Ok true.
Proof.
  revert l'. induction l as [|y l IH]; cbn [filterArray]; intros l' H Hin.
  - injection H as <-. contradiction.
  - destruct (f y) as [keep|] eqn:Hy; [|discriminate]. cbn [bind] in H.
    destruct (filterArray f l) as [rest|]; [|discriminate]. cbn [bind] in H.
    injection H as <-. destruct keep.
    + destruct Hin as [<-|Hin]; [split; [now left|exact Hy]|].
      destruct (IH _ eq_refl Hin). split; [now right|assumption].
    + destruct (IH _ eq_refl Hin). split; [now right|assumption].
Qed.

Lemma collect_returns (rangeSliders : list ref) :
  forall acc, returns (collect d rangeSliders acc).
Proof.
  induction rangeSliders as [|r rest IH]; intros acc; cbn [collect].
  - eexists; reflexivity.
  - destruct (isHTMLInputElement d (Some r)) eqn:Hin; cbn [negb]; [|apply IH].
    destruct (isHTMLInputElement_element _ Hin) as (c & Hc & _).
    destruct (receiver_element _ _ Hc) as [kids Hrec].
    unfold closest, properties. rewrite Hrec. cbn [bind fst snd].
    destruct (closestFrom d [[SId "openai_settings"]] r); [apply IH|].
    destruct (titleOf_returns _ _ Hc) as [name ->]. cbn [bind].
    match goal with |- returns (if ?b then _ else _) => destruct b end; apply IH.
Qed.

Lemma collect_enumerated (rangeSliders : list ref) :
  forall acc l,
    (forall r, In r rangeSliders -> selected d r) ->
    collect d rangeSliders acc = Ok l ->
    Forall (enumerated d) acc -> Forall (enumerated d) l.
Proof.
  induction rangeSliders as [|r rest IH]; intros acc l Hcand Hcol Hacc;
    cbn [collect] in Hcol.
  - now injection Hcol as <-.
  - assert (Hrest : forall x, In x rest -> selected d x)
      by (intros x Hx; apply Hcand; now right).
    destruct (isHTMLInputElement d (Some r)) eqn:Hin; cbn [negb] in Hcol;
      [|now apply (IH acc)].
    destruct (isHTMLInputElement_element _ Hin) as (c & Hc & Hhtml & Htag).
    destruct (receiver_element _ _ Hc) as [kids Hrec].
    unfold closest, properties in Hcol. rewrite Hrec in Hcol.
    cbn [bind fst snd] in Hcol.
    destruct (closestFrom d [[SId "openai_settings"]] r) eqn:Hcl;
      [now apply (IH acc)|].
    destruct (titleOf d r) as [name|ex] eqn:Ht; cbn [bind] in Hcol;
      [|discriminate].
    cbn [SamplerParameter.id SamplerParameter.name] in Hcol.
    destruct (JsValue.nonEmpty (sanitizeId (id c))) eqn:Hid; cbn [negb orb] in Hcol;
      [|now apply (IH acc)].
    destruct name as [s|]; cbn [noName] in Hcol; [|now apply (IH acc)].
    destruct (JsValue.nonEmpty s) eqn:Hs; cbn [negb] in Hcol; [|now apply (IH acc)].
    apply (IH _ _ Hrest Hcol). apply Forall_app. split; [exact Hacc|].
    constructor; [|constructor].
    destruct (Hcand r (or_introl eq_refl)) as [(c' & Hc' & Hm) Hvis].
    assert (c' = c) by congruence. subst c'.
    exists c, s. cbn [SamplerParameter.control]. now repeat split.
Qed.

Lemma enumerate_returns : returns (enumerateSamplerParameters d).
Proof.
  unfold enumerateSamplerParameters.
  destruct (isHTMLElement d (getElementById d "left-nav-panel")) eqn:Hh;
    cbn [negb]; [|eexists; reflexivity].
  destruct (isHTMLElement_element _ Hh) as (r & e & -> & He & _).
  destruct (receiver_element _ _ He) as [kids Hrec].
  unfold querySelectorAll. rewrite Hrec. cbn [bind fst snd].
  destruct (filterArray_returns (isVisible d) (selectAll d controlSelector r)
              isVisible_returns) as [rs ->].
  cbn [bind]. apply collect_returns.
Qed.

Lemma enumerate_enumerated (l : list SamplerParameter.t) :
  enumerateSamplerParameters d = Ok l -> Forall (enumerated d) l.
Proof.
  unfold enumerateSamplerParameters.
  destruct (isHTMLElement d (getElementById d "left-nav-panel")) eqn:Hh;
    cbn [negb]; [|intros H; injection H as <-; constructor].
  destruct (isHTMLElement_element _ Hh) as (r & e & -> & He & _).
  destruct (receiver_element _ _ He) as [kids Hrec].
  unfold querySelectorAll. rewrite Hrec. cbn [bind fst snd].
  destruct (filterArray (isVisible d) (selectAll d controlSelector r))
    as [rs|] eqn:Hf; cbn [bind]; [|discriminate].
  intros Hcol. apply (collect_enumerated rs [] l); [|exact Hcol|constructor].
  intros x Hx. destruct (filterArray_In _ _ _ _ Hf Hx) as [Hsel Hvis].
  split; [|exact Hvis]. eapply selectAll_sound; eassumption.
Qed.

End EnumeratorFacts.

(** ** The commands *)

Section CommandFacts.
Import Dom.

Lemma named_enumerated {engine : Engine} (d : document) (key : string) (p : SamplerParameter.t) :
  enumerated d p ->
  exists b, named key p = Ok b /\ (b = true <-> matchesKey key p).
Proof.
  intros (c & s & _ & _ & _ & _ & _ & _ & _ & _ & _ & Hp).
  assert (Hname : SamplerParameter.name p = Some s) by (now rewrite Hp).
  unfold named, matchesKey. rewrite Hname.
  eexists. split; [reflexivity|]. rewrite orb_true_iff, !String.eqb_eq.
  split.
  - intros [H|H]; [left; now exists s | now right].
  - intros [(n & Hn & H)|H]; [left; congruence | now right].
Qed.

Lemma findArray_first {engine : Engine} (d : document) (key : string)
      (l : list SamplerParameter.t) (p : SamplerParameter.t) :
  Forall (enumerated d) l -> firstMatch key l p ->
  findArray (named key) l = Ok (Some p).
Proof.
  intros Hall (before & after & -> & Hp & Hbefore).
  induction before as [|q before IH]; cbn [app findArray].
  - apply Forall_inv in Hall.
    destruct (named_enumerated d key p Hall) as (b & -> & Hb). cbn [bind].
    destruct b; [reflexivity|]. apply Hb in Hp. discriminate.
  - destruct (named_enumerated d key q (Forall_inv Hall)) as (b & -> & Hb).
    cbn [bind]. destruct b.
    + exfalso. apply (Hbefore q); [now left | now apply Hb].
    + apply IH; [exact (Forall_inv_tail Hall)|].
      intros q' Hq'. apply Hbefore. now right.
Qed.

Lemma findArray_none {engine : Engine} (d : document) (key : string) (l : list SamplerParameter.t) :
  Forall (enumerated d) l -> noMatch key l ->
  findArray (named key) l = Ok None.
Proof.
  intros Hall Hno. induction l as [|q l IH]; cbn [findArray]; [reflexivity|].
  destruct (named_enumerated d key q (Forall_inv Hall)) as (b & -> & Hb).
  cbn [bind]. destruct b.
  - exfalso. apply (Hno q); [now left | now apply Hb].
  - apply IH; [exact (Forall_inv_tail Hall)|].
    intros q' Hq'. apply Hno. now right.
Qed.

Lemma match_or_not {engine : Engine} (d : document) (key : string) (l : list SamplerParameter.t) :
  Forall (enumerated d) l ->
  (exists p, firstMatch key l p) \/ noMatch key l.
Proof.
  induction 1 as [|q l Hq _ IH].
  - right. intros q [].
  - destruct (named_enumerated d key q Hq) as (b & _ & Hb). destruct b.
    + left. exists q, [], l. repeat split; [now apply Hb | intros ? []].
    + assert (Hnq : ~ matchesKey key q) by (intros H; apply Hb in H; discriminate).
      destruct IH as [(p & before & after & -> & Hp & Hbefore)|Hno].
      * left. exists p, (q :: before), after. repeat split; [exact Hp|].
        intros q' [<-|Hq']; [exact Hnq | now apply Hbefore].
      * right. intros q' [<-|Hq']; [exact Hnq | now apply Hno].
Qed.

Lemma matchesKeyb_spec {engine : Engine} (key : string) (p : SamplerParameter.t) :
  matchesKeyb key p = true <-> matchesKey key p.
Proof.
  unfold matchesKeyb, matchesKey. rewrite orb_true_iff, String.eqb_eq.
  destruct (SamplerParameter.name p) as [n|].
  - rewrite String.eqb_eq. split.
    + intros [H|H]; [left; now exists n | now right].
    + intros [(n' & Hn' & H)|H]; [left; congruence | now right].
  - split.
    + intros [H|H]; [discriminate | now right].
    + intros [(n' & Hn' & H)|H]; [discriminate | now right].
Qed.

Lemma findMatch_first {engine : Engine} (key : string) (l : list SamplerParameter.t)
      (p : SamplerParameter.t) :
  findMatch key l = Some p -> firstMatch key l p.
Proof.
  induction l as [|q l IH]; cbn [findMatch]; [discriminate|].
  destruct (matchesKeyb key q) eqn:Hq.
  - intros H. injection H as <-. exists [], l.
    repeat split; [now apply matchesKeyb_spec | intros ? []].
  - intros H. destruct (IH H) as (before & after & -> & Hp & Hbefore).
    exists (q :: before), after. repeat split; [exact Hp|].
    intros q' [<-|Hq'].
    + intros Hm. apply matchesKeyb_spec in Hm. congruence.
    + now apply Hbefore.
Qed.

Lemma findMatch_none {engine : Engine} (key : string) (l : list SamplerParameter.t) :
  findMatch key l = None -> noMatch key l.
Proof.
  induction l as [|q l IH]; cbn [findMatch]; [intros _ ? []|].
  destruct (matchesKeyb key q) eqn:Hq; [discriminate|].
  intros H q' [<-|Hq'].
  - intros Hm. apply matchesKeyb_spec in Hm. congruence.
  - now apply IH.
Qed.

Lemma firstMatch_In {engine : Engine} (key : string) (l : list SamplerParameter.t)
      (p : SamplerParameter.t) :
  firstMatch key l p -> In p l /\ matchesKey key p.
Proof.
  intros (before & after & -> & Hp & _). split; [|exact Hp].
  apply in_or_app. right. now left.
Qed.

(** A key that matches an enumerated parameter is not empty, and neither
    is the argument it was made from. *)
Lemma matched_nonEmpty {engine : Engine} (d : document) (s : string) (p : SamplerParameter.t) :
  enumerated d p -> matchesKey (keyOf s) p -> JsValue.nonEmpty s = true.
Proof.
  intros (c & n & _ & _ & _ & _ & _ & _ & _ & Hid & Hn & Hp) Hm.
  assert (Hname : SamplerParameter.name p = Some n) by (now rewrite Hp).
  assert (Hpid : SamplerParameter.id p = sanitizeId (id c)) by (now rewrite Hp).
  apply trim_nonEmpty. rewrite <- toLowerCase_nonEmpty. fold (keyOf s).
  unfold matchesKey in Hm. rewrite Hname, Hpid in Hm.
  destruct Hm as [(n' & Hn' & <-)| <-]; rewrite toLowerCase_nonEmpty.
  - congruence.
  - exact Hid.
Qed.

Lemma not_finite (n : JsNumber.number) :
  JsNumber.isNaN n || negb (JsNumber.isFinite n) = negb (JsNumber.isFinite n).
Proof. now destruct n. Qed.

Variable isTrueBoolean : string -> bool.

Lemma assign_then_dispatch (w : page) (p : SamplerParameter.t)
      (f : element -> element) :
  enumerated (doc w) p ->
  (_ <~ assign (SamplerParameter.control p) f ;;
   _ <~ dispatchEvent (SamplerParameter.control p) "input" true ;;
   unit_ EmptyString) w
  = (Ok EmptyString, written w p f).
Proof.
  intros (c & s & Hc & _).
  unfold andThen, assign, dispatchEvent, unit_. rewrite Hc. cbn [doc dispatched].
  rewrite (elementAt_update _ _ f _ Hc). reflexivity.
Qed.

Lemma samplerSet_found {engine : Engine} (w : page) (s : string) (value : JsValue.value)
      (l : list SamplerParameter.t) (p : SamplerParameter.t) :
  enumerateSamplerParameters (doc w) = Ok l ->
  firstMatch (keyOf s) l p ->
  samplerSet isTrueBoolean {| argName := JsValue.Str s |} value w = outcome isTrueBoolean w p value.
Proof.
  intros Hl Hf.
  pose proof (enumerate_enumerated _ _ Hl) as Hall.
  destruct (firstMatch_In _ _ _ Hf) as [Hin Hm].
  assert (Hp : enumerated (doc w) p) by (eapply Forall_forall; eassumption).
  pose proof (matched_nonEmpty _ _ _ Hp Hm) as Hs.
  unfold samplerSet. cbn [argName JsValue.toBoolean]. rewrite Hs. cbn [negb].
  fold (keyOf s). unfold andThen at 1. unfold reading. rewrite Hl. cbn [bind].
  rewrite (findArray_first _ _ _ _ Hall Hf).
  unfold outcome. destruct (JsValue.toBoolean value); cbn [negb]; [|reflexivity].
  destruct value as [| |b|n|v]; try reflexivity.
  cbn [JsValue.toString].
  destruct (String.eqb (SamplerParameter.type p) "checkbox").
  - now apply assign_then_dispatch.
  - rewrite not_finite.
    destruct (JsNumber.isFinite (JsNumber.parseFloat v)); cbn [negb].
    + now apply assign_then_dispatch.
    + reflexivity.
Qed.

Lemma samplerSet_notFound {engine : Engine} (w : page) (s : string) (value : JsValue.value)
      (l : list SamplerParameter.t) :
  enumerateSamplerParameters (doc w) = Ok l ->
  JsValue.nonEmpty s = true ->
  noMatch (keyOf s) l ->
  samplerSet isTrueBoolean {| argName := JsValue.Str s |} value w
  = (Throw (notFound (keyOf s)), w).
Proof.
  intros Hl Hs Hno.
  pose proof (enumerate_enumerated _ _ Hl) as Hall.
  unfold samplerSet. cbn [argName JsValue.toBoolean]. rewrite Hs. cbn [negb].
  fold (keyOf s). unfold andThen at 1. unfold reading. rewrite Hl. cbn [bind].
  rewrite (findArray_none _ _ _ Hall Hno). reflexivity.
Qed.

Lemma samplerGet_found {engine : Engine} (d : document) (s : string)
      (l : list SamplerParameter.t) (p : SamplerParameter.t) :
  enumerateSamplerParameters d = Ok l ->
  firstMatch (keyOf s) l p ->
  samplerGet (JsValue.Str s) d =
  Ok (if String.eqb (SamplerParameter.type p) "checkbox"
      then JsValue.boolToString (SamplerParameter.checked p)
      else JsNumber.toString (SamplerParameter.value p)).
Proof.
  intros Hl Hf.
  pose proof (enumerate_enumerated _ _ Hl) as Hall.
  destruct (firstMatch_In _ _ _ Hf) as [Hin Hm].
  assert (Hp : enumerated d p) by (eapply Forall_forall; eassumption).
  pose proof (matched_nonEmpty _ _ _ Hp Hm) as Hs.
  unfold samplerGet. cbn [JsValue.toBoolean]. rewrite Hs. cbn [negb].
  fold (keyOf s). rewrite Hl. cbn [bind].
  rewrite (findArray_first _ _ _ _ Hall Hf). cbn [bind].
  now destruct (String.eqb (SamplerParameter.type p) "checkbox").
Qed.

(** An enumerated parameter is of one of the two kinds. *)
Lemma enumerated_kind (d : document) (p : SamplerParameter.t) :
  enumerated d p -> isBoolean p \/ isNumeric p.
Proof.
  intros (c & s & _ & _ & _ & Hm & _ & _ & _ & _ & _ & Hp).
  assert (Htype : SamplerParameter.type p = inputType c) by (now rewrite Hp).
  unfold isBoolean, isNumeric. rewrite Htype.
  unfold matchesElement, controlSelector in Hm. cbn [existsb forallb] in Hm.
  unfold inputType, reflected.
  assert (Hty : forall v,
             matchesSimple c (STypeIs v) = true ->
             JsString.asciiLowerCase
               (match getAttribute (attributes c) "type" with
                | Some x => x
                | None => EmptyString
                end) = v).
  { intros v. cbn [matchesSimple].
    destruct (getAttribute (attributes c) "type"); [|discriminate].
    apply String.eqb_eq. }
  rewrite !orb_true_iff, !andb_true_iff in Hm.
  destruct Hm as [(_ & H & _)|[(_ & H & _)|[(_ & H & _)|H]]];
    try discriminate; rewrite (Hty _ H); cbn; auto.
Qed.

Lemma numeric_not_checkbox (p : SamplerParameter.t) :
  isNumeric p -> String.eqb (SamplerParameter.type p) "checkbox" = false.
Proof. intros [H|H]; now rewrite H. Qed.

End CommandFacts.

(** ** Numbers: rounding and clamping *)

Section NumberFacts.





End NumberFacts.

(** ** The set command, case by case *)

Section OutcomeFacts.
Import Dom.
Variable isTrueBoolean : string -> bool.

Lemma outcome_raises {engine : Engine} (w : page) (p : SamplerParameter.t) (value : JsValue.value) :
  isBoolean p \/ isNumeric p ->
  ((exists e w', outcome isTrueBoolean w p value = (Throw e, w')) <->
   (missing value
    \/ JsValue.isString value = false
    \/ (isNumeric p
        /\ exists v, value = JsValue.Str v
                     /\ JsNumber.isFinite (JsNumber.parseFloat v) = false)))
  /\ ((exists e, outcome isTrueBoolean w p value = (Throw e, w))
      \/ (exists w', outcome isTrueBoolean w p value = (Ok EmptyString, w'))).
Proof.
  intros Hkind. unfold outcome, missing.
  destruct (JsValue.toBoolean value) eqn:Hb; cbn [negb].
  2: { split; [|left; eexists; reflexivity].
       split; [intros _; now left | intros _; eexists; eexists; reflexivity]. }
  destruct value as [| |b|n|v]; try discriminate Hb.
  1, 2: split; [|left; eexists; reflexivity];
        split; [intros _; right; now left | intros _; eexists; eexists; reflexivity].
  destruct Hkind as [Hbool|Hnum].
  - unfold isBoolean in Hbool. rewrite Hbool. cbn [String.eqb].
    replace (String.eqb "checkbox" "checkbox") with true by reflexivity.
    split; [|right; eexists; reflexivity].
    split.
    + intros (e & w' & H). discriminate.
    + intros [H|[H|([H|H] & _)]]; try discriminate; congruence.
  - rewrite (numeric_not_checkbox _ Hnum).
    destruct (JsNumber.isFinite (JsNumber.parseFloat v)) eqn:Hfin.
    + split; [|right; eexists; reflexivity].
      split.
      * intros (e & w' & H). discriminate.
      * intros [H|[H|(_ & v' & Hv & H)]]; try discriminate.
        injection Hv as <-. congruence.
    + split; [|left; eexists; reflexivity].
      split.
      * intros _. right. right. split; [exact Hnum|]. now exists v.
      * intros _. eexists; eexists; reflexivity.
Qed.

End OutcomeFacts.

(** ** Numbers: what rounding and clamping can produce *)

Section NumberRange.
Local Open Scope Z_scope.

Lemma shr_1_nonneg (mrs : shr_record) :
  0 <= shr_m mrs -> 0 <= shr_m (shr_1 mrs).
Proof.
  destruct mrs as [m r s]. destruct m as [|[p|p|]|[p|p|]]; cbn; lia.
Qed.

Lemma iter_shr_1_nonneg (p : positive) :
  forall mrs, 0 <= shr_m mrs -> 0 <= shr_m (iter_pos shr_1 p mrs).
Proof.
  induction p as [p IH|p IH|]; intros mrs H; cbn [iter_pos].
  - apply IH, IH. now apply shr_1_nonneg.
  - now apply IH, IH.
  - now apply shr_1_nonneg.
Qed.

Lemma shr_fexp_nonneg (m e : Z) (l : location) :
  0 <= m -> 0 <= shr_m (fst (shr_fexp JsNumber.prec JsNumber.emax m e l)).
Proof.
  intros Hm. unfold shr_fexp, shr.
  assert (H0 : 0 <= shr_m (shr_record_of_loc m l))
    by (destruct l as [|[| |]]; exact Hm).
  destruct (fexp _ _ _ - e); cbn [fst]; try exact H0.
  now apply iter_shr_1_nonneg.
Qed.

Lemma round_nearest_even_nonneg (m : Z) (l : location) :
  0 <= m -> 0 <= round_nearest_even m l.
Proof.
  intros Hm. destruct l as [|[| |]]; cbn [round_nearest_even]; try lia.
  destruct (Z.even m); lia.
Qed.

(** Rounding a non-negative mantissa gives a zero, a finite number or an
    infinity. *)
Lemma binary_round_aux_number (sx : bool) (mx ex : Z) (lx : location) :
  0 <= mx ->
  JsNumber.isNaN (binary_round_aux JsNumber.prec JsNumber.emax sx mx ex lx) = false.
Proof.
  intros Hm. unfold binary_round_aux.
  pose proof (shr_fexp_nonneg mx ex lx Hm) as H1.
  destruct (shr_fexp JsNumber.prec JsNumber.emax mx ex lx) as [mrs' e'].
  cbn [fst] in H1.
  pose proof (shr_fexp_nonneg _ e' loc_Exact
                (round_nearest_even_nonneg _ (loc_of_shr_record mrs') H1)) as H2.
  destruct (shr_fexp JsNumber.prec JsNumber.emax _ e' loc_Exact) as [mrs'' e''].
  cbn [fst] in H2.
  destruct (shr_m mrs'') as [|m|m]; [reflexivity | | lia].
  now destruct (e'' <=? JsNumber.emax - JsNumber.prec).
Qed.

Lemma binary_round_number (sx : bool) (mx : positive) (ex : Z) :
  JsNumber.isNaN (binary_round JsNumber.prec JsNumber.emax sx mx ex) = false.
Proof.
  unfold binary_round. destruct (shl_align mx ex _) as [mz ez].
  apply binary_round_aux_number. lia.
Qed.

Lemma binary_normalize_number (m e : Z) (szero : bool) :
  JsNumber.isNaN (binary_normalize JsNumber.prec JsNumber.emax m e szero) = false.
Proof.
  destruct m; cbn [binary_normalize]; [reflexivity | |]; apply binary_round_number.
Qed.

Lemma add_number (x : JsNumber.number) (s : bool) (m : positive) (e : Z) :
  JsNumber.isNaN x = false ->
  JsNumber.isNaN (JsNumber.add x (S754_finite s m e)) = false.
Proof.
  destruct x as [sx|sx| |sx mx ex]; intros H; try discriminate H;
    try reflexivity.
  unfold JsNumber.add, SFadd. apply binary_normalize_number.
Qed.

Lemma mul_number (x : JsNumber.number) (s : bool) (m : positive) (e : Z) :
  JsNumber.isNaN x = false ->
  JsNumber.isNaN (JsNumber.mul x (S754_finite s m e)) = false.
Proof.
  destruct x as [sx|sx| |sx mx ex]; intros H; try discriminate H;
    try reflexivity.
  unfold JsNumber.mul, SFmul. apply binary_round_aux_number. lia.
Qed.

Lemma div_number (x : JsNumber.number) (s : bool) (m : positive) (e : Z) :
  JsNumber.isNaN x = false ->
  JsNumber.isNaN (JsNumber.div x (S754_finite s m e)) = false.
Proof.
  destruct x as [sx|sx| |sx mx ex]; intros H; try discriminate H;
    try reflexivity.
  unfold JsNumber.div, SFdiv, SFdiv_core_binary.
  set (e' := Z.min _ _). set (m' := match _ - _ - e' with
                                     | 0 => Z.pos mx
                                     | Z.pos _ => Z.shiftl (Z.pos mx) (ex - e - e')
                                     | Z.neg _ => 0
                                     end).
  assert (Hm' : 0 <= m').
  { unfold m'. destruct (ex - e - e'); try lia. apply Z.shiftl_nonneg. lia. }
  pose proof (Z.div_pos m' (Z.pos m) Hm' ltac:(lia)) as Hq.
  unfold Z.div in Hq. destruct (Z.div_eucl m' (Z.pos m)) as [q r].
  now apply binary_round_aux_number.
Qed.

Lemma round_number (x : JsNumber.number) :
  JsNumber.isNaN x = false -> JsNumber.isNaN (JsNumber.round x) = false.
Proof.
  destruct x as [sx|sx| |sx mx ex]; intros H; try discriminate H;
    try reflexivity.
  unfold JsNumber.round. destruct (0 <=? ex); [reflexivity|].
  apply binary_normalize_number.
Qed.

Lemma orZero_number (x : JsNumber.number) : JsNumber.isNaN (orZero x) = false.
Proof. now destruct x. Qed.

Lemma roundToPrecision_number (v : JsValue.value) :
  JsNumber.isNaN (roundToPrecision v) = false.
Proof.
  unfold roundToPrecision.
  assert (Hp : precision = S754_finite false 5497558138880000 (-39))
    by (vm_compute; reflexivity).
  rewrite Hp. unfold JsNumber.EPSILON.
  apply div_number, round_number, mul_number, add_number, orZero_number.
Qed.

(** *** The order of Numbers *)

Lemma compare_refl (x : JsNumber.number) :
  JsNumber.isNaN x = false -> SFcompare x x = Some Eq.
Proof.
  destruct x as [s|s| |s m e]; intros H; try discriminate H; cbn [SFcompare].
  - reflexivity.
  - now destruct s.
  - rewrite Z.compare_refl, Pos.compare_cont_refl. now destruct s.
Qed.

(** Case analysis on the comparisons of exponents and mantissas that
    stand in the goal and in the hypotheses. *)
Ltac order_cases :=
  change PosDef.Pos.compare_cont with Pos.compare_cont in *;
  repeat match goal with
         | H : context [Pos.compare_cont Eq ?a ?b] |- _ =>
             change (Pos.compare_cont Eq a b) with (Pos.compare a b) in H
         | |- context [Pos.compare_cont Eq ?a ?b] =>
             change (Pos.compare_cont Eq a b) with (Pos.compare a b)
         end;
  repeat match goal with
         | H : context [Z.compare ?a ?b] |- _ =>
             destruct (Z.compare_spec a b); cbn [CompOpp] in *;
             try discriminate; try lia
         | |- context [Z.compare ?a ?b] =>
             destruct (Z.compare_spec a b); cbn [CompOpp] in *;
             try discriminate; try lia
         | H : context [Pos.compare ?a ?b] |- _ =>
             destruct (Pos.compare_spec a b); cbn [CompOpp] in *;
             try discriminate; try lia
         | |- context [Pos.compare ?a ?b] =>
             destruct (Pos.compare_spec a b); cbn [CompOpp] in *;
             try discriminate; try lia
         end;
  try reflexivity; try discriminate; try lia.

Lemma compare_antisym (a b : JsNumber.number) :
  SFcompare b a = option_map CompOpp (SFcompare a b).
Proof.
  destruct a as [s|s| |s m e], b as [t|t| |t n f]; cbn [SFcompare option_map];
    try reflexivity; try (now destruct s); try (now destruct t);
    try (now destruct s, t).
  destruct s, t; cbn [CompOpp]; try reflexivity; order_cases.
Qed.

Lemma compare_Eq (a b : JsNumber.number) :
  SFcompare a b = Some Eq ->
  a = b \/ exists s t, a = S754_zero s /\ b = S754_zero t.
Proof.
  destruct a as [s|s| |s m e], b as [t|t| |t n f]; cbn [SFcompare];
    try discriminate; try (destruct s; discriminate); try (destruct t; discriminate).
  - intros _. right. now exists s, t.
  - destruct s, t; try discriminate; now left.
  - intros H. left. destruct s, t; try discriminate; order_cases;
      subst; reflexivity.
Qed.

Lemma compare_Gt_trans (a b c : JsNumber.number) :
  SFcompare a b = Some Gt -> SFcompare b c = Some Gt -> SFcompare a c = Some Gt.
Proof.
  destruct a as [s|s| |s m e], b as [t|t| |t n f], c as [u|u| |u k g];
    cbn [SFcompare]; try discriminate; intros H1 H2;
    try (destruct s; try discriminate; reflexivity);
    try (destruct t; discriminate);
    try (destruct u; try discriminate; reflexivity);
    try (destruct s, t; try discriminate; reflexivity);
    try (destruct s, u; try discriminate; reflexivity);
    try (destruct t, u; try discriminate; destruct s; try discriminate; reflexivity);
    try (destruct s, t, u; try discriminate; try reflexivity; order_cases).
Qed.

Lemma compare_some (a b : JsNumber.number) :
  JsNumber.isNaN a = false -> JsNumber.isNaN b = false ->
  exists c, SFcompare a b = Some c.
Proof.
  destruct a as [s|s| |s m e], b as [t|t| |t n f]; intros Ha Hb;
    try discriminate; cbn [SFcompare]; eauto.
Qed.

(** Equal as numbers: the same Number, or two zeros. *)
Lemma compare_Eq_same (a b : JsNumber.number) :
  SFcompare a b = Some Eq ->
  JsNumber.toString a = JsNumber.toString b
  /\ forall c, SFcompare a c = SFcompare b c.
Proof.
  intros H. destruct (compare_Eq _ _ H) as [->|(s & t & -> & ->)]; [now split|].
  split; [reflexivity|]. now destruct c.
Qed.

Lemma max_bounds (a b : JsNumber.number) :
  JsNumber.isNaN a = false -> JsNumber.isNaN b = false ->
  (JsNumber.max a b = a \/ JsNumber.max a b = b)
  /\ SFleb b (JsNumber.max a b) = true.
Proof.
  intros Ha Hb. unfold JsNumber.max, SFleb.
  destruct (compare_some a b Ha Hb) as [c Hc]. rewrite Hc.
  pose proof (compare_antisym a b) as Hba. rewrite Hc in Hba. cbn in Hba.
  destruct c; cbn [CompOpp] in Hba.
  - assert (Hcase : (match a, b with
                     | S754_zero true, S754_zero _ => b
                     | _, _ => a
                     end) = a
                    \/ (match a, b with
                        | S754_zero true, S754_zero _ => b
                        | _, _ => a
                        end) = b)
      by (destruct a as [[|]| | |]; try (now left); destruct b; auto).
    split; [exact Hcase|].
    destruct Hcase as [->| ->]; [now rewrite Hba | now rewrite (compare_refl b Hb)].
  - split; [now right|]. now rewrite (compare_refl b Hb).
  - split; [now left|]. now rewrite Hba.
Qed.

Lemma min_bounds (a b : JsNumber.number) :
  JsNumber.isNaN a = false -> JsNumber.isNaN b = false ->
  (JsNumber.min a b = a \/ JsNumber.min a b = b)
  /\ SFleb (JsNumber.min a b) b = true.
Proof.
  intros Ha Hb. unfold JsNumber.min, SFleb.
  destruct (compare_some a b Ha Hb) as [c Hc]. rewrite Hc.
  destruct c.
  - assert (Hcase : (match a, b with
                     | S754_zero false, S754_zero _ => b
                     | _, _ => a
                     end) = a
                    \/ (match a, b with
                        | S754_zero false, S754_zero _ => b
                        | _, _ => a
                        end) = b)
      by (destruct a as [[|]| | |]; try (now left); destruct b; auto).
    split; [exact Hcase|].
    destruct Hcase as [->| ->]; [now rewrite Hc | now rewrite (compare_refl b Hb)].
  - split; [now left|]. now rewrite Hc.
  - split; [now right|]. now rewrite (compare_refl b Hb).
Qed.

Lemma clamp_facts (lo hi n : JsNumber.number) :
  JsNumber.isNaN lo = false -> JsNumber.isNaN hi = false ->
  JsNumber.isNaN n = false ->
  let r := JsNumber.min (JsNumber.max n lo) hi in
  JsNumber.isNaN r = false
  /\ SFleb r hi = true
  /\ (SFleb lo hi = true -> SFleb lo r = true)
  /\ (SFleb lo n = true -> SFleb n hi = true ->
      JsNumber.toString r = JsNumber.toString n)
  /\ (SFltb hi lo = true -> r = hi).
Proof.
  intros Hlo Hhi Hn r.
  destruct (max_bounds n lo Hn Hlo) as [Hx Hlox].
  assert (Hxn : JsNumber.isNaN (JsNumber.max n lo) = false)
    by (destruct Hx as [->| ->]; assumption).
  destruct (min_bounds (JsNumber.max n lo) hi Hxn Hhi) as [Hr Hrhi].
  fold r in Hr, Hrhi.
  split; [destruct Hr as [->| ->]; assumption|].
  split; [exact Hrhi|].
  split; [intros H; destruct Hr as [->| ->]; assumption|].
  split.
  - intros H1 H2.
    assert (Hxsame : JsNumber.toString (JsNumber.max n lo) = JsNumber.toString n
                     /\ forall c, SFcompare (JsNumber.max n lo) c = SFcompare n c).
    { destruct Hx as [->| Hx]; [now split|]. rewrite Hx.
      unfold SFleb in H1. pose proof (compare_antisym lo n) as Hanti.
      unfold JsNumber.max in Hx.
      destruct (SFcompare lo n) as [[| |]|] eqn:Hc; try discriminate H1.
      - now apply compare_Eq_same.
      - cbn in Hanti. rewrite Hanti in Hx. subst lo.
        rewrite (compare_refl n Hn) in Hc. discriminate Hc. }
    destruct Hxsame as [Hstr Hcmp].
    unfold r, JsNumber.min. rewrite Hcmp. unfold SFleb in H2.
    destruct (SFcompare n hi) as [[| |]|] eqn:Hc; try discriminate H2.
    + rewrite <- Hcmp in Hc. destruct (compare_Eq_same _ _ Hc) as [Heq _].
      destruct (JsNumber.max n lo) as [[|]| | |]; try exact Hstr;
        destruct hi; try exact Hstr; now rewrite <- Heq.
    + exact Hstr.
  - intros H. unfold SFltb in H.
    destruct (SFcompare hi lo) as [[| |]|] eqn:Hc; try discriminate H.
    pose proof (compare_antisym hi lo) as Hanti. rewrite Hc in Hanti.
    cbn in Hanti.
    assert (Hgt : SFcompare (JsNumber.max n lo) hi = Some Gt).
    { destruct Hx as [Hx| ->]; [|exact Hanti]. rewrite Hx.
      unfold JsNumber.max in Hx.
      destruct (SFcompare n lo) as [[| |]|] eqn:Hnlo.
      - destruct (compare_Eq_same _ _ Hnlo) as [_ Hcmp]. now rewrite Hcmp.
      - subst lo. rewrite (compare_refl n Hn) in Hnlo. discriminate Hnlo.
      - now apply compare_Gt_trans with (b := lo).
      - destruct (compare_some n lo Hn Hlo) as [c Hc']. congruence. }
    unfold r, JsNumber.min. now rewrite Hgt.
Qed.


Lemma enumerated_numbers (d : Dom.document) (p : SamplerParameter.t) :
  enumerated d p ->
  JsNumber.isNaN (SamplerParameter.min p) = false
  /\ JsNumber.isNaN (SamplerParameter.max p) = false
  /\ JsNumber.isNaN (SamplerParameter.value p) = false.
Proof.
  intros (c & s & _ & _ & _ & _ & _ & _ & _ & _ & _ & ->).
  cbn [samplerOf SamplerParameter.min SamplerParameter.max SamplerParameter.value].
  repeat split; apply roundToPrecision_number.
Qed.

End NumberRange.

(** ** Properties of the commands and of the enumerator *)

Section Properties.
Import Dom.

(** C1. [sampler-set] throws exactly when the name is missing or not a
    string, or no enumerated parameter's name or id is the trimmed,
    lower-cased name, or the value is missing or not a string, or the
    parameter found is numeric and the value does not parse to a finite
    number. In every other case it returns the empty string; in
    particular a value that parses to a finite number is never refused
    for being out of range. An argument is missing when the guard [!v]
    fires on it ([undefined], [null], the empty string). *)
Theorem samplerSet_raises_exactly {engine : Engine}
        (isTrueBoolean : string -> bool) (args : namedArguments)
        (value : JsValue.value) (w : page) (l : list SamplerParameter.t) :
  enumerateSamplerParameters (doc w) = Ok l ->
  ((exists e w', samplerSet isTrueBoolean args value w = (Throw e, w')) <->
   (missing (argName args)
    \/ JsValue.isString (argName args) = false
    \/ (exists s, argName args = JsValue.Str s /\ noMatch (keyOf s) l)
    \/ missing value
    \/ JsValue.isString value = false
    \/ (exists s p v,
           argName args = JsValue.Str s
           /\ firstMatch (keyOf s) l p
           /\ isNumeric p
           /\ value = JsValue.Str v
           /\ JsNumber.isFinite (JsNumber.parseFloat v) = false)))
  /\ ((exists e, samplerSet isTrueBoolean args value w = (Throw e, w))
      \/ (exists w', samplerSet isTrueBoolean args value w = (Ok EmptyString, w'))).
Proof.
  intros Hl. destruct args as [name]. cbn [argName].
  pose proof (enumerate_enumerated _ _ Hl) as Hall.
  destruct (JsValue.toBoolean name) eqn:Hn.
  2: { assert (Hrun : samplerSet isTrueBoolean {| argName := name |} value w
                      = (Throw (Error "Parameter name is required."), w)).
       { unfold samplerSet. cbn [argName]. now rewrite Hn. }
       rewrite Hrun. split; [|left; eexists; reflexivity].
       split; [intros _; now left | intros _; eexists; eexists; reflexivity]. }
  destruct name as [| |b|n|s]; try discriminate Hn.
  1, 2: match goal with
        | |- context [samplerSet _ ?a _ _] =>
            assert (Hrun : samplerSet isTrueBoolean a value w
                           = (Throw (Error "Parameter name must be a string."), w))
              by (unfold samplerSet; cbn [argName]; now rewrite Hn)
        end;
        rewrite Hrun; (split; [|left; eexists; reflexivity]);
        (split; [intros _; right; now left | intros _; eexists; eexists; reflexivity]).
  cbn [JsValue.toBoolean] in Hn.
  destruct (match_or_not _ (keyOf s) l Hall) as [[p Hf]|Hno].
  - destruct (firstMatch_In _ _ _ Hf) as [Hin Hm].
    assert (Hp : enumerated (doc w) p) by (eapply Forall_forall; eassumption).
    rewrite (samplerSet_found isTrueBoolean _ _ value _ _ Hl Hf).
    destruct (outcome_raises isTrueBoolean w p value (enumerated_kind _ _ Hp))
      as [Hiff Hcases].
    split; [|exact Hcases].
    split.
    + intros H. apply Hiff in H.
      destruct H as [H|[H|(Hnum & v & Hv & Hfin)]].
      * do 3 right. now left.
      * do 4 right. now left.
      * do 5 right. exists s, p, v. repeat split; assumption.
    + intros [H|[H|[(s' & Hs' & Hno)|[H|[H|(s' & p' & v & Hs' & Hf' & Hnum & Hv & Hfin)]]]]].
      * unfold missing in H. cbn [JsValue.toBoolean] in H. congruence.
      * discriminate.
      * injection Hs' as <-. exfalso. exact (Hno p Hin Hm).
      * apply Hiff. now left.
      * apply Hiff. right. now left.
      * injection Hs' as <-.
        rewrite <- (samplerSet_found isTrueBoolean _ _ value _ _ Hl Hf).
        rewrite (samplerSet_found isTrueBoolean _ _ value _ _ Hl Hf').
        subst value. unfold outcome.
        destruct (JsValue.toBoolean (JsValue.Str v)); cbn [negb].
        -- rewrite (numeric_not_checkbox _ Hnum), Hfin.
           eexists; eexists; reflexivity.
        -- eexists; eexists; reflexivity.
  - rewrite (samplerSet_notFound isTrueBoolean _ _ value _ Hl Hn Hno).
    split; [|left; eexists; reflexivity].
    split.
    + intros _. right. right. left. now exists s.
    + intros _. eexists; eexists; reflexivity.
Qed.

(** ["0"] is a value like any other, and a number too large for a Number
    is not finite. On the panel in another language the name with the
    small e acute, no-break spaces around it, finds the title with the
    capital one. *)
Lemma samplerSet_raises_exactly_witness :
  (exists w', samplerSet (String.eqb "true") {| argName := JsValue.Str "seed" |}
                (JsValue.Str "0") Sample.page0 = (Ok EmptyString, w'))
  /\ (exists e w', samplerSet (String.eqb "true") {| argName := JsValue.Str "seed" |}
                     (JsValue.Str "1e999") Sample.page0 = (Throw e, w'))
  /\ (exists w',
         samplerSet (String.eqb "true")
           {| argName := JsValue.Str (Sample.nbsp ++ JsString.fromCodePoint 233
                                      ++ "chantillonnage" ++ Sample.nbsp) |}
           (JsValue.Str "false") {| doc := Sample.localised; dispatched := [] |}
         = (Ok EmptyString, w')).
Proof.
  split; [|split].
  - destruct (samplerSet_raises_exactly (String.eqb "true")
                {| argName := JsValue.Str "seed" |} (JsValue.Str "0")
                Sample.page0 Sample.enumeration) as [_ [[e He]|Hok]].
    + vm_compute. reflexivity.
    + vm_compute in He. discriminate He.
    + exact Hok.
  - apply (samplerSet_raises_exactly (String.eqb "true")
             {| argName := JsValue.Str "seed" |} (JsValue.Str "1e999")
             Sample.page0 Sample.enumeration).
    + vm_compute. reflexivity.
    + do 5 right. exists "seed", Sample.seedParameter, "1e999".
      repeat split; try (vm_compute; reflexivity).
      * apply findMatch_first. vm_compute. reflexivity.
      * left. vm_compute. reflexivity.
  - destruct (samplerSet_raises_exactly (String.eqb "true")
                {| argName := JsValue.Str (Sample.nbsp ++ JsString.fromCodePoint 233
                                           ++ "chantillonnage" ++ Sample.nbsp) |}
                (JsValue.Str "false")
                {| doc := Sample.localised; dispatched := [] |}
                Sample.localisedEnumeration) as [_ [[e He]|Hok]].
    + vm_compute. reflexivity.
    + vm_compute in He. discriminate He.
    + exact Hok.
Defined.

(** C2, for non-empty values. When the parameter found is numeric and the
    value is a non-empty string that does not parse to a finite number
    (such as ["abc"]), [sampler-set] throws the finite-number error and
    the page is as it was: nothing has been assigned and nothing
    dispatched. On the empty string the guard [!value] fires first. *)
Theorem samplerSet_rejects_non_finite {engine : Engine}
        (isTrueBoolean : string -> bool) (w : page) (s v : string)
        (l : list SamplerParameter.t) (p : SamplerParameter.t) :
  enumerateSamplerParameters (doc w) = Ok l ->
  firstMatch (keyOf s) l p ->
  isNumeric p ->
  v <> EmptyString ->
  JsNumber.isFinite (JsNumber.parseFloat v) = false ->
  samplerSet isTrueBoolean {| argName := JsValue.Str s |} (JsValue.Str v) w
  = (Throw finiteNumberError, w).
Proof.
  intros Hl Hf Hnum Hv Hfin.
  rewrite (samplerSet_found isTrueBoolean _ _ _ _ _ Hl Hf). unfold outcome.
  destruct v as [|c v]; [contradiction|]. cbn [JsValue.toBoolean JsValue.nonEmpty negb].
  now rewrite (numeric_not_checkbox _ Hnum), Hfin.
Qed.

Lemma samplerSet_rejects_non_finite_witness :
  samplerSet (String.eqb "true") {| argName := JsValue.Str "Temperature" |}
    (JsValue.Str "abc") Sample.page0
  = (Throw finiteNumberError, Sample.page0).
Proof.
  apply (samplerSet_rejects_non_finite (String.eqb "true") Sample.page0
           "Temperature" "abc" Sample.enumeration Sample.temperatureParameter).
  - vm_compute. reflexivity.
  - apply findMatch_first. vm_compute. reflexivity.
  - right. vm_compute. reflexivity.
  - discriminate.
  - vm_compute. reflexivity.
Defined.

(** C2 does not extend to the empty string: it is a string that does not
    parse to a finite number, and on a numeric parameter the command
    throws "Value is required.", not the finite-number error. *)
Lemma samplerSet_empty_value_counterexample :
  ~ (forall (engine : Engine) (isTrueBoolean : string -> bool) (w : page)
            (s v : string) (l : list SamplerParameter.t) (p : SamplerParameter.t),
        enumerateSamplerParameters (doc w) = Ok l ->
        firstMatch (keyOf s) l p ->
        isNumeric p ->
        JsNumber.isFinite (JsNumber.parseFloat v) = false ->
        samplerSet isTrueBoolean {| argName := JsValue.Str s |} (JsValue.Str v) w
        = (Throw finiteNumberError, w)).
Proof.
  intros H.
  specialize (H Sample.engine (String.eqb "true") Sample.page0 "Temperature"
                EmptyString Sample.enumeration Sample.temperatureParameter).
  assert (Hrun : samplerSet (String.eqb "true")
                   {| argName := JsValue.Str "Temperature" |}
                   (JsValue.Str EmptyString) Sample.page0
                 = (Throw (Error "Value is required."), Sample.page0))
    by (vm_compute; reflexivity).
  rewrite Hrun in H.
  assert (Habs : (Throw (Error "Value is required."), Sample.page0)
                 = (@Throw string finiteNumberError, Sample.page0)).
  { apply H.
    - vm_compute. reflexivity.
    - apply findMatch_first. vm_compute. reflexivity.
    - right. vm_compute. reflexivity.
    - vm_compute. reflexivity. }
  discriminate Habs.
Qed.

(** The guard [!value] takes the empty string for a missing value on a
    checkbox as well. *)
Lemma samplerSet_empty_value_on_checkbox :
  samplerSet (String.eqb "true") {| argName := JsValue.Str "stream" |}
    (JsValue.Str EmptyString) Sample.page0
  = (Throw (Error "Value is required."), Sample.page0).
Proof. vm_compute. reflexivity. Qed.



(** C4. [sampler-get] trims the argument and puts it in lower case,
    takes the first parameter, in the order in which the enumerator
    returned them, whose name or id equals it up to case, and returns
    ["true"] or ["false"] after the control's checked state for a
    checkbox, and the string of the control's value rounded by the
    enumerator for a numeric control. *)
Theorem samplerGet_returns_first_match {engine : Engine}
        (d : document) (s : string) (l : list SamplerParameter.t)
        (p : SamplerParameter.t) :
  enumerateSamplerParameters d = Ok l ->
  firstMatch (toLowerCase (JsString.trim s)) l p ->
  exists c,
    elementAt d (SamplerParameter.control p) = Some c
    /\ (isBoolean p \/ isNumeric p)
    /\ (isBoolean p ->
        samplerGet (JsValue.Str s) d = Ok (if checked c then "true" else "false"))
    /\ (isNumeric p ->
        samplerGet (JsValue.Str s) d
        = Ok (JsNumber.toString
                (roundToPrecision
                   (JsValue.Number (JsNumber.parseFloat (value c)))))).
Proof.
  intros Hl Hf. fold (keyOf s) in Hf.
  pose proof (enumerate_enumerated _ _ Hl) as Hall.
  destruct (firstMatch_In _ _ _ Hf) as [Hin Hm].
  assert (Hp : enumerated d p) by (eapply Forall_forall; eassumption).
  pose proof (enumerated_kind _ _ Hp) as Hkind.
  pose proof (samplerGet_found _ _ _ _ Hl Hf) as Hget.
  destruct Hp as (c & t & Hc & _ & _ & _ & _ & _ & _ & _ & _ & Hp).
  assert (Hchecked : SamplerParameter.checked p = checked c) by (now rewrite Hp).
  assert (Hvalue : SamplerParameter.value p
                   = roundToPrecision (JsValue.Number (JsNumber.parseFloat (value c))))
    by (now rewrite Hp).
  exists c. repeat split; [exact Hc | exact Hkind | |].
  - intros Hb. unfold isBoolean in Hb. rewrite Hget, Hb, Hchecked. reflexivity.
  - intros Hn. rewrite Hget, (numeric_not_checkbox _ Hn), Hvalue. reflexivity.
Qed.

(** On the sample panel [" TEMP "] is the id of the first control and the
    label of a later one, whose label sorts first; the first control's
    value is returned. On the panel in another language the title padded
    with no-break spaces answers to ["top k"], and the title with the
    capital E acute to the name with the small one. *)
Lemma samplerGet_returns_first_match_witness :
  samplerGet (JsValue.Str " TEMP ") Sample.panel = Ok "1"
  /\ samplerGet (JsValue.Str "top k") Sample.localised = Ok "40"
  /\ samplerGet (JsValue.Str (Sample.nbsp ++ JsString.fromCodePoint 233
                               ++ "chantillonnage"))
       Sample.localised = Ok "true".
Proof.
  split; [|split].
  - destruct (samplerGet_returns_first_match Sample.panel " TEMP "
                Sample.enumeration Sample.temperatureParameter)
      as (c & Hc & _ & _ & Hnum).
    + vm_compute. reflexivity.
    + apply findMatch_first. vm_compute. reflexivity.
    + rewrite Hnum by (right; vm_compute; reflexivity).
      vm_compute in Hc. injection Hc as <-. vm_compute. reflexivity.
  - destruct (samplerGet_returns_first_match Sample.localised "top k"
                Sample.localisedEnumeration
                (nth 0 Sample.localisedEnumeration Sample.seedParameter))
      as (c & Hc & _ & _ & Hnum).
    + vm_compute. reflexivity.
    + apply findMatch_first. vm_compute. reflexivity.
    + rewrite Hnum by (left; vm_compute; reflexivity).
      vm_compute in Hc. injection Hc as <-. vm_compute. reflexivity.
  - destruct (samplerGet_returns_first_match Sample.localised
                (Sample.nbsp ++ JsString.fromCodePoint 233 ++ "chantillonnage")
                Sample.localisedEnumeration
                (nth 1 Sample.localisedEnumeration Sample.seedParameter))
      as (c & Hc & _ & Hbool & _).
    + vm_compute. reflexivity.
    + apply findMatch_first. vm_compute. reflexivity.
    + rewrite Hbool by (vm_compute; reflexivity).
      vm_compute in Hc. injection Hc as <-. vm_compute. reflexivity.
Defined.

(** On the sample panel the checkbox labelled "Stream" is checked. *)
Lemma samplerGet_stream :
  samplerGet (JsValue.Str "STREAM") Sample.panel = Ok "true".
Proof. vm_compute. reflexivity. Qed.

(** C5. The id is what is left of the raw identifier after six
    replacements in a row, for ['_counter'], ['_textgenerationwebui'],
    ['_openai'], ['_novel'], ['openai_'] and ['oai_'] in this order, each
    cutting the leftmost occurrence of its token out of the string
    wherever it stands, and each applied whatever the control is. *)
Theorem sanitizeId_strips_in_order (raw : string) :
  exists s1 s2 s3 s4 s5,
    strips "_counter" raw s1
    /\ strips "_textgenerationwebui" s1 s2
    /\ strips "_openai" s2 s3
    /\ strips "_novel" s3 s4
    /\ strips "openai_" s4 s5
    /\ strips "oai_" s5 (sanitizeId raw).
Proof.
  unfold sanitizeId. do 5 eexists. repeat split; apply replace_strips.
Qed.

(** A token in the middle of the identifier goes as well. *)
Lemma sanitizeId_mid_string :
  sanitizeId "max_openai_tokens_counter" = "max_tokens".
Proof. reflexivity. Qed.

(** C6. Every parameter the enumerator returns has a non-empty id and a
    non-empty name, and a control whose sanitized id is empty, or whose
    resolved name is undefined or empty, is the control of none of
    them. *)
Theorem enumerated_have_id_and_name (d : document) (l : list SamplerParameter.t) :
  enumerateSamplerParameters d = Ok l ->
  (forall p, In p l ->
     SamplerParameter.id p <> EmptyString
     /\ exists s, SamplerParameter.name p = Some s /\ s <> EmptyString)
  /\ (forall r c,
         elementAt d r = Some c ->
         sanitizeId (id c) = EmptyString
         \/ titleOf d r = Ok None
         \/ titleOf d r = Ok (Some EmptyString) ->
         forall p, In p l -> SamplerParameter.control p <> r).
Proof.
  intros Hl. pose proof (enumerate_enumerated _ _ Hl) as Hall.
  rewrite Forall_forall in Hall. split.
  - intros p Hin.
    destruct (Hall p Hin) as (c & s & _ & _ & _ & _ & _ & _ & _ & Hid & Hs & Hp).
    assert (Hpid : SamplerParameter.id p = sanitizeId (id c)) by (now rewrite Hp).
    assert (Hname : SamplerParameter.name p = Some s) by (now rewrite Hp).
    split.
    + rewrite Hpid. intros H. rewrite H in Hid. discriminate.
    + exists s. split; [exact Hname|]. intros H. rewrite H in Hs. discriminate.
  - intros r c Hc Hempty p Hin Hr.
    destruct (Hall p Hin) as (c' & s & Hc' & _ & _ & _ & _ & _ & Ht & Hid & Hs & _).
    rewrite Hr in Hc', Ht. assert (c' = c) by congruence. subst c'.
    destruct Hempty as [H|[H|H]].
    + rewrite H in Hid. discriminate.
    + congruence.
    + rewrite Ht in H. injection H as ->. discriminate.
Qed.

(** The checkbox without an id is left out, and so is the control whose
    only label is a no-break space: its name is empty once trimmed. *)
Lemma enumerated_have_id_and_name_witness :
  (SamplerParameter.id Sample.seedParameter <> EmptyString
   /\ exists s, SamplerParameter.name Sample.seedParameter = Some s
                /\ s <> EmptyString)
  /\ (forall p, In p Sample.enumeration ->
        SamplerParameter.control p <> Sample.anonymousControl)
  /\ (forall p, In p Sample.localisedEnumeration ->
        SamplerParameter.control p <> Sample.blankControl).
Proof.
  destruct (enumerated_have_id_and_name Sample.panel Sample.enumeration)
    as [Hfirst Hsecond].
  - vm_compute. reflexivity.
  - split; [|split].
    + apply Hfirst. vm_compute. auto.
    + eapply Hsecond.
      * vm_compute. reflexivity.
      * left. vm_compute. reflexivity.
    + destruct (enumerated_have_id_and_name Sample.localised
                  Sample.localisedEnumeration) as [_ Hblank].
      * vm_compute. reflexivity.
      * eapply Hblank.
        -- vm_compute. reflexivity.
        -- right. right. vm_compute. reflexivity.
Defined.

(** C7. The enumerator does not throw: on every document it returns a
    list, and the empty list when no element of the document has the
    panel's id. *)
Theorem enumerate_never_raises (d : document) :
  (exists l, enumerateSamplerParameters d = Ok l)
  /\ ((forall r e, elementAt d r = Some e -> id e <> "left-nav-panel") ->
      enumerateSamplerParameters d = Ok []).
Proof.
  split; [apply enumerate_returns|].
  intros Habsent. unfold enumerateSamplerParameters.
  destruct (getElementById d "left-nav-panel") as [r|] eqn:Hg; [|reflexivity].
  destruct (getElementById_sound _ _ _ Hg) as (e & He & Hid).
  exfalso. exact (Habsent r e He Hid).
Qed.

Lemma enumerate_never_raises_witness :
  enumerateSamplerParameters Sample.bare = Ok [].
Proof.
  apply (enumerate_never_raises Sample.bare).
  intros r e. unfold elementAt, lookup.
  destruct (rev r) as [|[|i] [|[|j] [|[|k] t]]]; try discriminate;
    try (destruct i; discriminate); try (destruct j; discriminate);
    intros H; injection H as <-; discriminate.
Defined.

(** C8. A control that lies inside the element with id [openai_settings]
    is the control of no enumerated parameter, whatever its type and its
    visibility. *)
Theorem excluded_region_is_skipped
        (d : document) (l : list SamplerParameter.t) (r : ref) :
  enumerateSamplerParameters d = Ok l ->
  inside d "openai_settings" r ->
  forall p, In p l -> SamplerParameter.control p <> r.
Proof.
  intros Hl (below & a & e & Hr & He & Hid) p Hin Hp.
  pose proof (enumerate_enumerated _ _ Hl) as Hall.
  rewrite Forall_forall in Hall.
  destruct (Hall p Hin) as (c & s & _ & _ & _ & _ & _ & Hcl & _).
  rewrite Hp, Hr in Hcl. apply closestFrom_none in Hcl.
  unfold matchesAt in Hcl. rewrite He in Hcl.
  unfold matchesElement in Hcl. cbn [existsb forallb matchesSimple] in Hcl.
  rewrite Hid in Hcl. vm_compute in Hcl. discriminate Hcl.
Qed.

(** The range slider of the other provider is visible and of a selected
    kind, and is left out. *)
Lemma excluded_region_is_skipped_witness :
  isVisible Sample.panel Sample.openaiControl = Ok true
  /\ matchesAt Sample.panel controlSelector Sample.openaiControl = true
  /\ forall p, In p Sample.enumeration ->
               SamplerParameter.control p <> Sample.openaiControl.
Proof.
  split; [vm_compute; reflexivity|]. split; [vm_compute; reflexivity|].
  apply (excluded_region_is_skipped Sample.panel Sample.enumeration
           Sample.openaiControl).
  - vm_compute. reflexivity.
  - exists [1; 0], [5; 0; 0; 1; 0]. eexists.
    split; [reflexivity|]. split; [vm_compute; reflexivity | reflexivity].
Defined.




(** From 4 upwards adding the epsilon changes nothing at all: 4.00055 is
    stored just under the half as well. *)
Lemma roundToPrecision_epsilon_absorbed :
  JsNumber.add (JsNumber.parseFloat "4.00055") JsNumber.EPSILON
  = JsNumber.parseFloat "4.00055"
  /\ roundToPrecision (JsValue.Number (JsNumber.parseFloat "4.00055"))
     = JsNumber.parseFloat "4.0005".
Proof. split; vm_compute; reflexivity. Qed.



End Properties.

(** ** Further properties of the commands *)

Section CommandEdges.
Import Dom.

Lemma nth_error_updateNth_other {A : Type} (g : A -> A) (l : list A) (i j : nat) :
  i <> j -> nth_error (updateNth i g l) j = nth_error l j.
Proof.
  revert i j; induction l as [|a l IH]; intros [|i] [|j] H; simpl; auto.
  contradiction.
Qed.

Lemma nodeAt_cons (i : nat) (rest : list nat) (ns : list node) :
  nodeAt (i :: rest) ns =
  match nth_error ns i with
  | None => None
  | Some n =>
      match rest, n with
      | [], _ => Some n
      | _ :: _, Elem _ kids => nodeAt rest kids
      | _ :: _, Text _ => None
      end
  end.
Proof. reflexivity. Qed.

(** Writing at one path leaves the element at every other path as it
    was. *)
Lemma nodeAt_updateAt_other (f : element -> element) (q : list nat) :
  forall p ns,
    p <> q ->
    elementOf (nodeAt q (updateAt p f ns)) = elementOf (nodeAt q ns).
Proof.
  induction q as [|j q IH]; intros p ns Hne; [reflexivity|].
  destruct p as [|i p]; [reflexivity|].
  cbn [updateAt]. rewrite !nodeAt_cons.
  destruct (Nat.eq_dec i j) as [->|Hij].
  - rewrite nth_error_updateNth.
    destruct (nth_error ns j) as [[t|e kids]|]; cbn [option_map]; try reflexivity.
    destruct p as [|i' p].
    + destruct q as [|j' q]; [congruence | reflexivity].
    + destruct q as [|j' q]; [reflexivity|].
      apply IH. congruence.
  - now rewrite nth_error_updateNth_other.
Qed.

Lemma elementAt_update_other (d : document) (r x : ref) (f : element -> element) :
  x <> r -> elementAt (update d r f) x = elementAt d x.
Proof.
  intros Hne. unfold elementAt, update, lookup.
  change (elementOf (nodeAt (rev x) (updateAt (rev r) f d))
          = elementOf (nodeAt (rev x) d)).
  apply nodeAt_updateAt_other. intros H. apply Hne.
  rewrite <- (rev_involutive x), <- (rev_involutive r). now f_equal.
Qed.

Lemma setValue_writesState {engine : Engine} (v : string) : writesState (setValue v).
Proof. intros e. repeat split. Qed.

Lemma setChecked_writesState (b : bool) : writesState (setChecked b).
Proof. intros e. repeat split. Qed.

Lemma samplerGet_notFound {engine : Engine} (d : document) (s : string) (l : list SamplerParameter.t) :
  enumerateSamplerParameters d = Ok l ->
  JsValue.nonEmpty s = true ->
  noMatch (keyOf s) l ->
  samplerGet (JsValue.Str s) d = Throw (notFound (keyOf s)).
Proof.
  intros Hl Hs Hno.
  pose proof (enumerate_enumerated _ _ Hl) as Hall.
  unfold samplerGet. cbn [JsValue.toBoolean]. rewrite Hs. cbn [negb].
  fold (keyOf s). rewrite Hl. cbn [bind].
  rewrite (findArray_none _ _ _ Hall Hno). reflexivity.
Qed.

(** X1. [sampler-get] throws in three cases and no other: "Parameter name
    is required." when the guard [!name] fires, "Parameter name must be a
    string." on any other value that is not a string, and the not-found
    error when no enumerated parameter has the name or id. The not-found
    message quotes the name as it was compared, trimmed and in lower case,
    not as it was given. *)
Theorem samplerGet_raises_exactly {engine : Engine}
        (name : JsValue.value) (d : document) (l : list SamplerParameter.t) :
  enumerateSamplerParameters d = Ok l ->
  (missing name ->
   samplerGet name d = Throw (Error "Parameter name is required."))
  /\ (~ missing name -> JsValue.isString name = false ->
      samplerGet name d = Throw (Error "Parameter name must be a string."))
  /\ (forall s, name = JsValue.Str s -> ~ missing name -> noMatch (keyOf s) l ->
        samplerGet name d
        = Throw (Error ("Parameter " ++ quote ++ toLowerCase (JsString.trim s)
                        ++ quote ++ " not found.")))
  /\ ((exists e, samplerGet name d = Throw e) <->
      (missing name
       \/ JsValue.isString name = false
       \/ exists s, name = JsValue.Str s /\ noMatch (keyOf s) l)).
Proof.
  intros Hl. pose proof (enumerate_enumerated _ _ Hl) as Hall.
  unfold missing.
  assert (Hreq : JsValue.toBoolean name = false ->
                 samplerGet name d = Throw (Error "Parameter name is required.")).
  { intros H. unfold samplerGet. now rewrite H. }
  assert (Hstr : JsValue.toBoolean name = true -> JsValue.isString name = false ->
                 samplerGet name d = Throw (Error "Parameter name must be a string.")).
  { intros H1 H2. unfold samplerGet. rewrite H1. cbn [negb].
    destruct name; try reflexivity; discriminate. }
  assert (Hnf : forall s, name = JsValue.Str s -> JsValue.toBoolean name = true ->
                          noMatch (keyOf s) l ->
                          samplerGet name d = Throw (notFound (keyOf s))).
  { intros s -> H Hno. now apply samplerGet_notFound with (l := l). }
  split; [exact Hreq|]. split.
  { intros H1 H2. apply Hstr; [|exact H2].
    destruct (JsValue.toBoolean name); [reflexivity | now contradiction H1]. }
  split.
  { intros s Hs H1 Hno. apply (Hnf s Hs); [|exact Hno].
    destruct (JsValue.toBoolean name); [reflexivity | now contradiction H1]. }
  destruct (JsValue.toBoolean name) eqn:Hb.
  2: { split; [intros _; now left | intros _; rewrite (Hreq eq_refl); eauto]. }
  destruct (JsValue.isString name) eqn:Hs.
  2: { split; [intros _; right; now left | intros _; rewrite (Hstr eq_refl eq_refl); eauto]. }
  destruct name as [| |b|n|s]; try discriminate Hs.
  destruct (match_or_not _ (keyOf s) l Hall) as [[p Hf]|Hno].
  - rewrite (samplerGet_found _ _ _ _ Hl Hf). split.
    + intros [e He]. discriminate He.
    + intros [H|[H|(s' & Hs' & Hno)]]; try discriminate.
      injection Hs' as <-. destruct (firstMatch_In _ _ _ Hf) as [Hin Hm].
      exfalso. exact (Hno p Hin Hm).
  - rewrite (Hnf s eq_refl eq_refl Hno). split.
    + intros _. right. right. now exists s.
    + intros _. eauto.
Qed.

(** The name is quoted as it was compared: without the spaces around it,
    no-break spaces among them, and in lower case, the capital E acute
    included. *)
Lemma samplerGet_raises_exactly_witness :
  samplerGet (JsValue.Str "  Top_P ") Sample.panel
  = Throw (Error ("Parameter " ++ quote ++ "top_p" ++ quote ++ " not found."))
  /\ samplerGet (JsValue.Str (Sample.nbsp ++ JsString.fromCodePoint 201 ++ "T"
                               ++ JsString.fromCodePoint 201 ++ Sample.nbsp))
       Sample.localised
     = Throw (Error ("Parameter " ++ quote
                     ++ JsString.fromCodePoint 233 ++ "t" ++ JsString.fromCodePoint 233
                     ++ quote ++ " not found.")).
Proof.
  split.
  - destruct (samplerGet_raises_exactly (JsValue.Str "  Top_P ") Sample.panel
                Sample.enumeration) as (_ & _ & Hnf & _).
    + vm_compute. reflexivity.
    + apply (Hnf "  Top_P " eq_refl).
      * discriminate.
      * apply findMatch_none. vm_compute. reflexivity.
  - destruct (samplerGet_raises_exactly
                (JsValue.Str (Sample.nbsp ++ JsString.fromCodePoint 201 ++ "T"
                              ++ JsString.fromCodePoint 201 ++ Sample.nbsp))
                Sample.localised Sample.localisedEnumeration) as (_ & _ & Hnf & _).
    + vm_compute. reflexivity.
    + refine (Hnf _ eq_refl _ _).
      * discriminate.
      * apply findMatch_none. vm_compute. reflexivity.
Defined.

(** X2. On a checkbox [sampler-set] accepts every non-empty string: the
    control's checked state becomes [isTrueBoolean(value)], its value and
    everything else of it stay as they were, and one [input] event that
    bubbles is dispatched. A word that is not a truth value is not an
    error. *)
Theorem samplerSet_checkbox {engine : Engine}
        (isTrueBoolean : string -> bool) (w : page) (s v : string)
        (l : list SamplerParameter.t) (p : SamplerParameter.t) :
  enumerateSamplerParameters (doc w) = Ok l ->
  firstMatch (keyOf s) l p ->
  isBoolean p ->
  v <> EmptyString ->
  exists c c' w',
    samplerSet isTrueBoolean {| argName := JsValue.Str s |} (JsValue.Str v) w
    = (Ok EmptyString, w')
    /\ elementAt (doc w) (SamplerParameter.control p) = Some c
    /\ elementAt (doc w') (SamplerParameter.control p) = Some c'
    /\ checked c' = isTrueBoolean v
    /\ value c' = value c
    /\ alike c c'
    /\ dispatched w'
       = (dispatched w
          ++ [{| target := SamplerParameter.control p; type := "input";
                 bubbles := true |}])%list.
Proof.
  intros Hl Hf Hbool Hv.
  pose proof (enumerate_enumerated _ _ Hl) as Hall.
  destruct (firstMatch_In _ _ _ Hf) as [Hin Hm].
  assert (Hp : enumerated (doc w) p) by (eapply Forall_forall; eassumption).
  destruct Hp as (c & t & Hc & _).
  exists c, (setChecked (isTrueBoolean v) c). eexists. split.
  - rewrite (samplerSet_found isTrueBoolean _ _ _ _ _ Hl Hf). unfold outcome.
    destruct v as [|a v]; [contradiction|].
    cbn [JsValue.toBoolean JsValue.nonEmpty negb].
    unfold isBoolean in Hbool. rewrite Hbool. reflexivity.
  - cbn [written doc dispatched].
    split; [exact Hc|]. split; [now apply elementAt_update|].
    split; [reflexivity|]. split; [reflexivity|].
    split; [|reflexivity]. unfold alike. cbn. tauto.
Qed.

(** The streaming box of the sample panel is checked; ["perhaps"] is no
    truth value and unchecks it, ["true"] leaves it checked. *)
Lemma samplerSet_checkbox_witness :
  (exists c' w',
      samplerSet (String.eqb "true") {| argName := JsValue.Str "stream" |}
        (JsValue.Str "perhaps") Sample.page0 = (Ok EmptyString, w')
      /\ elementAt (doc w') [0; 1; 0; 0; 1; 0] = Some c'
      /\ checked c' = false
      /\ value c' = "on"
      /\ dispatched w'
         = [{| target := [0; 1; 0; 0; 1; 0]; type := "input"; bubbles := true |}])
  /\ (exists c' w',
         samplerSet (String.eqb "true") {| argName := JsValue.Str "stream" |}
           (JsValue.Str "true") Sample.page0 = (Ok EmptyString, w')
         /\ elementAt (doc w') [0; 1; 0; 0; 1; 0] = Some c'
         /\ checked c' = true).
Proof.
  assert (Hl : enumerateSamplerParameters (doc Sample.page0) = Ok Sample.enumeration)
    by (vm_compute; reflexivity).
  assert (Hf : firstMatch (keyOf "stream") Sample.enumeration
                 (nth 1 Sample.enumeration Sample.seedParameter))
    by (apply findMatch_first; vm_compute; reflexivity).
  split.
  - destruct (samplerSet_checkbox (String.eqb "true") Sample.page0 "stream" "perhaps"
                Sample.enumeration (nth 1 Sample.enumeration Sample.seedParameter)
                Hl Hf eq_refl ltac:(discriminate))
      as (c & c' & w' & Hrun & Hc & Hc' & Hchecked & Hval & _ & Hev).
    exists c', w'. split; [exact Hrun|]. split; [exact Hc'|].
    split; [exact Hchecked|]. split; [|exact Hev].
    rewrite Hval. vm_compute in Hc. injection Hc as <-. reflexivity.
  - destruct (samplerSet_checkbox (String.eqb "true") Sample.page0 "stream" "true"
                Sample.enumeration (nth 1 Sample.enumeration Sample.seedParameter)
                Hl Hf eq_refl ltac:(discriminate))
      as (c & c' & w' & Hrun & Hc & Hc' & Hchecked & _).
    exists c', w'. split; [exact Hrun|]. split; [exact Hc'|]. exact Hchecked.
Defined.

(** X3. [sampler-set] does all or nothing. When it throws, the page is as
    it was. When it returns, it returns the empty string, exactly one
    event has been added to the log, on the control of an enumerated
    parameter, that control differs from before in its value or in its
    checked state only, and every other element of the document is as it
    was. *)
Theorem samplerSet_all_or_nothing {engine : Engine}
        (isTrueBoolean : string -> bool) (args : namedArguments)
        (value : JsValue.value) (w w' : page) (r : result string) :
  samplerSet isTrueBoolean args value w = (r, w') ->
  (forall e, r = Throw e -> w' = w)
  /\ (forall out, r = Ok out ->
        out = EmptyString
        /\ exists l p c f,
             enumerateSamplerParameters (doc w) = Ok l
             /\ In p l
             /\ elementAt (doc w) (SamplerParameter.control p) = Some c
             /\ writesState f
             /\ elementAt (doc w') (SamplerParameter.control p) = Some (f c)
             /\ (forall x, x <> SamplerParameter.control p ->
                           elementAt (doc w') x = elementAt (doc w) x)
             /\ dispatched w'
                = (dispatched w ++ [inputEvent (SamplerParameter.control p)])%list).
Proof.
  intros Hrun.
  destruct (enumerate_returns (doc w)) as [l Hl].
  pose proof (enumerate_enumerated _ _ Hl) as Hall.
  destruct args as [name].
  destruct (JsValue.toBoolean name) eqn:Hn.
  2: { unfold samplerSet in Hrun. cbn [argName] in Hrun. rewrite Hn in Hrun.
       injection Hrun as <- <-. split; [reflexivity | discriminate]. }
  destruct name as [| |b|n|s]; try discriminate Hn.
  1, 2: unfold samplerSet in Hrun; cbn [argName] in Hrun; rewrite Hn in Hrun;
        injection Hrun as <- <-; (split; [reflexivity | discriminate]).
  cbn [JsValue.toBoolean] in Hn.
  destruct (match_or_not _ (keyOf s) l Hall) as [[p Hf]|Hno].
  2: { rewrite (samplerSet_notFound isTrueBoolean _ _ value _ Hl Hn Hno) in Hrun.
       injection Hrun as <- <-. split; [reflexivity | discriminate]. }
  destruct (firstMatch_In _ _ _ Hf) as [Hin Hm].
  assert (Hp : enumerated (doc w) p) by (eapply Forall_forall; eassumption).
  destruct Hp as (c & t & Hc & _).
  rewrite (samplerSet_found isTrueBoolean _ _ value _ _ Hl Hf) in Hrun.
  unfold outcome in Hrun.
  assert (Hwritten : forall f,
             writesState f ->
             (Ok EmptyString, written w p f) = (r, w') ->
             (forall e, r = Throw e -> w' = w)
             /\ (forall out, r = Ok out ->
                   out = EmptyString
                   /\ exists l p c f,
                        enumerateSamplerParameters (doc w) = Ok l
                        /\ In p l
                        /\ elementAt (doc w) (SamplerParameter.control p) = Some c
                        /\ writesState f
                        /\ elementAt (doc w') (SamplerParameter.control p) = Some (f c)
                        /\ (forall x, x <> SamplerParameter.control p ->
                                      elementAt (doc w') x = elementAt (doc w) x)
                        /\ dispatched w'
                           = (dispatched w
                              ++ [inputEvent (SamplerParameter.control p)])%list)).
  { intros f Hfw H. injection H as <- <-. split; [discriminate|].
    intros out Hout. injection Hout as <-. split; [reflexivity|].
    exists l, p, c, f. cbn [written doc dispatched].
    split; [exact Hl|]. split; [exact Hin|]. split; [exact Hc|].
    split; [exact Hfw|]. split; [now apply elementAt_update|].
    split; [|reflexivity].
    intros x Hx. now apply elementAt_update_other. }
  destruct (JsValue.toBoolean value); cbn [negb] in Hrun.
  2: { injection Hrun as <- <-. split; [reflexivity | discriminate]. }
  destruct value as [| |b|n|v];
    try (injection Hrun as <- <-; split; [reflexivity | discriminate]).
  destruct (String.eqb (SamplerParameter.type p) "checkbox").
  - exact (Hwritten _ (setChecked_writesState _) Hrun).
  - destruct (JsNumber.isFinite (JsNumber.parseFloat v)).
    + exact (Hwritten _ (setValue_writesState _) Hrun).
    + injection Hrun as <- <-. split; [reflexivity | discriminate].
Qed.

Lemma samplerSet_all_or_nothing_witness :
  elementAt
    (doc (snd (samplerSet (String.eqb "true")
                 {| argName := JsValue.Str "temp" |}
                 (JsValue.Str "0.5") Sample.page0)))
    (SamplerParameter.control Sample.seedParameter)
  = elementAt Sample.panel (SamplerParameter.control Sample.seedParameter).
Proof.
  destruct (samplerSet (String.eqb "true") {| argName := JsValue.Str "temp" |}
              (JsValue.Str "0.5") Sample.page0) as [r w'] eqn:Hrun.
  destruct (samplerSet_all_or_nothing _ _ _ _ _ _ Hrun) as [_ Hok].
  assert (Hr : r = Ok EmptyString)
    by (vm_compute in Hrun; injection Hrun as <- _; reflexivity).
  destruct (Hok _ Hr) as (_ & l & p & c & f & Hl & Hin & Hc & _ & _ & Hframe & Hev).
  assert (Hp : SamplerParameter.control p = Sample.temperatureControl).
  { vm_compute in Hrun. injection Hrun as _ <-. cbn [dispatched] in Hev.
    injection Hev as Hev. symmetry. exact Hev. }
  rewrite Hp in Hframe. apply Hframe.
  intros Heq. vm_compute in Heq. discriminate Heq.
Defined.

End CommandEdges.

(** ** Further properties of the traversal *)

Section TraversalFacts.
Import Dom.

Lemma forest_In (r : ref) (kids : list node) :
  forall i j k y,
    nth_error kids j = Some k ->
    In y (elementsOf ((i + j) :: r) k) ->
    In y (forest r i kids).
Proof.
  induction kids as [|k0 kids IH]; intros i j k y Hj Hy.
  - destruct j; discriminate.
  - cbn [forest]. apply in_or_app. destruct j as [|j].
    + injection Hj as ->. rewrite Nat.add_0_r in Hy. now left.
    + right. apply (IH (S i) j k); [exact Hj|].
      now rewrite Nat.add_succ_r in Hy.
Qed.

Lemma elementsOf_complete (t : list nat) :
  forall n r e ks,
    descend n t = Some (Elem e ks) ->
    In ((rev t ++ r)%list, e) (elementsOf r n).
Proof.
  induction t as [|j t IH]; intros n r e ks H.
  - cbn in H. injection H as ->. rewrite elementsOf_forest. now left.
  - cbn [descend] in H. destruct n as [s|e0 kids]; [discriminate|].
    destruct (nth_error kids j) as [k|] eqn:Hj; [|discriminate].
    rewrite elementsOf_forest. right.
    apply (forest_In r kids 0 j k); [exact Hj|].
    cbn [rev Nat.add]. rewrite <- app_assoc. cbn [app].
    now apply IH with (ks := ks).
Qed.

(** The traversal lists every element below [r]. *)
Lemma descendants_complete (d : document) (r below : ref) (e : element) :
  (exists e0, elementAt d r = Some e0) ->
  below <> [] ->
  elementAt d (below ++ r)%list = Some e ->
  In ((below ++ r)%list, e) (descendants d r).
Proof.
  intros [e0 Hr] Hne He. unfold descendants, elementAt, lookup in *.
  destruct (nodeAt (rev r) d) as [[s|e0' kids]|] eqn:Hn; try discriminate.
  rewrite rev_app_distr in He.
  destruct (rev below) as [|j t] eqn:Hb.
  { apply (f_equal (@rev nat)) in Hb. rewrite rev_involutive in Hb. contradiction. }
  rewrite (nodeAt_below _ _ _ _ _ _ Hn) in He.
  destruct (nth_error kids j) as [k|] eqn:Hj; [|discriminate].
  destruct (descend k t) as [[s|e' ks]|] eqn:Hd; try discriminate.
  injection He as ->.
  assert (Hbelow : below = (rev t ++ [j])%list).
  { rewrite <- (rev_involutive below), Hb. reflexivity. }
  rewrite Hbelow, <- app_assoc. cbn [app].
  apply (forest_In r kids 0 j k); [exact Hj|].
  now apply elementsOf_complete with (ks := ks).
Qed.

(** Every listed reference lies below the root of the traversal. *)
Lemma descendants_below (d : document) (r x : ref) (e : element) :
  In (x, e) (descendants d r) ->
  (exists e0, elementAt d r = Some e0)
  /\ exists below, x = (below ++ r)%list /\ below <> [].
Proof.
  unfold descendants, elementAt.
  destruct (lookup d r) as [[s|e0 kids]|]; try contradiction.
  intros Hin. split; [now exists e0|].
  destruct (forest_listed r kids (forest_all_listed kids) 0 x e Hin)
    as (j & k & q & ks & _ & -> & _).
  exists (q ++ [0 + j])%list. split.
  - now rewrite <- app_assoc.
  - intros H. apply app_eq_nil in H. destruct H as [_ H]. discriminate.
Qed.

(** *** No reference is listed twice *)

Lemma same_tail (q q' r : ref) (i i' : nat) :
  (q ++ i :: r)%list = (q' ++ i' :: r)%list -> i = i'.
Proof.
  intros H. apply (f_equal (@rev nat)) in H.
  rewrite !rev_app_distr in H. cbn [rev] in H. rewrite <- !app_assoc in H.
  apply app_inv_head in H. cbn [app] in H. now injection H.
Qed.

Lemma forest_listedOnce (r : ref) (kids : list node) :
  Forall listedOnce kids -> forall i, NoDup (map fst (forest r i kids)).
Proof.
  induction 1 as [|k kids Hk Hkids IH]; intros i; cbn [forest map].
  - constructor.
  - rewrite map_app. apply NoDup_app.
    + apply Hk.
    + apply IH.
    + intros x Hx Hx'. apply in_map_iff in Hx. destruct Hx as ([x1 e1] & <- & Hx).
      apply in_map_iff in Hx'. destruct Hx' as ([x2 e2] & Heq & Hx').
      cbn [fst] in *. subst x2.
      destruct (elementsOf_listed k _ _ _ Hx) as (q & ks & -> & _).
      destruct (forest_listed r kids (forest_all_listed kids) _ _ _ Hx')
        as (j & k' & q' & ks' & _ & Heq & _).
      apply same_tail in Heq. lia.
Qed.

Lemma elementsOf_listedOnce (n : node) : listedOnce n.
Proof.
  induction n as [s|e0 kids IH] using node_induction; intros r.
  - constructor.
  - rewrite elementsOf_forest. cbn [map fst]. constructor.
    + intros Hin. apply in_map_iff in Hin. destruct Hin as ([x e] & Heq & Hin).
      cbn [fst] in Heq. subst x.
      destruct (forest_listed r kids (forest_all_listed kids) _ _ _ Hin)
        as (j & k & q & ks & _ & Heq & _).
      apply (f_equal (@List.length nat)) in Heq. rewrite List.length_app in Heq.
      cbn [List.length] in Heq. lia.
    + now apply forest_listedOnce.
Qed.

Lemma NoDup_map_filter {A B : Type} (g : A -> B) (f : A -> bool) (l : list A) :
  NoDup (map g l) -> NoDup (map g (filter f l)).
Proof.
  induction l as [|a l IH]; cbn [map filter]; intros H; [constructor|].
  inversion H as [|? ? Hnotin Hnodup]; subst.
  destruct (f a); cbn [map]; [|now apply IH].
  constructor; [|now apply IH].
  intros Hin. apply Hnotin. apply in_map_iff in Hin.
  destruct Hin as (a' & Ha' & Hin). apply filter_In in Hin.
  apply in_map_iff. exists a'. tauto.
Qed.

Lemma selectAll_NoDup (d : document) (sel : selector) (r : ref) :
  NoDup (selectAll d sel r).
Proof.
  unfold selectAll. apply NoDup_map_filter. unfold descendants.
  destruct (lookup d r) as [[s|e kids]|]; try constructor.
  apply forest_listedOnce. apply Forall_forall. intros k _.
  apply elementsOf_listedOnce.
Qed.

Lemma selectAll_complete (d : document) (sel : selector) (r below : ref)
      (e : element) :
  (exists e0, elementAt d r = Some e0) ->
  below <> [] ->
  elementAt d (below ++ r)%list = Some e ->
  matchesElement sel e = true ->
  In (below ++ r)%list (selectAll d sel r).
Proof.
  intros Hr Hne He Hm. unfold selectAll. apply in_map_iff.
  exists ((below ++ r)%list, e). split; [reflexivity|].
  apply filter_In. split; [|exact Hm]. now apply descendants_complete.
Qed.

Lemma selectAll_below (d : document) (sel : selector) (r x : ref) :
  In x (selectAll d sel r) ->
  exists below, x = (below ++ r)%list /\ below <> [].
Proof.
  unfold selectAll. intros Hin. apply in_map_iff in Hin.
  destruct Hin as ([x' e] & <- & Hin). apply filter_In in Hin.
  destruct Hin as [Hin _]. now apply descendants_below in Hin.
Qed.

(** *** Ancestors that match *)

Lemma closestFrom_some (d : document) (sel : selector) (r a : ref) :
  closestFrom d sel r = Some a ->
  exists below, r = (below ++ a)%list /\ matchesAt d sel a = true.
Proof.
  induction r as [|i r IH]; cbn [closestFrom].
  - destruct (matchesAt d sel []) eqn:Hm; [|discriminate].
    intros H. injection H as <-. now exists [].
  - destruct (matchesAt d sel (i :: r)) eqn:Hm.
    + intros H. injection H as <-. now exists [].
    + intros H. destruct (IH H) as (below & -> & Ha).
      now exists (i :: below).
Qed.

Lemma matchesAt_id (d : document) (i : string) (a : ref) :
  matchesAt d [[SId i]] a = true <->
  exists e, elementAt d a = Some e /\ id e = i.
Proof.
  unfold matchesAt. destruct (elementAt d a) as [e|].
  - unfold matchesElement. cbn [existsb forallb matchesSimple].
    rewrite orb_false_r, andb_true_r, String.eqb_eq. split.
    + intros H. now exists e.
    + intros (e' & He' & H). congruence.
  - split; [discriminate | intros (e & He & _); discriminate].
Qed.

(** [closest('#i')] is [null] exactly for the controls outside the
    element with that id. *)
Lemma closestFrom_inside (d : document) (i : string) (r : ref) :
  closestFrom d [[SId i]] r = None <-> ~ inside d i r.
Proof.
  split.
  - intros Hcl (below & a & e & -> & He & Hid).
    apply closestFrom_none in Hcl.
    assert (matchesAt d [[SId i]] a = true) by (apply matchesAt_id; now exists e).
    congruence.
  - intros Hout. destruct (closestFrom d [[SId i]] r) as [a|] eqn:Hcl; [|reflexivity].
    exfalso. apply Hout. destruct (closestFrom_some _ _ _ _ Hcl) as (below & -> & Hm).
    apply matchesAt_id in Hm. destruct Hm as (e & He & Hid).
    now exists below, a, e.
Qed.

End TraversalFacts.

(** ** Further properties of the enumerator *)

Section EnumeratorExact.
Import Dom.

Lemma hasVisibleAncestorFrom_false (d : document) (stop : selector) (r : ref) :
  hasVisibleAncestorFrom d r stop = Ok false <-> hiddenWithin d stop r.
Proof.
  induction r as [|i p IH].
  - split; [discriminate|].
    intros (below & a & e & Heq & He & _). symmetry in Heq.
    apply app_eq_nil in Heq. destruct Heq as [_ ->]. discriminate.
  - assert (Hself : forall below a,
               i :: p = (below ++ a)%list ->
               (forall pre post,
                   below = (pre ++ post)%list ->
                   isHTMLElement d (Some (post ++ a)%list) = true
                   /\ matchesAt d stop (post ++ a)%list = false) ->
               isHTMLElement d (Some (i :: p)) = true
               /\ matchesAt d stop (i :: p) = false).
    { intros below a Heq Hchain. rewrite Heq. now apply (Hchain [] below). }
    cbn [hasVisibleAncestorFrom isHTMLElement]. unfold matchesAt in Hself.
    cbn [isHTMLElement] in Hself.
    destruct (elementAt d (i :: p)) as [e|] eqn:He.
    2: { split; [discriminate|].
         intros (below & a & e & Heq & _ & _ & Hchain).
         destruct (Hself _ _ Heq Hchain) as [Hh _]. discriminate. }
    destruct (isHTML e) eqn:Hhtml.
    2: { split; [discriminate|].
         intros (below & a & e' & Heq & _ & _ & Hchain).
         destruct (Hself _ _ Heq Hchain) as [Hh _]. discriminate. }
    destruct (receiver_element _ _ _ He) as [kids Hrec].
    unfold matches, properties. rewrite Hrec. cbn [bind fst snd].
    destruct (matchesElement stop e) eqn:Hm.
    { split; [discriminate|].
      intros (below & a & e' & Heq & _ & _ & Hchain).
      destruct (Hself _ _ Heq Hchain) as [_ Hn]. discriminate. }
    assert (Hhere : isHTMLElement d (Some (i :: p)) = true
                    /\ matchesAt d stop (i :: p) = false).
    { unfold matchesAt. cbn [isHTMLElement]. rewrite He. now split. }
    destruct (isHidden e) eqn:Hhid.
    { split; [intros _|reflexivity].
      exists [], (i :: p), e. split; [reflexivity|]. split; [exact He|].
      split; [exact Hhid|].
      intros pre post H. destruct pre, post; try discriminate H. exact Hhere. }
    rewrite IH. split.
    + intros (below & a & e' & -> & He' & Hhid' & Hchain).
      exists (i :: below), a, e'. split; [reflexivity|]. split; [exact He'|].
      split; [exact Hhid'|].
      intros pre post H. destruct pre as [|i' pre]; cbn [app] in H.
      * subst post. exact Hhere.
      * injection H as _ H. now apply (Hchain pre post).
    + intros (below & a & e' & Heq & He' & Hhid' & Hchain).
      destruct below as [|i' below]; cbn [app] in Heq.
      * subst a. congruence.
      * injection Heq as <- ->. exists below, a, e'.
        split; [reflexivity|]. split; [exact He'|]. split; [exact Hhid'|].
        intros pre post H. apply (Hchain (i :: pre) post). cbn [app]. now f_equal.
Qed.

(** X4. [hasVisibleAncestor] answers [false] exactly when, walking up from
    the element, a hidden element ([display] none, [visibility] hidden or
    [opacity] 0) comes before the first element that matches the stop
    selector or is not an HTML element; it answers [true] in every other
    case and never throws. The element that matches the stop selector, and
    everything above it, is not looked at. *)
Theorem hasVisibleAncestor_exactly (d : document) (stop : selector) (r : ref) :
  (hasVisibleAncestor d (Some r) stop = Ok false <-> hiddenWithin d stop r)
  /\ (hasVisibleAncestor d (Some r) stop = Ok true <-> ~ hiddenWithin d stop r).
Proof.
  cbn [hasVisibleAncestor]. split; [apply hasVisibleAncestorFrom_false|].
  destruct (hasVisibleAncestorFrom_returns d stop r) as [[|] Hb]; rewrite Hb.
  - split; [|reflexivity]. intros _ H.
    apply hasVisibleAncestorFrom_false in H. congruence.
  - split; [discriminate|]. intros H. exfalso. apply H.
    now apply hasVisibleAncestorFrom_false.
Qed.

(** In the folded panel the slider sits three levels under a wrapper that
    is not displayed; in the closed panel the only element not displayed
    is the one that matches the stop selector. *)
Lemma hasVisibleAncestor_exactly_witness :
  hiddenWithin Sample.folded [[SId "ai_response_configuration"]]
    [1; 0; 0; 0; 0; 0; 1; 0]
  /\ ~ hiddenWithin Sample.closed [[SId "ai_response_configuration"]]
       [1; 0; 0; 0; 1; 0].
Proof.
  split.
  - apply (hasVisibleAncestor_exactly Sample.folded
             [[SId "ai_response_configuration"]] [1; 0; 0; 0; 0; 0; 1; 0]).
    vm_compute. reflexivity.
  - apply (hasVisibleAncestor_exactly Sample.closed
             [[SId "ai_response_configuration"]] [1; 0; 0; 0; 1; 0]).
    vm_compute. reflexivity.
Defined.

Lemma isVisible_true (d : document) (x : ref) (c : element) :
  elementAt d x = Some c ->
  (isVisible d x = Ok true <->
   isHTML c = true /\ ~ hiddenWithin d [[SId "ai_response_configuration"]] x).
Proof.
  intros Hc. unfold isVisible. cbn [isHTMLElement]. rewrite Hc.
  destruct (isHTML c).
  - rewrite (proj2 (hasVisibleAncestor_exactly d _ x)). tauto.
  - split; [discriminate | intros [H _]; discriminate].
Qed.

Lemma controlSelector_input (c : element) :
  matchesElement controlSelector c = true -> tagName c = "input".
Proof.
  unfold matchesElement, controlSelector. cbn [existsb forallb matchesSimple].
  rewrite !orb_true_iff, !andb_true_iff, String.eqb_eq.
  intros [H|[H|[H|H]]]; try discriminate; tauto.
Qed.

Lemma filterArray_members {A : Type} (f : A -> result bool) (l l' : list A) (x : A) :
  filterArray f l = Ok l' -> (In x l' <-> In x l /\ f x = Ok true).
Proof.
  intros H. split; [now apply filterArray_In with (l := l)|].
  revert l' H. induction l as [|y l IH]; cbn [filterArray]; intros l' H [Hin Hx].
  - contradiction.
  - destruct (f y) as [keep|] eqn:Hy; [|discriminate]. cbn [bind] in H.
    destruct (filterArray f l) as [rest|]; [|discriminate]. cbn [bind] in H.
    injection H as <-. destruct Hin as [->|Hin].
    + rewrite Hx in Hy. injection Hy as <-. now left.
    + specialize (IH _ eq_refl (conj Hin Hx)). destruct keep; [now right | exact IH].
Qed.

Lemma filterArray_NoDup {A : Type} (f : A -> result bool) (l l' : list A) :
  filterArray f l = Ok l' -> NoDup l -> NoDup l'.
Proof.
  revert l'. induction l as [|y l IH]; cbn [filterArray]; intros l' H Hnd.
  - injection H as <-. constructor.
  - destruct (f y) as [keep|] eqn:Hy; [|discriminate]. cbn [bind] in H.
    destruct (filterArray f l) as [rest|] eqn:Hrest; [|discriminate].
    cbn [bind] in H. injection H as <-.
    inversion Hnd as [|? ? Hnotin Hnd']; subst.
    destruct keep; [|now apply IH].
    constructor; [|now apply IH].
    intros Hin. apply Hnotin. now apply (filterArray_In f l rest y Hrest).
Qed.

(** One turn of the loop: either the control is pushed, as the parameter
    built from its element and its name, or it is passed over. *)
Lemma collect_cons (d : document) (x : ref) (rest : list ref)
      (acc : list SamplerParameter.t) :
  (exists c s,
      pushes d x c s
      /\ collect d (x :: rest) acc = collect d rest (acc ++ [samplerOf x c s]))
  \/ ((forall c s, ~ pushes d x c s)
      /\ collect d (x :: rest) acc = collect d rest acc).
Proof.
  cbn [collect].
  destruct (isHTMLInputElement d (Some x)) eqn:Hin; cbn [negb].
  2: { right. split; [|reflexivity].
       intros c s (Hc & Hh & Ht & _). cbn [isHTMLInputElement] in Hin.
       rewrite Hc, Hh, Ht in Hin. discriminate. }
  destruct (isHTMLInputElement_element _ _ Hin) as (c & Hc & Hhtml & Htag).
  destruct (receiver_element _ _ _ Hc) as [kids Hrec].
  unfold closest, properties. rewrite Hrec. cbn [bind fst snd].
  destruct (closestFrom d [[SId "openai_settings"]] x) eqn:Hcl.
  { right. split; [|reflexivity]. intros c' s (_ & _ & _ & H & _). congruence. }
  destruct (titleOf_returns _ _ _ Hc) as [name Ht]. rewrite Ht. cbn [bind].
  cbn [SamplerParameter.id SamplerParameter.name].
  destruct (JsValue.nonEmpty (sanitizeId (id c))) eqn:Hid; cbn [negb orb].
  2: { right. split; [|reflexivity].
       intros c' s (Hc' & _ & _ & _ & _ & H & _).
       assert (c' = c) by congruence. subst c'. congruence. }
  destruct name as [s|]; cbn [noName].
  2: { right. split; [|reflexivity]. intros c' s (_ & _ & _ & _ & H & _). congruence. }
  destruct (JsValue.nonEmpty s) eqn:Hs; cbn [negb].
  2: { right. split; [|reflexivity].
       intros c' s' (_ & _ & _ & _ & H & _ & H').
       assert (s' = s) by congruence. subst s'. congruence. }
  left. exists c, s. split; [|reflexivity]. unfold pushes. tauto.
Qed.

Lemma collect_members (d : document) (xs : list ref) :
  forall acc l,
    collect d xs acc = Ok l ->
    forall p,
      In p l <->
      In p acc \/ exists x c s, In x xs /\ pushes d x c s /\ p = samplerOf x c s.
Proof.
  induction xs as [|x xs IH]; intros acc l Hl p.
  - cbn [collect] in Hl. injection Hl as <-. split; [now left|].
    intros [H|(x & _ & _ & [] & _)]. exact H.
  - destruct (collect_cons d x xs acc) as [(c & s & Hpush & Heq)|[Hno Heq]];
      rewrite Heq in Hl; rewrite (IH _ _ Hl p).
    + rewrite in_app_iff. cbn [In]. split.
      * intros [[H|[<-|[]]]|(y & c' & s' & Hy & Hp & ->)].
        -- now left.
        -- right. exists x, c, s. split; [now left|]. split; [exact Hpush|reflexivity].
        -- right. exists y, c', s'. split; [now right|]. split; [exact Hp|reflexivity].
      * intros [H|(y & c' & s' & [<-|Hy] & Hp & ->)].
        -- left. now left.
        -- left. right. left. destruct Hpush as (Hc & _ & _ & _ & Ht & _).
           destruct Hp as (Hc' & _ & _ & _ & Ht' & _).
           assert (c' = c) by congruence. assert (s' = s) by congruence.
           now subst.
        -- right. exists y, c', s'. split; [exact Hy|]. split; [exact Hp|reflexivity].
    + split.
      * intros [H|(y & c' & s' & Hy & Hp & ->)]; [now left|].
        right. exists y, c', s'. split; [now right|]. split; [exact Hp|reflexivity].
      * intros [H|(y & c' & s' & [<-|Hy] & Hp & ->)]; [now left | |].
        -- exfalso. exact (Hno _ _ Hp).
        -- right. exists y, c', s'. split; [exact Hy|]. split; [exact Hp|reflexivity].
Qed.

Lemma collect_NoDup (d : document) (xs : list ref) :
  forall acc l,
    collect d xs acc = Ok l ->
    NoDup xs ->
    NoDup (map SamplerParameter.control acc) ->
    (forall p, In p acc -> ~ In (SamplerParameter.control p) xs) ->
    NoDup (map SamplerParameter.control l).
Proof.
  induction xs as [|x xs IH]; intros acc l Hl Hxs Hacc Hfresh.
  - cbn [collect] in Hl. now injection Hl as <-.
  - inversion Hxs as [|? ? Hx Hxs']; subst.
    assert (Hfresh' : forall p, In p acc -> ~ In (SamplerParameter.control p) xs).
    { intros p Hp H. apply (Hfresh p Hp). now right. }
    destruct (collect_cons d x xs acc) as [(c & s & Hpush & Heq)|[Hno Heq]];
      rewrite Heq in Hl; apply (IH _ _ Hl Hxs'); try assumption.
    + rewrite map_app. cbn [map samplerOf SamplerParameter.control].
      apply NoDup_app; [exact Hacc | repeat constructor; intros [] |].
      intros y Hy [<-|[]]. apply in_map_iff in Hy. destruct Hy as (p & Hp & Hin).
      apply (Hfresh p Hin). rewrite Hp. now left.
    + intros p Hp. apply in_app_or in Hp. destruct Hp as [Hp|[<-|[]]].
      * now apply Hfresh'.
      * exact Hx.
Qed.

(** X5. The enumeration is exactly the eligible controls, each once. A
    parameter is returned if and only if its control lies under
    [#left-nav-panel], is an HTML element selected by the control
    selector, has no hidden element on the way up to
    [#ai_response_configuration], is not inside [#openai_settings], and
    has a non-empty sanitized id and a non-empty resolved name; its
    fields are then those read from that control; and no control is the
    control of two parameters. *)
Theorem enumerate_exactly (d : document) (l : list SamplerParameter.t) :
  enumerateSamplerParameters d = Ok l ->
  (forall p,
      In p l <->
      exists c s,
        eligible d (SamplerParameter.control p) c s
        /\ p = samplerOf (SamplerParameter.control p) c s)
  /\ NoDup (map SamplerParameter.control l).
Proof.
  unfold enumerateSamplerParameters.
  destruct (isHTMLElement d (getElementById d "left-nav-panel")) eqn:Hh;
    cbn [negb].
  2: { intros H. injection H as <-. split; [|constructor].
       intros p. split; [contradiction|].
       intros (c & s & ((panel & below & Hg & Hp & _) & _) & _).
       rewrite Hg in Hh. congruence. }
  destruct (isHTMLElement_element _ _ Hh) as (panel & e & Hg & He & _).
  rewrite Hg in *.
  destruct (receiver_element _ _ _ He) as [kids Hrec].
  unfold querySelectorAll. rewrite Hrec. cbn [bind fst snd].
  destruct (filterArray (isVisible d) (selectAll d controlSelector panel))
    as [rs|] eqn:Hf; cbn [bind]; [|discriminate].
  intros Hcol. split.
  - intros p. rewrite (collect_members d rs [] l Hcol p). split.
    + intros [[]|(x & c & s & Hx & Hpush & ->)].
      cbn [samplerOf SamplerParameter.control]. exists c, s. split; [|reflexivity].
      apply (filterArray_members _ _ _ x Hf) in Hx. destruct Hx as [Hsel Hvis].
      destruct Hpush as (Hc & Hhtml & Htag & Hcl & Ht & Hid & Hs).
      destruct (selectAll_below _ _ _ _ Hsel) as (below & Hbelow & Hne).
      destruct (selectAll_sound _ _ _ _ Hsel) as (c' & Hc' & Hm).
      assert (c' = c) by congruence. subst c'.
      apply (isVisible_true d x c Hc) in Hvis.
      unfold eligible. repeat split; try tauto.
      * exists panel, below. now repeat split.
      * now apply closestFrom_inside.
    + intros (c & s & (Hpanel & Hc & Hhtml & Hm & Hvis & Hout & Ht & Hid & Hs) & Hp).
      right. exists (SamplerParameter.control p), c, s.
      destruct Hpanel as (panel' & below & Hg' & _ & Hbelow & Hne).
      assert (panel' = panel) by congruence. subst panel'.
      split; [|split; [|exact Hp]].
      * apply (filterArray_members _ _ _ _ Hf). split.
        -- rewrite Hbelow. apply selectAll_complete with (e := c);
             [now exists e | exact Hne | now rewrite <- Hbelow | exact Hm].
        -- apply (isVisible_true d _ c Hc). now split.
      * unfold pushes. repeat split; try assumption.
        -- now apply controlSelector_input.
        -- now apply closestFrom_inside.
  - apply (collect_NoDup d rs [] l Hcol).
    + apply (filterArray_NoDup _ _ _ Hf). apply selectAll_NoDup.
    + constructor.
    + intros p [].
Qed.

(** On the panel in another language the control under the title padded
    with no-break spaces is eligible under the name without them, and the
    control whose only label is a no-break space is not eligible. *)
Lemma enumerate_exactly_witness :
  (exists c s,
      eligible Sample.panel Sample.temperatureControl c s
      /\ Sample.temperatureParameter = samplerOf Sample.temperatureControl c s)
  /\ NoDup (map SamplerParameter.control Sample.enumeration)
  /\ (exists c, eligible Sample.localised Sample.topKControl c "Top K")
  /\ ~ (exists c s, eligible Sample.localised Sample.blankControl c s).
Proof.
  destruct (enumerate_exactly Sample.panel Sample.enumeration) as [Hiff Hnd].
  - vm_compute. reflexivity.
  - split; [|split; [exact Hnd|]].
    + apply (Hiff Sample.temperatureParameter). vm_compute. auto.
    + destruct (enumerate_exactly Sample.localised Sample.localisedEnumeration)
        as [Hloc _]; [vm_compute; reflexivity|].
      split.
      * destruct (proj1 (Hloc (nth 0 Sample.localisedEnumeration Sample.seedParameter)))
          as (c & t & Hel & Hp); [vm_compute; auto|].
        exists c. destruct Hel as (H1 & H2 & H3 & H4 & H5 & H6 & Ht & H8 & H9).
        assert (Hname : titleOf Sample.localised Sample.topKControl = Ok (Some "Top K"))
          by (vm_compute; reflexivity).
        change (SamplerParameter.control
                  (nth 0 Sample.localisedEnumeration Sample.seedParameter))
          with Sample.topKControl in *.
        rewrite Hname in Ht. injection Ht as <-.
        repeat (split; [assumption|]). assumption.
      * intros (c & t & Hel).
        destruct Hel as (_ & _ & _ & _ & _ & _ & Ht & _ & Hne).
        assert (Hname : titleOf Sample.localised Sample.blankControl
                        = Ok (Some EmptyString)) by (vm_compute; reflexivity).
        rewrite Hname in Ht. injection Ht as <-. discriminate Hne.
Defined.

(** *** Document order *)

Lemma ascending_app (l1 l2 : list ref) :
  ascending l1 -> ascending l2 ->
  (forall x y, In x l1 -> In y l2 -> precedes x y) ->
  ascending (l1 ++ l2).
Proof.
  induction l1 as [|a l1 IH]; cbn [app ascending]; intros H1 H2 H12; [exact H2|].
  destruct H1 as [Ha H1]. split.
  - intros y Hy. apply in_app_or in Hy. destruct Hy as [Hy|Hy].
    + now apply Ha.
    + apply H12; [now left | exact Hy].
  - apply IH; try assumption. intros x y Hx Hy. apply H12; [now right | exact Hy].
Qed.

Lemma ascending_later (l1 : list ref) (x : ref) (l2 : list ref) :
  ascending (l1 ++ x :: l2) -> forall y, In y l2 -> precedes x y.
Proof.
  induction l1 as [|a l1 IH]; cbn [app ascending]; intros [H1 H2];
    [exact H1 | exact (IH H2)].
Qed.

Lemma ascending_map_filter {A : Type} (g : A -> ref) (f : A -> bool) (l : list A) :
  ascending (map g l) -> ascending (map g (filter f l)).
Proof.
  induction l as [|a l IH]; cbn [map filter ascending]; intros H; [exact I|].
  destruct H as [Ha H]. destruct (f a); cbn [map ascending]; [|now apply IH].
  split; [|now apply IH].
  intros y Hy. apply Ha. apply in_map_iff in Hy. destruct Hy as (a' & <- & Hin).
  apply filter_In in Hin. apply in_map. tauto.
Qed.

Lemma forest_ascending (r : ref) (kids : list node) :
  Forall listedInOrder kids -> forall i, ascending (map fst (forest r i kids)).
Proof.
  induction 1 as [|k kids Hk Hkids IH]; intros i; cbn [forest map].
  - exact I.
  - rewrite map_app. apply ascending_app; [apply Hk | apply IH |].
    intros x y Hx Hy.
    apply in_map_iff in Hx. destruct Hx as ([x1 e1] & <- & Hx).
    apply in_map_iff in Hy. destruct Hy as ([y1 e2] & <- & Hy). cbn [fst].
    destruct (elementsOf_listed k _ _ _ Hx) as (q & ks & -> & _).
    destruct (forest_listed r kids (forest_all_listed kids) _ _ _ Hy)
      as (j & k' & q' & ks' & _ & -> & _).
    right. exists r, i, (S i + j), q, q'. repeat split. lia.
Qed.

Lemma elementsOf_ascending (n : node) : listedInOrder n.
Proof.
  induction n as [s|e0 kids IH] using node_induction; intros r.
  - exact I.
  - rewrite elementsOf_forest. cbn [map fst ascending]. split.
    + intros y Hy. apply in_map_iff in Hy. destruct Hy as ([y1 e] & <- & Hy).
      cbn [fst].
      destruct (forest_listed r kids (forest_all_listed kids) _ _ _ Hy)
        as (j & k & q & ks & _ & -> & _).
      left. exists (q ++ [0 + j])%list. split.
      * intros H. apply app_eq_nil in H. destruct H as [_ H]. discriminate.
      * now rewrite <- app_assoc.
    + now apply forest_ascending.
Qed.

Lemma selectAll_ascending (d : document) (sel : selector) (r : ref) :
  ascending (selectAll d sel r).
Proof.
  unfold selectAll. apply ascending_map_filter. unfold descendants.
  destruct (lookup d r) as [[s|e kids]|]; try exact I.
  apply forest_ascending. apply Forall_forall. intros k _.
  apply elementsOf_ascending.
Qed.

Lemma filterArray_ascending (f : ref -> result bool) (l l' : list ref) :
  filterArray f l = Ok l' -> ascending l -> ascending l'.
Proof.
  revert l'. induction l as [|y l IH]; cbn [filterArray]; intros l' H Hasc.
  - injection H as <-. exact I.
  - destruct (f y) as [keep|] eqn:Hy; [|discriminate]. cbn [bind] in H.
    destruct (filterArray f l) as [rest|] eqn:Hrest; [|discriminate].
    cbn [bind] in H. injection H as <-. destruct Hasc as [Hy' Hasc].
    destruct keep; [|now apply IH].
    split; [|now apply IH].
    intros z Hz. apply Hy'. now apply (filterArray_In f l rest z Hrest).
Qed.

Lemma collect_ascending (d : document) (xs : list ref) :
  forall acc l,
    collect d xs acc = Ok l ->
    ascending xs ->
    ascending (map SamplerParameter.control acc) ->
    (forall p x, In p acc -> In x xs -> precedes (SamplerParameter.control p) x) ->
    ascending (map SamplerParameter.control l).
Proof.
  induction xs as [|x xs IH]; intros acc l Hl Hxs Hacc Hcross.
  - cbn [collect] in Hl. now injection Hl as <-.
  - destruct Hxs as [Hx Hxs].
    assert (Hcross' : forall p y, In p acc -> In y xs ->
                                  precedes (SamplerParameter.control p) y).
    { intros p y Hp Hy. apply Hcross; [exact Hp | now right]. }
    destruct (collect_cons d x xs acc) as [(c & s & Hpush & Heq)|[Hno Heq]];
      rewrite Heq in Hl; apply (IH _ _ Hl Hxs); try assumption.
    + rewrite map_app. cbn [map samplerOf SamplerParameter.control].
      apply ascending_app; [exact Hacc | now split |].
      intros a b Ha [<-|[]]. apply in_map_iff in Ha. destruct Ha as (p & <- & Hp).
      apply Hcross; [exact Hp | now left].
    + intros p y Hp Hy. apply in_app_or in Hp. destruct Hp as [Hp|[<-|[]]].
      * now apply Hcross'.
      * cbn [samplerOf SamplerParameter.control]. now apply Hx.
Qed.

(** X6. The parameters come in document order: the control of every
    parameter of the enumeration stands before the controls of all the
    later ones, as an ancestor or through an earlier child of a common
    ancestor. *)
Theorem enumerate_in_document_order (d : document) (l : list SamplerParameter.t) :
  enumerateSamplerParameters d = Ok l ->
  forall before p after,
    l = (before ++ p :: after)%list ->
    forall q, In q after ->
              precedes (SamplerParameter.control p) (SamplerParameter.control q).
Proof.
  intros Hl.
  assert (Hasc : ascending (map SamplerParameter.control l)).
  { revert Hl. unfold enumerateSamplerParameters.
    destruct (isHTMLElement d (getElementById d "left-nav-panel")) eqn:Hh;
      cbn [negb]; [|intros H; injection H as <-; exact I].
    destruct (isHTMLElement_element _ _ Hh) as (panel & e & -> & He & _).
    destruct (receiver_element _ _ _ He) as [kids Hrec].
    unfold querySelectorAll. rewrite Hrec. cbn [bind fst snd].
    destruct (filterArray (isVisible d) (selectAll d controlSelector panel))
      as [rs|] eqn:Hf; cbn [bind]; [|discriminate].
    intros Hcol. apply (collect_ascending d rs [] l Hcol).
    - apply (filterArray_ascending _ _ _ Hf). apply selectAll_ascending.
    - exact I.
    - intros p x []. }
  intros before p after -> q Hq. rewrite map_app in Hasc. cbn [map] in Hasc.
  apply (ascending_later _ _ _ Hasc). now apply in_map.
Qed.

Lemma enumerate_in_document_order_witness :
  precedes Sample.temperatureControl
    (SamplerParameter.control Sample.seedParameter).
Proof.
  apply (enumerate_in_document_order Sample.panel Sample.enumeration)
    with (before := []) (p := Sample.temperatureParameter)
         (after := tl Sample.enumeration).
  - vm_compute. reflexivity.
  - reflexivity.
  - vm_compute. auto.
Defined.

(** X7. Every enumerated parameter belongs to an HTML [input] element
    whose [type] attribute is, up to case, [range], [checkbox] or
    [number]; the parameter's type is that keyword in lower case; and a
    [number] input that carries a [data-for] attribute is never
    enumerated. *)
Theorem enumerated_kinds (d : document) (l : list SamplerParameter.t)
        (p : SamplerParameter.t) :
  enumerateSamplerParameters d = Ok l ->
  In p l ->
  exists c t,
    elementAt d (SamplerParameter.control p) = Some c
    /\ isHTML c = true
    /\ tagName c = "input"
    /\ getAttribute (attributes c) "type" = Some t
    /\ SamplerParameter.type p = JsString.asciiLowerCase t
    /\ (SamplerParameter.type p = "range"
        \/ SamplerParameter.type p = "checkbox"
        \/ SamplerParameter.type p = "number")
    /\ (SamplerParameter.type p = "number" ->
        getAttribute (attributes c) "data-for" = None).
Proof.
  intros Hl Hin. pose proof (enumerate_enumerated _ _ Hl) as Hall.
  rewrite Forall_forall in Hall.
  destruct (Hall p Hin) as (c & s & Hc & Hhtml & Htag & Hm & _ & _ & _ & _ & _ & Hp).
  assert (Htype : SamplerParameter.type p = inputType c) by (now rewrite Hp).
  unfold matchesElement, controlSelector in Hm.
  cbn [existsb forallb matchesSimple] in Hm.
  unfold inputType, reflected in Htype.
  destruct (getAttribute (attributes c) "type") as [t|] eqn:Ht.
  2: { rewrite !andb_false_r in Hm. discriminate Hm. }
  exists c, t. rewrite Htype.
  rewrite !orb_true_iff, !andb_true_iff, !String.eqb_eq in Hm.
  destruct Hm as [(_ & H & _)|[(_ & H & _)|[(_ & H & Hfor & _)|H]]];
    try discriminate; rewrite H; cbn; repeat split; auto; try discriminate.
  intros _. now destruct (getAttribute (attributes c) "data-for").
Qed.

Lemma enumerated_kinds_witness :
  SamplerParameter.type Sample.seedParameter = "number"
  /\ exists c,
       elementAt Sample.panel (SamplerParameter.control Sample.seedParameter) = Some c
       /\ getAttribute (attributes c) "data-for" = None.
Proof.
  destruct (enumerated_kinds Sample.panel Sample.enumeration Sample.seedParameter)
    as (c & t & Hc & _ & _ & _ & _ & _ & Hfor).
  - vm_compute. reflexivity.
  - vm_compute. auto.
  - split; [reflexivity|]. exists c. split; [exact Hc|]. now apply Hfor.
Defined.

End EnumeratorExact.

(** ** The page after a write *)

Section SamePage.
Import Dom.

Lemma alike_refl (e : element) : alike e e.
Proof. repeat split. Qed.

Lemma alike_sym (e e' : element) : alike e e' -> alike e' e.
Proof. unfold alike. intuition congruence. Qed.

Lemma alike_written (f : element -> element) (e : element) :
  writesState f -> alike e (f e).
Proof. intros H. exact (H e). Qed.

Lemma similar_refl (n : node) : similar n n.
Proof.
  induction n as [s|e kids IH] using node_induction; constructor.
  - apply alike_refl.
  - induction IH; constructor; assumption.
Qed.

Lemma samePage_refl (d : document) : samePage d d.
Proof. induction d; constructor; [apply similar_refl | assumption]. Qed.

Lemma similar_sym (n : node) : forall n', similar n n' -> similar n' n.
Proof.
  induction n as [s|e kids IH] using node_induction; intros n' H;
    inversion H as [|? e' ? kids' Ha Hk]; subst; constructor.
  - now apply alike_sym.
  - clear H. revert IH. induction Hk as [|k k' ks ks' Hkk _ IHk]; intros IH;
      constructor; inversion IH; subst; auto.
Qed.

Lemma samePage_sym (d d' : document) : samePage d d' -> samePage d' d.
Proof.
  induction 1; constructor; [now apply similar_sym | assumption].
Qed.

Lemma Forall2_nth_error {A : Type} (R : A -> A -> Prop) (l l' : list A) (i : nat) :
  Forall2 R l l' -> bothOrNeither R (nth_error l i) (nth_error l' i).
Proof.
  intros H. revert i. induction H as [|a a' l l' Ha _ IH]; intros [|i]; cbn;
    auto.
Qed.

Lemma nodeAt_samePage (p : list nat) :
  forall ns ns', Forall2 similar ns ns' ->
                 bothOrNeither similar (nodeAt p ns) (nodeAt p ns').
Proof.
  induction p as [|i p IH]; intros ns ns' H; [exact I|].
  rewrite !nodeAt_cons.
  pose proof (Forall2_nth_error _ _ _ i H) as Hi.
  destruct (nth_error ns i) as [n|], (nth_error ns' i) as [n'|]; try contradiction;
    [|exact I].
  cbn [bothOrNeither] in Hi. destruct p as [|j p]; [exact Hi|].
  inversion Hi; subst; [exact I|]. now apply IH.
Qed.

Lemma updateNth_related {A : Type} (R : A -> A -> Prop) (g : A -> A)
      (l : list A) (i : nat) :
  (forall a, R a a) -> (forall a, R a (g a)) -> Forall2 R l (updateNth i g l).
Proof.
  intros Hrefl Hg. revert i. induction l as [|a l IH]; intros [|i]; cbn;
    constructor; auto.
  clear IH. induction l; constructor; auto.
Qed.

Lemma updateAt_samePage (f : element -> element) (p : list nat) :
  writesState f -> forall ns, Forall2 similar ns (updateAt p f ns).
Proof.
  intros Hf. induction p as [|i p IH]; intros ns; cbn [updateAt].
  - apply samePage_refl.
  - apply updateNth_related; [apply similar_refl|].
    intros [s|e kids]; [constructor|].
    destruct p as [|j p].
    + constructor; [now apply alike_written | apply samePage_refl].
    + constructor; [apply alike_refl | apply IH].
Qed.

(** A write to the state of a control gives the same page up to state. *)
Lemma update_samePage (d : document) (r : ref) (f : element -> element) :
  writesState f -> samePage d (update d r f).
Proof. intros Hf. now apply updateAt_samePage. Qed.

Section Transfer.
Variables d d' : document.
Hypothesis Hsame : samePage d d'.

Lemma lookup_samePage (x : ref) :
  bothOrNeither similar (lookup d x) (lookup d' x).
Proof. unfold lookup. now apply nodeAt_samePage. Qed.

Lemma elementAt_samePage (x : ref) :
  bothOrNeither alike (elementAt d x) (elementAt d' x).
Proof.
  unfold elementAt. pose proof (lookup_samePage x) as H.
  destruct (lookup d x) as [n|], (lookup d' x) as [n'|]; try contradiction;
    [|exact I].
  cbn in H. inversion H; subst; [exact I | assumption].
Qed.

Lemma elementAt_transfer (x : ref) (c : element) :
  elementAt d x = Some c -> exists c', elementAt d' x = Some c' /\ alike c c'.
Proof.
  intros Hc. pose proof (elementAt_samePage x) as H. rewrite Hc in H.
  destruct (elementAt d' x) as [c'|]; [|contradiction]. now exists c'.
Qed.

Lemma matchesSimple_alike (e e' : element) (m : simple) :
  alike e e' -> matchesSimple e' m = matchesSimple e m.
Proof.
  intros (_ & Htag & Hid & Hcl & Hattr & _).
  destruct m; cbn [matchesSimple]; now rewrite ?Htag, ?Hid, ?Hcl, ?Hattr.
Qed.

Lemma matchesElement_alike (sel : selector) (e e' : element) :
  alike e e' -> matchesElement sel e' = matchesElement sel e.
Proof.
  intros Ha. unfold matchesElement.
  induction sel as [|c sel IH]; cbn [existsb]; [reflexivity|].
  rewrite IH. f_equal.
  induction c as [|m c IHc]; cbn [forallb]; [reflexivity|].
  now rewrite IHc, (matchesSimple_alike _ _ m Ha).
Qed.

Lemma isHidden_alike (e e' : element) : alike e e' -> isHidden e' = isHidden e.
Proof.
  intros (_ & _ & _ & _ & _ & Hd & Hv & Ho). unfold isHidden.
  now rewrite Hd, Hv, Ho.
Qed.

Lemma matchesAt_samePage (sel : selector) (x : ref) :
  matchesAt d' sel x = matchesAt d sel x.
Proof.
  unfold matchesAt. pose proof (elementAt_samePage x) as H.
  destruct (elementAt d x) as [e|], (elementAt d' x) as [e'|]; try contradiction;
    [|reflexivity].
  now apply matchesElement_alike.
Qed.

Lemma isHTMLElement_samePage (h : handle) :
  isHTMLElement d' h = isHTMLElement d h.
Proof.
  destruct h as [x|]; [|reflexivity]. cbn [isHTMLElement].
  pose proof (elementAt_samePage x) as H.
  destruct (elementAt d x) as [e|], (elementAt d' x) as [e'|]; try contradiction;
    [|reflexivity].
  now destruct H as (-> & _).
Qed.

Lemma isHTMLInputElement_samePage (h : handle) :
  isHTMLInputElement d' h = isHTMLInputElement d h.
Proof.
  destruct h as [x|]; [|reflexivity]. cbn [isHTMLInputElement].
  pose proof (elementAt_samePage x) as H.
  destruct (elementAt d x) as [e|], (elementAt d' x) as [e'|]; try contradiction;
    [|reflexivity].
  now destruct H as (-> & -> & _).
Qed.

Lemma closestFrom_samePage (sel : selector) (r : ref) :
  closestFrom d' sel r = closestFrom d sel r.
Proof.
  induction r as [|i r IH]; cbn [closestFrom]; rewrite matchesAt_samePage;
    [reflexivity | now rewrite IH].
Qed.

End Transfer.

Lemma textOf_similar (n : node) : forall n', similar n n' -> textOf n' = textOf n.
Proof.
  induction n as [s|e kids IH] using node_induction; intros n' H;
    inversion H as [|? e' ? kids' Ha Hk]; subst; [reflexivity|].
  cbn [textOf]. clear H Ha. revert IH.
  induction Hk as [|k k' ks ks' Hkk _ IHk]; intros IH; [reflexivity|].
  inversion IH as [|? ? Hhead Htail]; subst.
  rewrite (Hhead _ Hkk). f_equal. now apply IHk.
Qed.

Lemma forest_similar_from (r : ref) (kids kids' : list node) :
  Forall2 similar kids kids' ->
  Forall (fun n => forall n' r, similar n n' ->
                                sameListing (elementsOf r n) (elementsOf r n')) kids ->
  forall i, sameListing (forest r i kids) (forest r i kids').
Proof.
  induction 1 as [|k k' ks ks' Hkk _ IHk]; intros IH i; cbn [forest].
  - constructor.
  - inversion IH as [|? ? Hhead Htail]; subst.
    apply Forall2_app; [now apply Hhead | now apply IHk].
Qed.

Lemma elementsOf_similar (n : node) :
  forall n' r, similar n n' -> sameListing (elementsOf r n) (elementsOf r n').
Proof.
  induction n as [s|e kids IH] using node_induction; intros n' r H;
    inversion H as [|? e' ? kids' Ha Hk]; subst; [constructor|].
  rewrite !elementsOf_forest. constructor; [now split|].
  now apply forest_similar_from.
Qed.

Lemma forest_similar (r : ref) (kids kids' : list node) (i : nat) :
  Forall2 similar kids kids' -> sameListing (forest r i kids) (forest r i kids').
Proof.
  intros H. apply forest_similar_from; [exact H|].
  apply Forall_forall. intros n _. apply elementsOf_similar.
Qed.

Lemma sameListing_select (P : element -> bool) (l l' : list (ref * element)) :
  (forall e e', alike e e' -> P e' = P e) ->
  sameListing l l' ->
  map fst (filter (fun re => P (snd re)) l')
  = map fst (filter (fun re => P (snd re)) l).
Proof.
  intros HP. induction 1 as [|a b l l' [Hf Ha] _ IH]; [reflexivity|].
  cbn [filter]. rewrite (HP _ _ Ha).
  destruct (P (snd a)); cbn [map]; now rewrite ?Hf, IH.
Qed.

Lemma getElementById_first (d : document) (i : string) :
  getElementById d i
  = hd_error (map fst (filter (fun re => String.eqb (id (snd re)) i)
                         (forest [] 0 d))).
Proof.
  unfold getElementById. now destruct (filter _ _).
Qed.

Section TransferMore.
Variables d d' : document.
Hypothesis Hsame : samePage d d'.

Lemma descendants_samePage (r : ref) :
  sameListing (descendants d r) (descendants d' r).
Proof.
  unfold descendants. pose proof (lookup_samePage d d' Hsame r) as H.
  destruct (lookup d r) as [n|], (lookup d' r) as [n'|]; try contradiction;
    [|constructor].
  cbn in H. inversion H; subst; [constructor|]. now apply forest_similar.
Qed.

Lemma selectAll_samePage (sel : selector) (r : ref) :
  selectAll d' sel r = selectAll d sel r.
Proof.
  unfold selectAll.
  apply (sameListing_select (matchesElement sel));
    [intros; now apply matchesElement_alike | apply descendants_samePage].
Qed.

Lemma getElementById_samePage (i : string) :
  getElementById d' i = getElementById d i.
Proof.
  rewrite !getElementById_first. f_equal.
  apply (sameListing_select (fun e => String.eqb (id e) i)).
  - intros e e' (_ & _ & -> & _). reflexivity.
  - now apply forest_similar.
Qed.

Lemma receiver_samePage (h : handle) :
  match receiver d h, receiver d' h with
  | Ok (r, e, kids), Ok (r', e', kids') =>
      r' = r /\ alike e e' /\ Forall2 similar kids kids'
  | Throw a, Throw a' => a' = a
  | _, _ => False
  end.
Proof.
  unfold receiver. destruct h as [x|]; [|reflexivity].
  pose proof (lookup_samePage d d' Hsame x) as H.
  destruct (lookup d x) as [n|], (lookup d' x) as [n'|]; try contradiction;
    [|reflexivity].
  cbn in H. inversion H; subst; [reflexivity|]. split; [reflexivity|]. now split.
Qed.

Lemma closest_samePage (h : handle) (sel : selector) :
  closest d' h sel = closest d h sel.
Proof.
  unfold closest. pose proof (receiver_samePage h) as H.
  destruct (receiver d h) as [[[r e] kids]|a], (receiver d' h) as [[[r' e'] kids']|a'];
    try contradiction; cbn [bind fst snd].
  - destruct H as (-> & _). now rewrite (closestFrom_samePage d d' Hsame).
  - now subst.
Qed.

Lemma matches_samePage (h : handle) (sel : selector) :
  matches d' h sel = matches d h sel.
Proof.
  unfold matches. pose proof (receiver_samePage h) as H.
  destruct (receiver d h) as [[[r e] kids]|a], (receiver d' h) as [[[r' e'] kids']|a'];
    try contradiction; cbn [bind fst snd].
  - destruct H as (_ & Ha & _). now rewrite (matchesElement_alike sel _ _ Ha).
  - now subst.
Qed.

Lemma querySelectorAll_samePage (h : handle) (sel : selector) :
  querySelectorAll d' h sel = querySelectorAll d h sel.
Proof.
  unfold querySelectorAll. pose proof (receiver_samePage h) as H.
  destruct (receiver d h) as [[[r e] kids]|a], (receiver d' h) as [[[r' e'] kids']|a'];
    try contradiction; cbn [bind fst snd].
  - destruct H as (-> & _). now rewrite selectAll_samePage.
  - now subst.
Qed.

Lemma querySelector_samePage (h : handle) (sel : selector) :
  querySelector d' h sel = querySelector d h sel.
Proof.
  unfold querySelector. pose proof (receiver_samePage h) as H.
  destruct (receiver d h) as [[[r e] kids]|a], (receiver d' h) as [[[r' e'] kids']|a'];
    try contradiction; cbn [bind fst snd].
  - destruct H as (-> & _). now rewrite selectAll_samePage.
  - now subst.
Qed.

Lemma textContent_samePage (h : handle) :
  textContent d' h = textContent d h.
Proof.
  unfold textContent. pose proof (receiver_samePage h) as H.
  destruct (receiver d h) as [[[r e] kids]|a], (receiver d' h) as [[[r' e'] kids']|a'];
    try contradiction; cbn [bind fst snd].
  - destruct H as (_ & Ha & Hk). f_equal.
    apply textOf_similar. now constructor.
  - now subst.
Qed.

Lemma hasText_samePage (h : handle) : hasText d' h = hasText d h.
Proof.
  unfold hasText.
  now rewrite (isHTMLElement_samePage d d' Hsame), textContent_samePage.
Qed.

Lemma getTitleParent_samePage (h : handle) :
  getTitleParent d' h = getTitleParent d h.
Proof.
  unfold getTitleParent.
  repeat (cbn [bind];
          rewrite ?closest_samePage, ?querySelector_samePage, ?hasText_samePage,
            ?(isHTMLElement_samePage d d' Hsame);
          match goal with
          | |- ?a = ?a => reflexivity
          | |- bind ?c _ = bind ?c _ => destruct c as [?|]
          | |- (if ?b then _ else _) = (if ?b then _ else _) => destruct b
          end).
Qed.

Lemma titleOf_samePage (x : ref) : titleOf d' x = titleOf d x.
Proof.
  unfold titleOf. rewrite getTitleParent_samePage.
  destruct (getTitleParent d (Some x)) as [[t|]|]; cbn [bind]; try reflexivity.
  now rewrite textContent_samePage.
Qed.

Lemma hasVisibleAncestorFrom_samePage (stop : selector) (r : ref) :
  hasVisibleAncestorFrom d' r stop = hasVisibleAncestorFrom d r stop.
Proof.
  induction r as [|i r IH]; cbn [hasVisibleAncestorFrom]; [reflexivity|].
  rewrite (isHTMLElement_samePage d d' Hsame), matches_samePage.
  match goal with |- context [isHTMLElement d ?h] => destruct (isHTMLElement d h) end;
    [|reflexivity].
  match goal with |- context [matches d ?h stop] => destruct (matches d h stop) as [[|]|] end;
    cbn [bind]; try reflexivity.
  unfold properties.
  match goal with |- context [receiver d ?h] => pose proof (receiver_samePage h) as H;
    destruct (receiver d h) as [[[x e] kids]|a],
             (receiver d' h) as [[[x' e'] kids']|a'] end;
    try contradiction; cbn [bind fst snd].
  - destruct H as (_ & Ha & _). rewrite (isHidden_alike _ _ Ha), IH. reflexivity.
  - now subst.
Qed.

Lemma isVisible_samePage (x : ref) : isVisible d' x = isVisible d x.
Proof.
  unfold isVisible, hasVisibleAncestor.
  now rewrite (isHTMLElement_samePage d d' Hsame), hasVisibleAncestorFrom_samePage.
Qed.

Lemma pushes_transfer (x : ref) (c : element) (s : string) :
  pushes d x c s -> exists c', alike c c' /\ pushes d' x c' s.
Proof.
  intros (Hc & Hhtml & Htag & Hcl & Ht & Hid & Hs).
  destruct (elementAt_transfer d d' Hsame x c Hc) as (c' & Hc' & Ha).
  exists c'. split; [exact Ha|].
  pose proof Ha as (Hh & Htg & Hi & _).
  unfold pushes. rewrite Hh, Htg, Hi, (closestFrom_samePage d d' Hsame), titleOf_samePage.
  now repeat split.
Qed.

End TransferMore.

Lemma filterArray_ext {A : Type} (f g : A -> result bool) (l : list A) :
  (forall x, f x = g x) -> filterArray f l = filterArray g l.
Proof.
  intros H. induction l as [|x l IH]; cbn [filterArray]; [reflexivity|].
  now rewrite H, IH.
Qed.

Lemma collect_samePage (d d' : document) (xs : list ref) :
  samePage d d' ->
  forall acc acc' l l',
    collect d xs acc = Ok l ->
    collect d' xs acc' = Ok l' ->
    Forall2 (sameParameter d d') acc acc' ->
    Forall2 (sameParameter d d') l l'.
Proof.
  intros Hsame. pose proof (samePage_sym _ _ Hsame) as Hsame'.
  induction xs as [|x xs IH]; intros acc acc' l l' Hl Hl' Hacc.
  - cbn [collect] in Hl, Hl'. injection Hl as <-. now injection Hl' as <-.
  - destruct (collect_cons d x xs acc) as [(c & s & Hp & Heq)|[Hno Heq]];
      rewrite Heq in Hl;
      destruct (collect_cons d' x xs acc') as [(c' & s' & Hp' & Heq')|[Hno' Heq']];
      rewrite Heq' in Hl'.
    + apply (IH _ _ _ _ Hl Hl'). apply Forall2_app; [exact Hacc|].
      constructor; [|constructor].
      destruct (pushes_transfer d d' Hsame x c s Hp) as (c2 & Ha & Hp2).
      assert (c2 = c') by (destruct Hp2 as (H2 & _), Hp' as (H' & _); congruence).
      assert (s' = s)
        by (destruct Hp2 as (_ & _ & _ & _ & H2 & _), Hp' as (_ & _ & _ & _ & H' & _);
            congruence).
      subst c2 s'. exists x, c, c', s.
      split; [exact Hp|]. split; [exact Hp'|]. split; [exact Ha|]. now split.
    + exfalso. destruct (pushes_transfer d d' Hsame x c s Hp) as (c2 & _ & Hp2).
      exact (Hno' _ _ Hp2).
    + exfalso. destruct (pushes_transfer d' d Hsame' x c' s' Hp') as (c2 & _ & Hp2).
      exact (Hno _ _ Hp2).
    + now apply (IH _ _ _ _ Hl Hl').
Qed.

(** Pages that differ only in the state of their controls have the same
    enumeration up to [value] and [checked]. *)
Lemma enumerate_samePage (d d' : document) (l : list SamplerParameter.t) :
  samePage d d' ->
  enumerateSamplerParameters d = Ok l ->
  exists l',
    enumerateSamplerParameters d' = Ok l'
    /\ Forall2 (sameParameter d d') l l'.
Proof.
  intros Hsame Hl. destruct (enumerate_returns d') as [l' Hl'].
  exists l'. split; [exact Hl'|].
  revert Hl Hl'. unfold enumerateSamplerParameters.
  rewrite (getElementById_samePage d d' Hsame), (isHTMLElement_samePage d d' Hsame).
  destruct (isHTMLElement d (getElementById d "left-nav-panel")); cbn [negb].
  2: { intros H H'. injection H as <-. injection H' as <-. constructor. }
  rewrite (querySelectorAll_samePage d d' Hsame).
  destruct (querySelectorAll d _ controlSelector) as [found|]; cbn [bind];
    [|discriminate].
  rewrite (filterArray_ext (isVisible d') (isVisible d) found
             (isVisible_samePage d d' Hsame)).
  destruct (filterArray (isVisible d) found) as [rs|]; cbn [bind]; [|discriminate].
  intros H H'. apply (collect_samePage d d' rs Hsame [] [] l l' H H'). constructor.
Qed.

End SamePage.

(** ** Reading back what was written *)

Section RoundTrip.
Import Dom.

Lemma sameParameter_fields (d d' : document) (p p' : SamplerParameter.t) :
  sameParameter d d' p p' -> sameButState p p'.
Proof.
  intros (x & c & c' & s & _ & _ & Ha & -> & ->).
  destruct Ha as (_ & _ & Hid & _ & Hattr & _).
  unfold sameButState, samplerOf, inputType, reflected.
  cbn [SamplerParameter.control SamplerParameter.id SamplerParameter.name
       SamplerParameter.min SamplerParameter.max SamplerParameter.type].
  now rewrite Hid, Hattr.
Qed.

Lemma sameButState_matchesKey {engine : Engine} (key : string) (p p' : SamplerParameter.t) :
  sameButState p p' -> (matchesKey key p' <-> matchesKey key p).
Proof.
  intros (_ & Hid & Hname & _). unfold matchesKey. now rewrite Hid, Hname.
Qed.

Lemma firstMatch_transfer {engine : Engine} (R : SamplerParameter.t -> SamplerParameter.t -> Prop)
      (key : string) (l l' : list SamplerParameter.t) (p : SamplerParameter.t) :
  (forall q q', R q q' -> sameButState q q') ->
  Forall2 R l l' ->
  firstMatch key l p ->
  exists p', firstMatch key l' p' /\ R p p'.
Proof.
  intros HR Hall (before & after & -> & Hp & Hbefore). revert l' Hall.
  induction before as [|b before IH]; intros l' Hall; cbn [app] in Hall;
    inversion Hall as [|? b' ? rest' Hb Hrest]; subst.
  - exists b'. split; [|exact Hb]. exists [], rest'. split; [reflexivity|].
    split; [|intros ? []].
    now apply (sameButState_matchesKey key p b' (HR _ _ Hb)).
  - destruct (IH (fun q Hq => Hbefore q (or_intror Hq)) _ Hrest)
      as (p' & (before' & after' & -> & Hp' & Hbefore') & Hpp').
    exists p'. split; [|exact Hpp']. exists (b' :: before'), after'.
    split; [reflexivity|]. split; [exact Hp'|].
    intros q [<-|Hq]; [|now apply Hbefore'].
    intros Hm. apply (sameButState_matchesKey key b b' (HR _ _ Hb)) in Hm.
    apply (Hbefore b); [now left | exact Hm].
Qed.

Lemma inputType_setValue {engine : Engine} (v : string) (c : element) :
  inputType (setValue v c) = inputType c.
Proof. reflexivity. Qed.

Lemma inputType_setChecked (b : bool) (c : element) :
  inputType (setChecked b c) = inputType c.
Proof. reflexivity. Qed.

(** The page [sampler-set] leaves behind: the page it found, or that
    page with the state of the first match written and one event more. *)
Lemma samplerSet_page {engine : Engine} (isTrueBoolean : string -> bool) (w : page) (s : string)
      (value : JsValue.value) (l : list SamplerParameter.t) (p : SamplerParameter.t) :
  enumerateSamplerParameters (doc w) = Ok l ->
  firstMatch (keyOf s) l p ->
  snd (samplerSet isTrueBoolean {| argName := JsValue.Str s |} value w) = w
  \/ exists f,
       writesState f
       /\ snd (samplerSet isTrueBoolean {| argName := JsValue.Str s |} value w)
          = written w p f.
Proof.
  intros Hl Hf. rewrite (samplerSet_found isTrueBoolean _ _ value _ _ Hl Hf).
  unfold outcome. destruct (JsValue.toBoolean value); cbn [negb]; [|now left].
  destruct value as [| |b|n|v]; try (now left).
  destruct (String.eqb (SamplerParameter.type p) "checkbox").
  - right. eexists. split; [apply setChecked_writesState | reflexivity].
  - destruct (JsNumber.isFinite (JsNumber.parseFloat v)); [|now left].
    right. eexists. split; [apply setValue_writesState | reflexivity].
Qed.

(** The first match after a write to [p] is [p] read again from the
    written control. *)
Lemma firstMatch_written {engine : Engine} (w : page) (key : string)
      (l : list SamplerParameter.t) (p q : SamplerParameter.t)
      (f : element -> element) :
  enumerateSamplerParameters (doc w) = Ok l ->
  writesState f ->
  firstMatch key l q ->
  exists l' c s,
    enumerateSamplerParameters (update (doc w) (SamplerParameter.control p) f) = Ok l'
    /\ Forall2 sameButState l l'
    /\ elementAt (doc w) (SamplerParameter.control q) = Some c
    /\ q = samplerOf (SamplerParameter.control q) c s
    /\ firstMatch key l'
         (samplerOf (SamplerParameter.control q)
            (if list_eq_dec Nat.eq_dec (SamplerParameter.control q)
                  (SamplerParameter.control p)
             then f c else c) s).
Proof.
  intros Hl Hfw Hq.
  pose proof (update_samePage (doc w) (SamplerParameter.control p) f Hfw) as Hsame.
  destruct (enumerate_samePage _ _ _ Hsame Hl) as (l' & Hl' & Hall).
  destruct (firstMatch_transfer _ key l l' q
              (sameParameter_fields _ _) Hall Hq) as (q' & Hq' & Hqq').
  destruct Hqq' as (x & c & c' & s & Hp1 & Hp2 & Ha & Hq1 & Hq2).
  assert (Hx : SamplerParameter.control q = x) by (now rewrite Hq1).
  exists l', c, s. split; [exact Hl'|]. split.
  { clear - Hall. induction Hall; constructor; auto.
    now apply (sameParameter_fields _ _ _ _ H). }
  rewrite Hx. destruct Hp1 as (Hc & _). split; [exact Hc|]. split; [exact Hq1|].
  destruct Hp2 as (Hc' & _). rewrite Hq2 in Hq'.
  destruct (list_eq_dec Nat.eq_dec x (SamplerParameter.control p)) as [Heq|Hne].
  - rewrite Heq in Hc, Hc'. rewrite (elementAt_update _ _ f _ Hc) in Hc'.
    injection Hc' as Hc'. now rewrite Hc'.
  - rewrite (elementAt_update_other _ _ _ f Hne), Hc in Hc'.
    injection Hc' as Hc'. now rewrite Hc'.
Qed.

(** X8. Reading back a numeric write. After [sampler-set] has accepted a
    value for a numeric parameter, [sampler-get] with the same name
    returns what the control holds, as the enumerator rounds it: the
    string of [roundToPrecision] applied to what the browser's setter made,
    for this control, of the string of the clamped number. *)
Theorem samplerGet_after_numeric_set {engine : Engine}
        (isTrueBoolean : string -> bool) (w : page) (s v : string)
        (l : list SamplerParameter.t) (p : SamplerParameter.t) :
  enumerateSamplerParameters (doc w) = Ok l ->
  firstMatch (keyOf s) l p ->
  isNumeric p ->
  JsNumber.isFinite (JsNumber.parseFloat v) = true ->
  let clamped :=
    JsNumber.min (JsNumber.max (JsNumber.parseFloat v) (SamplerParameter.min p))
      (SamplerParameter.max p) in
  exists c,
    elementAt (doc w) (SamplerParameter.control p) = Some c
    /\ samplerGet (JsValue.Str s)
         (doc (snd (samplerSet isTrueBoolean {| argName := JsValue.Str s |}
                      (JsValue.Str v) w)))
       = Ok (JsNumber.toString
               (roundToPrecision
                  (JsValue.Number
                     (JsNumber.parseFloat
                        (sanitize (attributes c) (JsNumber.toString clamped)))))).
Proof.
  intros Hl Hf Hnum Hfin clamped.
  assert (Hv : JsValue.nonEmpty v = true).
  { destruct v; [vm_compute in Hfin; discriminate Hfin | reflexivity]. }
  rewrite (samplerSet_found isTrueBoolean _ _ _ _ _ Hl Hf). unfold outcome.
  cbn [JsValue.toBoolean]. rewrite Hv. cbn [negb].
  rewrite (numeric_not_checkbox _ Hnum), Hfin. cbn [snd written doc].
  destruct (firstMatch_written w (keyOf s) l p p
              (setValue (JsNumber.toString (clamp p (JsNumber.parseFloat v))))
              Hl (setValue_writesState _) Hf)
    as (l' & c & t & Hl' & _ & Hc & Hp & Hf').
  destruct (list_eq_dec Nat.eq_dec (SamplerParameter.control p)
              (SamplerParameter.control p)) as [_|Hne]; [|contradiction].
  exists c. split; [exact Hc|].
  rewrite (samplerGet_found _ _ _ _ Hl' Hf').
  assert (Htype : SamplerParameter.type p = inputType c) by (now rewrite Hp).
  cbn [samplerOf SamplerParameter.type SamplerParameter.value
       SamplerParameter.checked].
  rewrite inputType_setValue, <- Htype, (numeric_not_checkbox _ Hnum).
  reflexivity.
Qed.

(** The slider of the sample panel has the range [[0, 2]]: 5 reads back as
    2, and 0.123456 as 0.1235. On the slider with the lower bound 1 the
    command assigns 0, the enumerated [max], and a control that keeps
    its value between 1 and 100 reads back as 1. *)
Lemma samplerGet_after_numeric_set_witness :
  samplerGet (JsValue.Str "temp")
    (doc (snd (samplerSet (String.eqb "true") {| argName := JsValue.Str "temp" |}
                 (JsValue.Str "5") Sample.page0))) = Ok "2"
  /\ samplerGet (JsValue.Str "temp")
       (doc (snd (samplerSet (String.eqb "true") {| argName := JsValue.Str "temp" |}
                    (JsValue.Str "0.123456") Sample.page0))) = Ok "0.1235"
  /\ samplerGet (engine := Sample.bounded "1" "100") (JsValue.Str "min p")
       (doc (snd (samplerSet (engine := Sample.bounded "1" "100") (String.eqb "true")
                    {| argName := JsValue.Str "min p" |} (JsValue.Str "7")
                    {| doc := Sample.lowerBound; dispatched := [] |}))) = Ok "1".
Proof.
  split; [|split].
  - destruct (samplerGet_after_numeric_set (String.eqb "true") Sample.page0 "temp" "5"
                Sample.enumeration Sample.temperatureParameter)
      as (c & Hc & ->).
    + vm_compute. reflexivity.
    + apply findMatch_first. vm_compute. reflexivity.
    + right. vm_compute. reflexivity.
    + vm_compute. reflexivity.
    + vm_compute in Hc. injection Hc as <-. vm_compute. reflexivity.
  - destruct (samplerGet_after_numeric_set (String.eqb "true") Sample.page0 "temp"
                "0.123456" Sample.enumeration Sample.temperatureParameter)
      as (c & Hc & ->).
    + vm_compute. reflexivity.
    + apply findMatch_first. vm_compute. reflexivity.
    + right. vm_compute. reflexivity.
    + vm_compute. reflexivity.
    + vm_compute in Hc. injection Hc as <-. vm_compute. reflexivity.
  - destruct (enumerateSamplerParameters Sample.lowerBound) as [[|p l]|] eqn:Hl;
      try (vm_compute in Hl; discriminate Hl).
    destruct (samplerGet_after_numeric_set (engine := Sample.bounded "1" "100")
                (String.eqb "true")
                {| doc := Sample.lowerBound; dispatched := [] |} "min p" "7"
                (p :: l) p)
      as (c & Hc & ->).
    + exact Hl.
    + apply findMatch_first. vm_compute in Hl. injection Hl as <- <-.
      vm_compute. reflexivity.
    + vm_compute in Hl. injection Hl as <- <-. right. vm_compute. reflexivity.
    + vm_compute. reflexivity.
    + vm_compute in Hl. injection Hl as <- <-.
      vm_compute in Hc. injection Hc as <-. vm_compute. reflexivity.
Defined.

(** X9. Reading back a checkbox. After [sampler-set] on a checkbox with a
    non-empty value, [sampler-get] with the same name returns ["true"] or
    ["false"] after [isTrueBoolean] of that value. *)
Theorem samplerGet_after_checkbox_set {engine : Engine}
        (isTrueBoolean : string -> bool) (w : page) (s v : string)
        (l : list SamplerParameter.t) (p : SamplerParameter.t) :
  enumerateSamplerParameters (doc w) = Ok l ->
  firstMatch (keyOf s) l p ->
  isBoolean p ->
  v <> EmptyString ->
  samplerGet (JsValue.Str s)
    (doc (snd (samplerSet isTrueBoolean {| argName := JsValue.Str s |}
                 (JsValue.Str v) w)))
  = Ok (if isTrueBoolean v then "true" else "false").
Proof.
  intros Hl Hf Hbool Hv.
  rewrite (samplerSet_found isTrueBoolean _ _ _ _ _ Hl Hf). unfold outcome.
  destruct v as [|a v]; [contradiction|].
  cbn [JsValue.toBoolean JsValue.nonEmpty negb JsValue.toString].
  unfold isBoolean in Hbool. rewrite Hbool.
  replace (String.eqb "checkbox" "checkbox") with true by reflexivity.
  cbn [snd written doc].
  destruct (firstMatch_written w (keyOf s) l p p
              (setChecked (isTrueBoolean (String a v)))
              Hl (setChecked_writesState _) Hf)
    as (l' & c & t & Hl' & _ & Hc & Hp & Hf').
  destruct (list_eq_dec Nat.eq_dec (SamplerParameter.control p)
              (SamplerParameter.control p)) as [_|Hne]; [|contradiction].
  rewrite (samplerGet_found _ _ _ _ Hl' Hf').
  assert (Htype : SamplerParameter.type p = inputType c) by (now rewrite Hp).
  cbn [samplerOf SamplerParameter.type SamplerParameter.value
       SamplerParameter.checked].
  rewrite inputType_setChecked, <- Htype, Hbool. reflexivity.
Qed.

Lemma samplerGet_after_checkbox_set_witness :
  samplerGet (JsValue.Str "Stream")
    (doc (snd (samplerSet (String.eqb "true") {| argName := JsValue.Str "Stream" |}
                 (JsValue.Str "no") Sample.page0))) = Ok "false".
Proof.
  apply (samplerGet_after_checkbox_set (String.eqb "true") Sample.page0 "Stream"
           "no" Sample.enumeration (nth 1 Sample.enumeration Sample.seedParameter)).
  - vm_compute. reflexivity.
  - apply findMatch_first. vm_compute. reflexivity.
  - vm_compute. reflexivity.
  - discriminate.
Defined.

(** X10. A write to one parameter is not seen through another:
    [sampler-get] for a name whose first match is a different control
    returns after the [sampler-set], whether that succeeded or threw,
    what it returned before. *)
Theorem samplerGet_of_other_unchanged {engine : Engine}
        (isTrueBoolean : string -> bool) (w : page) (s s2 : string)
        (value : JsValue.value)
        (l : list SamplerParameter.t) (p p2 : SamplerParameter.t) :
  enumerateSamplerParameters (doc w) = Ok l ->
  firstMatch (keyOf s) l p ->
  firstMatch (keyOf s2) l p2 ->
  SamplerParameter.control p2 <> SamplerParameter.control p ->
  samplerGet (JsValue.Str s2)
    (doc (snd (samplerSet isTrueBoolean {| argName := JsValue.Str s |} value w)))
  = samplerGet (JsValue.Str s2) (doc w).
Proof.
  intros Hl Hf Hf2 Hne.
  destruct (samplerSet_page isTrueBoolean w s value l p Hl Hf) as [->|(f & Hfw & ->)];
    [reflexivity|].
  cbn [written doc].
  destruct (firstMatch_written w (keyOf s2) l p p2 f Hl Hfw Hf2)
    as (l' & c & t & Hl' & _ & Hc & Hp & Hf').
  destruct (list_eq_dec Nat.eq_dec (SamplerParameter.control p2)
              (SamplerParameter.control p)) as [Heq|_]; [contradiction|].
  rewrite <- Hp in Hf'.
  now rewrite (samplerGet_found _ _ _ _ Hl' Hf'), (samplerGet_found _ _ _ _ Hl Hf2).
Qed.

Lemma samplerGet_of_other_unchanged_witness :
  samplerGet (JsValue.Str "seed")
    (doc (snd (samplerSet (String.eqb "true") {| argName := JsValue.Str "temp" |}
                 (JsValue.Str "0.3") Sample.page0)))
  = samplerGet (JsValue.Str "seed") Sample.panel.
Proof.
  apply (samplerGet_of_other_unchanged (String.eqb "true") Sample.page0 "temp" "seed"
           (JsValue.Str "0.3") Sample.enumeration
           Sample.temperatureParameter Sample.seedParameter).
  - vm_compute. reflexivity.
  - apply findMatch_first. vm_compute. reflexivity.
  - apply findMatch_first. vm_compute. reflexivity.
  - discriminate.
Defined.

Lemma samplerSet_page_any {engine : Engine} (isTrueBoolean : string -> bool) (args : namedArguments)
      (value : JsValue.value) (w : page) (l : list SamplerParameter.t) :
  enumerateSamplerParameters (doc w) = Ok l ->
  snd (samplerSet isTrueBoolean args value w) = w
  \/ exists p f,
       In p l /\ writesState f
       /\ snd (samplerSet isTrueBoolean args value w) = written w p f.
Proof.
  intros Hl. pose proof (enumerate_enumerated _ _ Hl) as Hall.
  destruct args as [name].
  destruct (JsValue.toBoolean name) eqn:Hn.
  2: { left. unfold samplerSet. cbn [argName]. now rewrite Hn. }
  destruct name as [| |b|n|s]; try discriminate Hn;
    try (left; unfold samplerSet; cbn [argName]; now rewrite Hn).
  cbn [JsValue.toBoolean] in Hn.
  destruct (match_or_not _ (keyOf s) l Hall) as [[p Hf]|Hno].
  - destruct (samplerSet_page isTrueBoolean w s value l p Hl Hf) as [H|(f & Hfw & H)];
      [now left|].
    right. exists p, f. destruct (firstMatch_In _ _ _ Hf) as [Hin _].
    split; [exact Hin|]. split; [exact Hfw | exact H].
  - left. now rewrite (samplerSet_notFound isTrueBoolean _ _ value _ Hl Hn Hno).
Qed.

(** X11. [sampler-set] never changes what is enumerated. Whatever the
    arguments, the enumeration of the page it leaves has the same length
    and order, and every parameter has kept its control, id, name,
    minimum, maximum and type. *)
Theorem enumeration_survives_set {engine : Engine}
        (isTrueBoolean : string -> bool) (args : namedArguments)
        (value : JsValue.value) (w : page) (l : list SamplerParameter.t) :
  enumerateSamplerParameters (doc w) = Ok l ->
  exists l',
    enumerateSamplerParameters (doc (snd (samplerSet isTrueBoolean args value w)))
    = Ok l'
    /\ Forall2 sameButState l l'.
Proof.
  intros Hl.
  destruct (samplerSet_page_any isTrueBoolean args value w l Hl)
    as [->|(p & f & _ & Hfw & ->)].
  - exists l. split; [exact Hl|].
    clear Hl. induction l; constructor; [now repeat split | assumption].
  - cbn [written doc].
    pose proof (update_samePage (doc w) (SamplerParameter.control p) f Hfw) as Hsame.
    destruct (enumerate_samePage _ _ _ Hsame Hl) as (l' & Hl' & Hall).
    exists l'. split; [exact Hl'|].
    clear - Hall. induction Hall; constructor; auto.
    now apply (sameParameter_fields _ _ _ _ H).
Qed.

Lemma enumeration_survives_set_witness :
  exists l',
    enumerateSamplerParameters
      (doc (snd (samplerSet (String.eqb "true") {| argName := JsValue.Str "temp" |}
                   (JsValue.Str "1.5") Sample.page0))) = Ok l'
    /\ Forall2 sameButState Sample.enumeration l'.
Proof.
  apply (enumeration_survives_set (String.eqb "true")
           {| argName := JsValue.Str "temp" |} (JsValue.Str "1.5") Sample.page0
           Sample.enumeration).
  vm_compute. reflexivity.
Defined.

(** *** Names are accepted as they are enumerated *)

Lemma titleOf_trimmed (d : document) (x : ref) (s : string) :
  titleOf d x = Ok (Some s) -> JsString.trim s = s.
Proof.
  unfold titleOf. destruct (getTitleParent d (Some x)) as [[t|]|]; cbn [bind];
    try discriminate.
  destruct (textContent d (Some t)) as [text|]; cbn [bind]; [|discriminate].
  intros H. injection H as <-. apply trim_idempotent.
Qed.

(** X12. Every name the enumerator produces is accepted by [sampler-get]:
    given the name of an enumerated parameter exactly as enumerated,
    [sampler-get] does not throw. It answers for the first parameter whose
    name or id equals that name up to case, which is the parameter itself
    unless an earlier one answers to the same name. *)
Theorem samplerGet_by_enumerated_name {engine : Engine}
        (d : document) (l : list SamplerParameter.t) (p : SamplerParameter.t)
        (n : string) :
  enumerateSamplerParameters d = Ok l ->
  In p l ->
  SamplerParameter.name p = Some n ->
  exists before q after,
    l = (before ++ q :: after)%list
    /\ (forall b, In b before -> ~ matchesKey (toLowerCase n) b)
    /\ matchesKey (toLowerCase n) q
    /\ (q = p \/ In p after)
    /\ samplerGet (JsValue.Str n) d = Ok (shown q).
Proof.
  intros Hl Hin Hn. pose proof (enumerate_enumerated _ _ Hl) as Hall.
  assert (Hp : enumerated d p) by (eapply Forall_forall; eassumption).
  assert (Hkey : keyOf n = toLowerCase n).
  { destruct Hp as (c & s & _ & _ & _ & _ & _ & _ & Ht & _ & _ & Hp).
    rewrite Hp in Hn. cbn [samplerOf SamplerParameter.name] in Hn.
    injection Hn as <-. unfold keyOf. now rewrite (titleOf_trimmed _ _ _ Ht). }
  assert (Hm : matchesKey (keyOf n) p).
  { left. exists n. split; [exact Hn | now rewrite Hkey]. }
  destruct (match_or_not _ (keyOf n) l Hall) as [[q Hf]|Hno];
    [|exfalso; exact (Hno p Hin Hm)].
  pose proof (samplerGet_found _ _ _ _ Hl Hf) as Hget.
  destruct Hf as (before & after & -> & Hq & Hbefore).
  exists before, q, after. rewrite <- Hkey.
  split; [reflexivity|]. split; [exact Hbefore|]. split; [exact Hq|].
  split; [|exact Hget].
  apply in_app_or in Hin. destruct Hin as [Hin|[Heq|Hin]].
  - exfalso. exact (Hbefore p Hin Hm).
  - now left.
  - now right.
Qed.

Lemma samplerGet_by_enumerated_name_witness :
  exists before q after,
    Sample.enumeration = (before ++ q :: after)%list
    /\ (forall b, In b before -> ~ matchesKey "seed" b)
    /\ matchesKey "seed" q
    /\ (q = Sample.seedParameter \/ In Sample.seedParameter after)
    /\ samplerGet (JsValue.Str "Seed") Sample.panel = Ok (shown q).
Proof.
  refine (samplerGet_by_enumerated_name Sample.panel Sample.enumeration
            Sample.seedParameter "Seed" _ _ _).
  - vm_compute. reflexivity.
  - vm_compute. auto.
  - reflexivity.
Defined.

(** X13. An id is accepted by [sampler-get] as it is enumerated, provided
    it has no white space around it: the command answers for the first
    parameter whose name or id equals it up to case. The id is not trimmed
    when it is derived, while the argument is: an id with white space
    around it does not match itself. *)
Theorem samplerGet_by_enumerated_id {engine : Engine}
        (d : document) (l : list SamplerParameter.t) (p : SamplerParameter.t) :
  enumerateSamplerParameters d = Ok l ->
  In p l ->
  JsString.trim (SamplerParameter.id p) = SamplerParameter.id p ->
  exists before q after,
    l = (before ++ q :: after)%list
    /\ (forall b, In b before ->
                  ~ matchesKey (toLowerCase (SamplerParameter.id p)) b)
    /\ matchesKey (toLowerCase (SamplerParameter.id p)) q
    /\ (q = p \/ In p after)
    /\ samplerGet (JsValue.Str (SamplerParameter.id p)) d = Ok (shown q).
Proof.
  intros Hl Hin Htrim. pose proof (enumerate_enumerated _ _ Hl) as Hall.
  assert (Hkey : keyOf (SamplerParameter.id p)
                 = toLowerCase (SamplerParameter.id p))
    by (unfold keyOf; now rewrite Htrim).
  assert (Hm : matchesKey (keyOf (SamplerParameter.id p)) p)
    by (right; now rewrite Hkey).
  destruct (match_or_not _ (keyOf (SamplerParameter.id p)) l Hall) as [[q Hf]|Hno];
    [|exfalso; exact (Hno p Hin Hm)].
  pose proof (samplerGet_found _ _ _ _ Hl Hf) as Hget.
  destruct Hf as (before & after & -> & Hq & Hbefore).
  exists before, q, after. rewrite <- Hkey.
  split; [reflexivity|]. split; [exact Hbefore|]. split; [exact Hq|].
  split; [|exact Hget].
  apply in_app_or in Hin. destruct Hin as [Hin|[Heq|Hin]].
  - exfalso. exact (Hbefore p Hin Hm).
  - now left.
  - now right.
Qed.

Lemma samplerGet_by_enumerated_id_witness :
  exists before q after,
    Sample.enumeration = (before ++ q :: after)%list
    /\ (forall b, In b before -> ~ matchesKey "temp_last" b)
    /\ matchesKey "temp_last" q
    /\ (q = nth 3 Sample.enumeration Sample.seedParameter
        \/ In (nth 3 Sample.enumeration Sample.seedParameter) after)
    /\ samplerGet (JsValue.Str "temp_last") Sample.panel = Ok (shown q).
Proof.
  refine (samplerGet_by_enumerated_id Sample.panel Sample.enumeration
            (nth 3 Sample.enumeration Sample.seedParameter) _ _ _).
  - vm_compute. reflexivity.
  - vm_compute. auto.
  - reflexivity.
Defined.

End RoundTrip.

(** ** Numbers: what the enumerator and the set command hand on *)

Section NumberBounds.
Local Open Scope Z_scope.

(** X14. No [NaN] gets in or out. The minimum, maximum and value of every
    enumerated parameter are numbers, whatever the attributes of the
    control hold, and so is the number [sampler-set] stores for a finite
    input. *)
Theorem enumerated_numbers_are_numbers
        (d : Dom.document) (l : list SamplerParameter.t) (p : SamplerParameter.t) :
  enumerateSamplerParameters d = Ok l ->
  In p l ->
  JsNumber.isNaN (SamplerParameter.min p) = false
  /\ JsNumber.isNaN (SamplerParameter.max p) = false
  /\ JsNumber.isNaN (SamplerParameter.value p) = false
  /\ forall n,
       JsNumber.isFinite n = true ->
       JsNumber.isNaN
         (JsNumber.min (JsNumber.max n (SamplerParameter.min p))
            (SamplerParameter.max p)) = false.
Proof.
  intros Hl Hin. pose proof (enumerate_enumerated _ _ Hl) as Hall.
  rewrite Forall_forall in Hall.
  destruct (enumerated_numbers d p (Hall p Hin)) as (Hmin & Hmax & Hval).
  repeat split; try assumption.
  intros n Hn. apply clamp_facts; try assumption. now destruct n.
Qed.

Lemma enumerated_numbers_are_numbers_witness :
  JsNumber.isNaN (SamplerParameter.max (nth 1 Sample.enumeration Sample.seedParameter))
  = false.
Proof.
  apply (enumerated_numbers_are_numbers Sample.panel Sample.enumeration
           (nth 1 Sample.enumeration Sample.seedParameter)).
  - vm_compute. reflexivity.
  - vm_compute. auto.
Defined.

(** X15. The number [sampler-set] stores,
    [Math.min(Math.max(n, min), max)], is never above the maximum; when
    the minimum is not above the maximum it is not below the minimum
    either, and an input within the bounds is stored as it is; when the
    minimum is above the maximum, every input is stored as the maximum. *)
Theorem clamp_within_bounds
        (d : Dom.document) (l : list SamplerParameter.t) (p : SamplerParameter.t)
        (n : JsNumber.number) :
  enumerateSamplerParameters d = Ok l ->
  In p l ->
  JsNumber.isFinite n = true ->
  let lo := SamplerParameter.min p in
  let hi := SamplerParameter.max p in
  let stored := JsNumber.min (JsNumber.max n lo) hi in
  SFleb stored hi = true
  /\ (SFleb lo hi = true -> SFleb lo stored = true)
  /\ (SFleb lo n = true -> SFleb n hi = true ->
      JsNumber.toString stored = JsNumber.toString n)
  /\ (SFltb hi lo = true -> stored = hi).
Proof.
  intros Hl Hin Hn lo hi stored. pose proof (enumerate_enumerated _ _ Hl) as Hall.
  rewrite Forall_forall in Hall.
  destruct (enumerated_numbers d p (Hall p Hin)) as (Hmin & Hmax & _).
  apply (clamp_facts lo hi n Hmin Hmax). now destruct n.
Qed.

Lemma clamp_within_bounds_witness :
  JsNumber.toString
    (JsNumber.min
       (JsNumber.max (JsNumber.parseFloat "1.25")
          (SamplerParameter.min Sample.temperatureParameter))
       (SamplerParameter.max Sample.temperatureParameter))
  = JsNumber.toString (JsNumber.parseFloat "1.25").
Proof.
  destruct (clamp_within_bounds Sample.panel Sample.enumeration
              Sample.temperatureParameter (JsNumber.parseFloat "1.25"))
    as (_ & _ & Hin & _).
  - vm_compute. reflexivity.
  - vm_compute. auto.
  - vm_compute. reflexivity.
  - apply Hin; vm_compute; reflexivity.
Defined.

End NumberBounds.

(** ** Writing twice *)

Section Repeat.
Import Dom.

Lemma updateNth_twice {A : Type} (g : A -> A) (l : list A) (i : nat) :
  (forall x, g (g x) = g x) ->
  updateNth i g (updateNth i g l) = updateNth i g l.
Proof.
  intros Hg. revert i; induction l as [|a l IH]; intros [|i]; simpl;
    try reflexivity.
  - now rewrite Hg.
  - now rewrite IH.
Qed.

Lemma updateAt_twice (f : element -> element) (path : list nat) :
  (forall e, f (f e) = f e) ->
  forall ns, updateAt path f (updateAt path f ns) = updateAt path f ns.
Proof.
  intros Hf. induction path as [|i rest IH]; intros ns; [reflexivity|].
  cbn [updateAt]. apply updateNth_twice.
  intros [t|e kids]; [reflexivity|].
  destruct rest as [|j rest]; [now rewrite Hf | now rewrite IH].
Qed.

Lemma update_twice (d : document) (r : ref) (f : element -> element) :
  (forall e, f (f e) = f e) ->
  update (update d r f) r f = update d r f.
Proof. intros Hf. now apply updateAt_twice. Qed.

(** X16. Writing twice is writing once. When [sampler-set] has returned,
    the same command run again on the page it left returns as well,
    leaves the document as it is and dispatches the same event on the
    same control once more. *)
Theorem samplerSet_twice {engine : Engine}
        (isTrueBoolean : string -> bool) (args : namedArguments)
        (value : JsValue.value) (w w1 : page) (out : string) :
  samplerSet isTrueBoolean args value w = (Ok out, w1) ->
  exists r,
    dispatched w1 = (dispatched w ++ [inputEvent r])%list
    /\ samplerSet isTrueBoolean args value w1
       = (Ok EmptyString,
          {| doc := doc w1;
             dispatched := (dispatched w1 ++ [inputEvent r])%list |}).
Proof.
  intros Hrun.
  destruct (enumerate_returns (doc w)) as [l Hl].
  pose proof (enumerate_enumerated _ _ Hl) as Hall.
  destruct args as [name].
  destruct (JsValue.toBoolean name) eqn:Hn.
  2: { unfold samplerSet in Hrun. cbn [argName] in Hrun. rewrite Hn in Hrun.
       discriminate Hrun. }
  destruct name as [| |b|n|s]; try discriminate Hn.
  1, 2: unfold samplerSet in Hrun; cbn [argName] in Hrun; rewrite Hn in Hrun;
        discriminate Hrun.
  cbn [JsValue.toBoolean] in Hn.
  destruct (match_or_not _ (keyOf s) l Hall) as [[p Hf]|Hno].
  2: { rewrite (samplerSet_notFound isTrueBoolean _ _ value _ Hl Hn Hno) in Hrun.
       discriminate Hrun. }
  rewrite (samplerSet_found isTrueBoolean _ _ value _ _ Hl Hf) in Hrun.
  exists (SamplerParameter.control p).
  assert (Hagain : forall f,
             writesState f ->
             (forall e, f (f e) = f e) ->
             (forall c t,
                 p = samplerOf (SamplerParameter.control p) c t ->
                 outcome isTrueBoolean (written w p f)
                   (samplerOf (SamplerParameter.control p) (f c) t) value
                 = (Ok EmptyString,
                    written (written w p f)
                      (samplerOf (SamplerParameter.control p) (f c) t) f)) ->
             w1 = written w p f ->
             dispatched w1
             = (dispatched w ++ [inputEvent (SamplerParameter.control p)])%list
             /\ samplerSet isTrueBoolean {| argName := JsValue.Str s |} value w1
                = (Ok EmptyString,
                   {| doc := doc w1;
                      dispatched :=
                        (dispatched w1
                         ++ [inputEvent (SamplerParameter.control p)])%list |})).
  { intros f Hfw Hff Hout ->. split; [reflexivity|].
    destruct (firstMatch_written w (keyOf s) l p p f Hl Hfw Hf)
      as (l' & c & t & Hl' & _ & Hc & Hp & Hf').
    destruct (list_eq_dec Nat.eq_dec (SamplerParameter.control p)
                (SamplerParameter.control p)) as [_|Hne]; [|now elim Hne].
    rewrite (samplerSet_found isTrueBoolean (written w p f) s value l' _ Hl' Hf').
    rewrite (Hout c t Hp). unfold written at 1.
    cbn [samplerOf SamplerParameter.control].
    cbn [doc dispatched written]. now rewrite (update_twice _ _ f Hff). }
  unfold outcome in Hrun.
  destruct (JsValue.toBoolean value) eqn:Hv; cbn [negb] in Hrun;
    [|discriminate Hrun].
  destruct value as [| |b|n|v]; try discriminate Hrun.
  destruct (String.eqb (SamplerParameter.type p) "checkbox") eqn:Htype.
  - injection Hrun as _ <-.
    apply (Hagain (setChecked (isTrueBoolean v)) (setChecked_writesState _));
      try reflexivity.
    intros c t Hp. unfold outcome. rewrite Hv. cbn [negb].
    assert (Hty : SamplerParameter.type p = inputType c) by (now rewrite Hp).
    cbn [samplerOf SamplerParameter.type]. rewrite inputType_setChecked, <- Hty, Htype.
    reflexivity.
  - destruct (JsNumber.isFinite (JsNumber.parseFloat v)) eqn:Hfin;
      [|discriminate Hrun].
    injection Hrun as _ <-.
    apply (Hagain (setValue (JsNumber.toString (clamp p (JsNumber.parseFloat v))))
             (setValue_writesState _)); try reflexivity.
    intros c t Hp. unfold outcome. rewrite Hv. cbn [negb].
    assert (Hty : SamplerParameter.type p = inputType c) by (now rewrite Hp).
    assert (Hmin : SamplerParameter.min p
                   = roundToPrecision
                       (JsValue.Number (JsNumber.parseFloat (reflected c "min"))))
      by (now rewrite Hp).
    assert (Hmax : SamplerParameter.max p
                   = roundToPrecision
                       (JsValue.Number (JsNumber.parseFloat (reflected c "max"))))
      by (now rewrite Hp).
    cbn [samplerOf SamplerParameter.type]. rewrite inputType_setValue, <- Hty, Htype.
    rewrite Hfin. unfold clamp at 1.
    cbn [SamplerParameter.min SamplerParameter.max].
    unfold clamp. rewrite Hmin, Hmax. reflexivity.
Qed.

Lemma samplerSet_twice_witness :
  exists r,
    samplerSet (String.eqb "true") {| argName := JsValue.Str "temp" |}
      (JsValue.Str "0.5")
      (snd (samplerSet (String.eqb "true") {| argName := JsValue.Str "temp" |}
              (JsValue.Str "0.5") Sample.page0))
    = (Ok EmptyString,
       {| doc := doc (snd (samplerSet (String.eqb "true")
                             {| argName := JsValue.Str "temp" |}
                             (JsValue.Str "0.5") Sample.page0));
          dispatched :=
            (dispatched (snd (samplerSet (String.eqb "true")
                                {| argName := JsValue.Str "temp" |}
                                (JsValue.Str "0.5") Sample.page0))
             ++ [inputEvent r])%list |}).
Proof.
  destruct (samplerSet_twice (String.eqb "true") {| argName := JsValue.Str "temp" |}
              (JsValue.Str "0.5") Sample.page0
              (snd (samplerSet (String.eqb "true")
                      {| argName := JsValue.Str "temp" |}
                      (JsValue.Str "0.5") Sample.page0))
              EmptyString) as (r & _ & H).
  - vm_compute. reflexivity.
  - exists r. exact H.
Defined.

End Repeat.

(** ** Where a name comes from, and what is left of an id *)

Section TitleAndId.
Import Dom JsString.

Lemma orElse_chain {B : Type} (a b c g : handle) (K : handle -> result B) :
  (x <- orElse a (Ok b) ;; y <- orElse x (Ok c) ;; z <- orElse y (Ok g) ;; K z)
  = K (match a, b, c with
       | Some _, _, _ => a
       | None, Some _, _ => b
       | None, None, Some _ => c
       | None, None, None => g
       end).
Proof. destruct a, b, c; reflexivity. Qed.

Lemma first_some_unique {A B : Type} (f : A -> option B)
      (pre pre' post post' : list A) (x x' : A) (b b' : B) :
  (pre ++ x :: post)%list = (pre' ++ x' :: post')%list ->
  f x = Some b -> f x' = Some b' ->
  (forall y, In y pre -> f y = None) ->
  (forall y, In y pre' -> f y = None) ->
  b = b'.
Proof.
  revert pre'. induction pre as [|y pre IH]; intros [|y' pre'] Heq Hb Hb' Hpre Hpre';
    cbn [app] in Heq; injection Heq as Hhead Htail.
  - congruence.
  - subst y'. rewrite (Hpre' x (or_introl eq_refl)) in Hb. discriminate Hb.
  - subst y. rewrite (Hpre x' (or_introl eq_refl)) in Hb'. discriminate Hb'.
  - apply (IH pre' Htail Hb Hb').
    + intros z Hz. apply Hpre. now right.
    + intros z Hz. apply Hpre'. now right.
Qed.

Lemma containerAt_unique (d : document) (r a a' : ref) :
  containerAt d r a -> containerAt d r a' -> a = a'.
Proof.
  intros (pre & sel & post & Hs & Hcl & Hpre) (pre' & sel' & post' & Hs' & Hcl' & Hpre').
  rewrite Hs in Hs'.
  exact (first_some_unique (fun s => closestFrom d s r) _ _ _ _ _ _ _ _
           Hs' Hcl Hcl' Hpre Hpre').
Qed.

Lemma title_candidate (d : document) (a : ref) (sel : selector) :
  hasText d (hd_error (selectAll d sel a)) = Ok true ->
  exists mid,
    hd_error (selectAll d sel a) = Some (mid ++ a)%list
    /\ mid <> []
    /\ isHTMLElement d (Some (mid ++ a)%list) = true.
Proof.
  intros Ht. pose proof (hasText_true _ _ Ht) as Hh.
  destruct (isHTMLElement_element _ _ Hh) as (x & e & Hx & _).
  assert (Hin : In x (selectAll d sel a)).
  { destruct (selectAll d sel a) as [|y l]; [discriminate Hx|].
    injection Hx as ->. now left. }
  destruct (selectAll_below _ _ _ _ Hin) as (mid & -> & Hne).
  exists mid. split; [exact Hx|]. split; [exact Hne|].
  rewrite Hx in Hh. exact Hh.
Qed.

(** X17. Where the title of a control is taken from. The container of a
    control is the nearest element, the control itself included, matched
    by the first of [.range-block], [label], [h4], [div] that matches the
    control or one of its ancestors. [getTitleParent] returns [null]
    exactly when there is no such container or it is not an HTML element.
    Otherwise it returns the container, or an element strictly inside the
    container: the first match of the first of [.range-block-title],
    [small], [.checkbox_label] whose first match is an HTML element with
    text that is not blank; the container itself is returned only when
    none of the three has such a first match. *)
Theorem getTitleParent_source (d : document) (r : ref) (e : element) :
  elementAt d r = Some e ->
  (getTitleParent d (Some r) = Ok None
   <-> ~ exists a, containerAt d r a /\ isHTMLElement d (Some a) = true)
  /\ forall t,
       getTitleParent d (Some r) = Ok (Some t) ->
       exists below a mid,
         r = (below ++ a)%list
         /\ t = (mid ++ a)%list
         /\ containerAt d r a
         /\ isHTMLElement d (Some a) = true
         /\ isHTMLElement d (Some t) = true
         /\ ((mid = []
              /\ forall sel, In sel titleSelectors ->
                             hasText d (hd_error (selectAll d sel a)) = Ok false)
             \/ (mid <> []
                 /\ hasText d (Some t) = Ok true
                 /\ exists pre sel post,
                      titleSelectors = (pre ++ sel :: post)%list
                      /\ hd_error (selectAll d sel a) = Some t
                      /\ forall sel', In sel' pre ->
                           hasText d (hd_error (selectAll d sel' a)) = Ok false)).
Proof.
  intros He. destruct (receiver_element _ _ _ He) as [kids Hr].
  unfold getTitleParent, closest. rewrite Hr. cbn [bind fst snd].
  rewrite orElse_chain.
  set (A := closestFrom d [[SClass "range-block"]] r).
  set (B := closestFrom d [[STag "label"]] r).
  set (C := closestFrom d [[STag "h4"]] r).
  set (G := closestFrom d [[STag "div"]] r).
  set (chosen := match A, B, C with
                 | Some _, _, _ => A
                 | None, Some _, _ => B
                 | None, None, Some _ => C
                 | None, None, None => G
                 end).
  assert (Hchosen : match chosen with
                    | Some a => containerAt d r a
                    | None => forall sel, In sel containerSelectors ->
                                          closestFrom d sel r = None
                    end).
  { unfold chosen. destruct A as [a|] eqn:HA.
    - exists [], [[SClass "range-block"]], [ [[STag "label"]]; [[STag "h4"]]; [[STag "div"]] ].
      split; [reflexivity|]. split; [exact HA|]. intros ? [].
    - destruct B as [b|] eqn:HB.
      + exists [ [[SClass "range-block"]] ], [[STag "label"]], [ [[STag "h4"]]; [[STag "div"]] ].
        split; [reflexivity|]. split; [exact HB|].
        intros ? [<-|[]]. exact HA.
      + destruct C as [c|] eqn:HC.
        * exists [ [[SClass "range-block"]]; [[STag "label"]] ], [[STag "h4"]], [ [[STag "div"]] ].
          split; [reflexivity|]. split; [exact HC|].
          intros ? [<-|[<-|[]]]; assumption.
        * destruct G as [g|] eqn:HG.
          -- exists [ [[SClass "range-block"]]; [[STag "label"]]; [[STag "h4"]] ], [[STag "div"]], [].
             split; [reflexivity|]. split; [exact HG|].
             intros ? [<-|[<-|[<-|[]]]]; assumption.
          -- intros ? [<-|[<-|[<-|[<-|[]]]]]; assumption. }
  clearbody chosen. clear A B C G.
  destruct chosen as [a|].
  2: { cbn [isHTMLElement negb]. split; [|discriminate].
       split; [|reflexivity]. intros _ (a & (pre & sel & post & Hs & Hcl & _) & _).
       assert (Hin : In sel containerSelectors)
         by (rewrite Hs; apply in_or_app; right; now left).
       rewrite (Hchosen sel Hin) in Hcl. discriminate Hcl. }
  destruct (isHTMLElement d (Some a)) eqn:Hh; cbn [negb].
  2: { split; [|discriminate]. split; [|reflexivity].
       intros _ (a' & Hc' & Hh').
       rewrite (containerAt_unique _ _ _ _ Hc' Hchosen) in Hh'. congruence. }
  destruct (isHTMLElement_element _ _ Hh) as (a0 & ea & Ha0 & Hea & _).
  injection Ha0 as <-.
  destruct (receiver_element _ _ _ Hea) as [ka Hrec].
  unfold querySelector. rewrite Hrec. cbn [bind fst snd].
  assert (Hbelow : exists below, r = (below ++ a)%list).
  { destruct Hchosen as (pre & sel & post & _ & Hcl & _).
    destruct (closestFrom_some _ _ _ _ Hcl) as (below & Hb & _). now exists below. }
  destruct Hbelow as [below Hbelow].
  set (T1 := hd_error (selectAll d [[SClass "range-block-title"]] a)).
  set (T2 := hd_error (selectAll d [[STag "small"]] a)).
  set (T3 := hd_error (selectAll d [[SClass "checkbox_label"]] a)).
  assert (Hfound : forall pre sel post,
             titleSelectors = (pre ++ sel :: post)%list ->
             hasText d (hd_error (selectAll d sel a)) = Ok true ->
             (forall sel', In sel' pre ->
                           hasText d (hd_error (selectAll d sel' a)) = Ok false) ->
             (Ok (hd_error (selectAll d sel a)) = Ok None
              <-> ~ exists a, containerAt d r a /\ isHTMLElement d (Some a) = true)
             /\ (forall t,
                 Ok (hd_error (selectAll d sel a)) = Ok (Some t) ->
                 exists below a mid,
                   r = (below ++ a)%list
                   /\ t = (mid ++ a)%list
                   /\ containerAt d r a
                   /\ isHTMLElement d (Some a) = true
                   /\ isHTMLElement d (Some t) = true
                   /\ ((mid = []
                        /\ forall sel, In sel titleSelectors ->
                              hasText d (hd_error (selectAll d sel a)) = Ok false)
                       \/ (mid <> []
                           /\ hasText d (Some t) = Ok true
                           /\ exists pre sel post,
                                titleSelectors = (pre ++ sel :: post)%list
                                /\ hd_error (selectAll d sel a) = Some t
                                /\ forall sel', In sel' pre ->
                                     hasText d (hd_error (selectAll d sel' a))
                                     = Ok false)))).
  { intros pre sel post Hs Ht Hpre.
    destruct (title_candidate _ _ _ Ht) as (mid & Hx & Hne & Hhx).
    rewrite Hx in Ht |- *. split.
    - split; [discriminate|]. intros Hno. elim Hno. now exists a.
    - intros t Heq. injection Heq as <-. exists below, a, mid.
      split; [exact Hbelow|]. split; [reflexivity|]. split; [exact Hchosen|].
      split; [exact Hh|]. split; [exact Hhx|]. right.
      split; [exact Hne|]. split; [exact Ht|].
      exists pre, sel, post. split; [exact Hs|]. split; [exact Hx|exact Hpre]. }
  destruct (hasText_returns d T1) as [t1 Ht1]. rewrite Ht1. cbn [bind].
  destruct t1.
  { apply (Hfound [] _ _ eq_refl Ht1). intros ? []. }
  destruct (hasText_returns d T2) as [t2 Ht2]. rewrite Ht2. cbn [bind].
  destruct t2.
  { apply (Hfound [ [[SClass "range-block-title"]] ] _ _ eq_refl Ht2).
    intros ? [<-|[]]. exact Ht1. }
  destruct (hasText_returns d T3) as [t3 Ht3]. rewrite Ht3. cbn [bind].
  destruct t3.
  { apply (Hfound [ [[SClass "range-block-title"]]; [[STag "small"]] ] _ _
             eq_refl Ht3).
    intros ? [<-|[<-|[]]]; assumption. }
  split.
  - split; [discriminate|]. intros Hno. elim Hno. now exists a.
  - intros t Heq. injection Heq as <-. exists below, a, [].
    split; [exact Hbelow|]. split; [reflexivity|]. split; [exact Hchosen|].
    split; [exact Hh|]. split; [exact Hh|]. left. split; [reflexivity|].
    intros ? [<-|[<-|[<-|[]]]]; assumption.
Qed.

(** On the panel in another language the title of the third block is a
    no-break space and nothing else: it is passed over, and the [small]
    element beside it, the second child of the block, is returned. *)
Lemma getTitleParent_source_witness :
  (exists below a mid,
      Sample.temperatureControl = (below ++ a)%list
      /\ getTitleParent Sample.panel (Some Sample.temperatureControl)
         = Ok (Some (mid ++ a)%list)
      /\ containerAt Sample.panel Sample.temperatureControl a)
  /\ (exists a,
         getTitleParent Sample.localised (Some Sample.seedControl)
         = Ok (Some (1 :: a))
         /\ containerAt Sample.localised Sample.seedControl a
         /\ hasText Sample.localised
              (hd_error (selectAll Sample.localised [[SClass "range-block-title"]] a))
            = Ok false).
Proof.
  split.
  - destruct (getTitleParent Sample.panel (Some Sample.temperatureControl))
      as [[t|]|] eqn:Hrun; try (vm_compute in Hrun; discriminate Hrun).
    destruct (elementAt Sample.panel Sample.temperatureControl) as [e|] eqn:He;
      [|vm_compute in He; discriminate He].
    destruct (getTitleParent_source Sample.panel Sample.temperatureControl e He)
      as [_ Hsome].
    destruct (Hsome t Hrun) as (below & a & mid & Hb & Ht & Hc & _).
    exists below, a, mid. split; [exact Hb|]. split; [|exact Hc].
    subst t. reflexivity.
  - destruct (elementAt Sample.localised Sample.seedControl) as [e|] eqn:He;
      [|vm_compute in He; discriminate He].
    destruct (getTitleParent_source Sample.localised Sample.seedControl e He)
      as [_ Hsome].
    assert (Hrun : getTitleParent Sample.localised (Some Sample.seedControl)
                   = Ok (Some [1; 2; 0; 0; 0])) by (vm_compute; reflexivity).
    destruct (Hsome _ Hrun) as (below & a & mid & Hb & Ht & Hc & _ & _ & Hcases).
    assert (Ha : a = [2; 0; 0; 0]).
    { assert (Hclosest : closestFrom Sample.localised [[SClass "range-block"]]
                           Sample.seedControl = Some [2; 0; 0; 0])
        by (vm_compute; reflexivity).
      destruct Hc as (pre & sel & post & Hs & Hcl & Hpre).
      destruct pre as [|first pre].
      - injection Hs as <- _. rewrite Hclosest in Hcl. now injection Hcl as <-.
      - injection Hs as <- _. specialize (Hpre _ (or_introl eq_refl)).
        rewrite Hclosest in Hpre. discriminate Hpre. }
    subst a. exists [2; 0; 0; 0]. split; [exact Hrun|]. split; [exact Hc|].
    vm_compute. reflexivity.
Defined.

Lemma length_append (a b : string) :
  String.length (a ++ b) = String.length a + String.length b.
Proof. induction a as [|c a IH]; simpl; [reflexivity | now rewrite IH]. Qed.

Lemma strips_length (pat s s' : string) :
  strips pat s s' ->
  String.length s' <= String.length s <= String.length s' + String.length pat.
Proof.
  intros [[_ ->]|(a & b & Hocc & _ & ->)]; [lia|].
  unfold occurs_at in Hocc. rewrite Hocc, !length_append. lia.
Qed.

Lemma strips_same_length (pat s s' : string) :
  pat <> EmptyString ->
  strips pat s s' ->
  String.length s' = String.length s ->
  s' = s /\ ~ occurs pat s.
Proof.
  intros Hpat [[Hno ->]|(a & b & Hocc & _ & ->)] Hlen; [now split|].
  unfold occurs_at in Hocc. rewrite Hocc, !length_append in Hlen.
  destruct pat; [now elim Hpat|]. simpl in Hlen. lia.
Qed.

Lemma strips_absent (pat s s' : string) :
  ~ occurs pat s -> strips pat s s' -> s' = s.
Proof.
  intros Hno [[_ ->]|(a & b & Hocc & _)]; [reflexivity|].
  elim Hno. now exists a, b.
Qed.

(** X18. What [sanitizeId] leaves. The sanitized id is the raw id exactly
    when none of the six tokens occurs in the raw id; it is never longer
    than the raw id, and shorter by 52 characters, the length of the six
    tokens together, at most. *)
Theorem sanitizeId_unchanged_iff (raw : string) :
  (sanitizeId raw = raw <-> forall tok, In tok tokens -> ~ occurs tok raw)
  /\ String.length (sanitizeId raw) <= String.length raw
     <= String.length (sanitizeId raw) + 52.
Proof.
  unfold sanitizeId.
  pose proof (replace_strips "_counter" raw) as H1.
  set (s1 := replace "_counter" EmptyString raw) in *.
  pose proof (replace_strips "_textgenerationwebui" s1) as H2.
  set (s2 := replace "_textgenerationwebui" EmptyString s1) in *.
  pose proof (replace_strips "_openai" s2) as H3.
  set (s3 := replace "_openai" EmptyString s2) in *.
  pose proof (replace_strips "_novel" s3) as H4.
  set (s4 := replace "_novel" EmptyString s3) in *.
  pose proof (replace_strips "openai_" s4) as H5.
  set (s5 := replace "openai_" EmptyString s4) in *.
  pose proof (replace_strips "oai_" s5) as H6.
  set (s6 := replace "oai_" EmptyString s5) in *.
  pose proof (strips_length _ _ _ H1) as L1. pose proof (strips_length _ _ _ H2) as L2.
  pose proof (strips_length _ _ _ H3) as L3. pose proof (strips_length _ _ _ H4) as L4.
  pose proof (strips_length _ _ _ H5) as L5. pose proof (strips_length _ _ _ H6) as L6.
  cbn [String.length] in L1, L2, L3, L4, L5, L6.
  clearbody s1 s2 s3 s4 s5 s6.
  split; [|lia]. split.
  - intros Heq.
    assert (Hlen : String.length s6 = String.length raw) by (now rewrite Heq).
    assert (P1 : "_counter" <> EmptyString) by discriminate.
    assert (Q1 : String.length s1 = String.length raw) by lia.
    destruct (strips_same_length _ _ _ P1 H1 Q1) as [E1 N1].
    assert (P2 : "_textgenerationwebui" <> EmptyString) by discriminate.
    assert (Q2 : String.length s2 = String.length s1) by lia.
    destruct (strips_same_length _ _ _ P2 H2 Q2) as [E2 N2].
    assert (P3 : "_openai" <> EmptyString) by discriminate.
    assert (Q3 : String.length s3 = String.length s2) by lia.
    destruct (strips_same_length _ _ _ P3 H3 Q3) as [E3 N3].
    assert (P4 : "_novel" <> EmptyString) by discriminate.
    assert (Q4 : String.length s4 = String.length s3) by lia.
    destruct (strips_same_length _ _ _ P4 H4 Q4) as [E4 N4].
    assert (P5 : "openai_" <> EmptyString) by discriminate.
    assert (Q5 : String.length s5 = String.length s4) by lia.
    destruct (strips_same_length _ _ _ P5 H5 Q5) as [E5 N5].
    assert (P6 : "oai_" <> EmptyString) by discriminate.
    assert (Q6 : String.length s6 = String.length s5) by lia.
    destruct (strips_same_length _ _ _ P6 H6 Q6) as [E6 N6].
    subst s1 s2 s3 s4 s5.
    intros tok [<-|[<-|[<-|[<-|[<-|[<-|[]]]]]]]; assumption.
  - intros Hno.
    assert (E1 : s1 = raw)
      by (apply (strips_absent "_counter"); [apply Hno; cbn; tauto | exact H1]).
    subst s1.
    assert (E2 : s2 = raw)
      by (apply (strips_absent "_textgenerationwebui"); [apply Hno; cbn; tauto | exact H2]).
    subst s2.
    assert (E3 : s3 = raw)
      by (apply (strips_absent "_openai"); [apply Hno; cbn; tauto | exact H3]).
    subst s3.
    assert (E4 : s4 = raw)
      by (apply (strips_absent "_novel"); [apply Hno; cbn; tauto | exact H4]).
    subst s4.
    assert (E5 : s5 = raw)
      by (apply (strips_absent "openai_"); [apply Hno; cbn; tauto | exact H5]).
    subst s5.
    apply (strips_absent "oai_"); [apply Hno; cbn; tauto | exact H6].
Qed.

End TitleAndId.
